(** * Crawl gateway: venue discovery and route assembly

    A shallow embedding of the request handlers of the bar-crawl
    gateway.  The repository holds two variants of the server:

    - [src/unnamed/part_000], the hardened variant (input validation,
      upstream status checks), embedded in [Module Hardened];
    - [src/server.js], the plain variant, embedded in [Module Server].

    The place normalizer, the nightlife classifier and the unit
    formatters are textually the same in both files and are embedded
    once.

    Modelling conventions.
    - Strings are sequences of code units below 256.
    - A query parameter is a string or is absent; the address of the
      hardened geocoding, whose type that handler tests, is any value.
    - A JavaScript number is [NaN], an infinity, or [Finite q] with [q]
      the exact rational value of a binary64; negative zero is
      identified with zero.
    - JSON data coming from the upstream (place records, search
      envelopes) is a dynamically typed [value]; an operation that
      raises in JavaScript returns [Throw].
    - The upstream is reached through [Fetch] nodes of an interaction
      tree, so that "no upstream call" is the absence of such a node. *)

From Stdlib Require Import ZArith QArith Qabs Qround Qpower String Ascii List.
From Stdlib Require Import Lia Lqa Bool.
From Stdlib Require Import DecimalString DecimalPos.
From stdpp Require Import base list option.

Open Scope string_scope.
Open Scope Z_scope.

(** ** Strings *)

Module Str.

(** [s.includes(sub)] *)
Fixpoint includes (s sub : string) : bool :=
  String.prefix sub s ||
  match s with
  | EmptyString => false
  | String _ s' => includes s' sub
  end.

Fixpoint drop (n : nat) (s : string) : string :=
  match n, s with
  | O, _ => s
  | S n', String _ s' => drop n' s'
  | S _, EmptyString => EmptyString
  end.

(** [s.replace(pat, '')] with a string pattern: only the first
    occurrence is removed. *)
Fixpoint remove_first (pat s : string) : string :=
  if String.prefix pat s then drop (String.length pat) s
  else match s with
       | EmptyString => EmptyString
       | String c s' => String c (remove_first pat s')
       end.

(** [s.split(sep)] for a one-character separator. *)
Fixpoint split (sep : ascii) (s : string) : list string :=
  match s with
  | EmptyString => [EmptyString]
  | String c s' =>
      if Ascii.eqb c sep then EmptyString :: split sep s'
      else match split sep s' with
           | h :: t => String c h :: t
           | [] => [String c EmptyString]
           end
  end.

(** White space and line terminators among the code units below 256:
    TAB, LF, VT, FF, CR, SP and NBSP. *)
Definition is_space (c : ascii) : bool :=
  let n := nat_of_ascii c in
  ((9 <=? n)%nat && (n <=? 13)%nat) || (n =? 32)%nat || (n =? 160)%nat.

Fixpoint trimStart (s : string) : string :=
  match s with
  | String c s' => if is_space c then trimStart s' else s
  | EmptyString => EmptyString
  end.

Fixpoint trimEnd (s : string) : string :=
  match s with
  | EmptyString => EmptyString
  | String c s' =>
      match trimEnd s' with
      | EmptyString => if is_space c then EmptyString else String c EmptyString
      | t => String c t
      end
  end.

Definition trim (s : string) : string := trimEnd (trimStart s).

(** Lower-casing of one code unit below 256: A-Z, and the accented
    capitals U+00C0..U+00DE except the multiplication sign U+00D7. *)
Definition lower_char (c : ascii) : ascii :=
  let n := nat_of_ascii c in
  if ((65 <=? n)%nat && (n <=? 90)%nat)
     || ((192 <=? n)%nat && (n <=? 222)%nat && negb (n =? 215)%nat)
  then ascii_of_nat (n + 32) else c.

Fixpoint toLowerCase (s : string) : string :=
  match s with
  | EmptyString => EmptyString
  | String c s' => String (lower_char c) (toLowerCase s')
  end.

(** Decimal rendering of an integer, as in a template literal. *)
Definition of_Z (z : Z) : string := NilEmpty.string_of_int (Z.to_int z).

End Str.

(** ** Numbers *)

Inductive number : Type :=
| NaN
| Infinity (negative : bool)
| Finite (q : Q).

Module Num.

Definition Qpow2 (k : Z) : Q :=
  if 0 <=? k then inject_Z (2 ^ k) else Qinv (inject_Z (2 ^ (- k))).

Definition Qltb (a b : Q) : bool := negb (Qle_bool b a).

(** [floor (log2 q)] for [q > 0]. *)
Definition ilog2 (q : Q) : Z :=
  let k := Z.log2 (Qnum q) - Z.log2 (Zpos (Qden q)) in
  if Qltb q (Qpow2 k) then k - 1 else k.

(** Nearest integer, ties to even. *)
Definition round_half_even (q : Q) : Z :=
  let f := Qfloor q in
  match Qcompare (Qminus q (inject_Z f)) (1 # 2) with
  | Lt => f
  | Gt => f + 1
  | Eq => if Z.even f then f else f + 1
  end.

(** The binary64 nearest to [q] (52 fraction bits, least exponent
    -1022, so that subnormals and underflow to zero are covered); the
    result may exceed the binary64 range, which [of_Q] turns into an
    infinity. *)
Definition nearest (q : Q) : Q :=
  if Qeq_bool q 0 then 0%Q
  else
    let a := Qabs q in
    let e := Z.max (ilog2 a) (-1022) in
    let m := round_half_even (Qmult a (Qpow2 (52 - e))) in
    let r := Qred (Qmult (inject_Z m) (Qpow2 (e - 52))) in
    if Qltb q 0 then Qopp r else r.

Definition of_Q (q : Q) : number :=
  let r := nearest q in
  if Qle_bool (Qpow2 1024) (Qabs r) then Infinity (Qltb r 0) else Finite r.

Definition of_Z (z : Z) : number := of_Q (inject_Z z).

(** [Number.isFinite] on a number. *)
Definition isFinite (x : number) : bool :=
  match x with Finite _ => true | _ => false end.

Definition is_zero (q : Q) : bool := Qeq_bool q 0.

(** [a < b] *)
Definition lt (a b : number) : bool :=
  match a, b with
  | NaN, _ | _, NaN => false
  | Infinity true, Infinity true => false
  | Infinity true, _ => true
  | _, Infinity true => false
  | Infinity false, _ => false
  | _, Infinity false => true
  | Finite x, Finite y => Qltb x y
  end.

(** [a / b] *)
Definition div (a b : number) : number :=
  match a, b with
  | NaN, _ | _, NaN => NaN
  | Infinity _, Infinity _ => NaN
  | Infinity s, Finite y => Infinity (xorb s (Qltb y 0))
  | Finite _, Infinity _ => Finite 0
  | Finite x, Finite y =>
      if is_zero y then
        if is_zero x then NaN else Infinity (Qltb x 0)
      else of_Q (Qdiv x y)
  end.

(** [a % b]: the remainder has the sign of the dividend and is exact. *)
Definition rem (a b : number) : number :=
  match a, b with
  | NaN, _ | _, NaN => NaN
  | Infinity _, _ => NaN
  | Finite x, Infinity _ => Finite x
  | Finite x, Finite y =>
      if is_zero y then NaN
      else
        let t := Qdiv x y in
        let n := if Qltb t 0 then Qceiling t else Qfloor t in
        Finite (Qred (Qminus x (Qmult y (inject_Z n))))
  end.

(** [Math.round]: nearest integer, ties towards positive infinity. *)
Definition round (x : number) : number :=
  match x with
  | Finite q => Finite (inject_Z (Qfloor (Qplus q (1 # 2))))
  | _ => x
  end.

(** [Math.floor] *)
Definition floor (x : number) : number :=
  match x with
  | Finite q => Finite (inject_Z (Qfloor q))
  | _ => x
  end.

(** Ten to the power [k]. *)
Definition Qpow10 (k : Z) : Q :=
  if 0 <=? k then inject_Z (10 ^ k) else Qinv (inject_Z (10 ^ (- k))).

(** The least [m >= n] with [a < 10^m]. *)
Fixpoint exponent_from (fuel : nat) (a : Q) (n : Z) : Z :=
  match fuel with
  | O => n
  | S fuel' => if Qltb a (Qpow10 n) then n else exponent_from fuel' a (n + 1)
  end.

(** The [n] with [10^(n-1) <= a < 10^n], for a positive binary64 [a]
    (they lie between 10^-324 and 10^309). *)
Definition decimal_exponent (a : Q) : Z :=
  if Qltb a 1 then exponent_from 330 a (-330) else exponent_from 310 a 1.

(** The decimal [v] converts to the binary64 [a]. *)
Definition reads_as (v a : Q) : bool :=
  match of_Q v with
  | Finite r => Qeq_bool r a
  | _ => false
  end.

(** The [s] for which [s * 10^(n-k)] converts to [a] and is closest to
    it, the even one of two equally close, if there is one.  Only the
    two multiples of [10^(n-k)] around [a] can convert to it. *)
Definition candidate (a : Q) (n k : Z) : option Z :=
  let scale := Qpow10 (n - k) in
  let f := Qfloor (Qdiv a scale) in
  let lo := Qmult (inject_Z f) scale in
  let hi := Qmult (inject_Z (f + 1)) scale in
  match reads_as lo a, reads_as hi a with
  | true, true =>
      match Qcompare (Qminus a lo) (Qminus hi a) with
      | Lt => Some f
      | Gt => Some (f + 1)
      | Eq => Some (if Z.even f then f else f + 1)
      end
  | true, false => Some f
  | false, true => Some (f + 1)
  | false, false => None
  end.

(** The least number of digits [k], from [k] on, for which there is a
    candidate, and that candidate.  Seventeen digits always suffice. *)
Fixpoint shortest (fuel : nat) (a : Q) (n k : Z) : Z * Z :=
  match fuel with
  | O => (Qfloor (Qdiv a (Qpow10 (n - k))), k)
  | S fuel' =>
      match candidate a n k with
      | Some s => (s, k)
      | None => shortest fuel' a n (k + 1)
      end
  end.

Fixpoint zeros (n : nat) : string :=
  match n with
  | O => EmptyString
  | S n' => String "0" (zeros n')
  end.

(** The notation of [s * 10^(n-k)], [s] having [k] digits: plain up to
    21 integer digits and down to 6 zeros after the point, with an
    exponent otherwise. *)
Definition render (s k n : Z) : string :=
  let digits := Str.of_Z s in
  let e := n - 1 in
  let sign := if e <? 0 then "-" else "+" in
  let exponent := (sign ++ Str.of_Z (Z.abs e))%string in
  let integral := (k <=? n) && (n <=? 21) in
  let fractional := (0 <? n) && (n <=? 21) in
  let small := (-6 <? n) && (n <=? 0) in
  let single := k =? 1 in
  let n' := Z.to_nat n in
  let k' := Z.to_nat k in
  if integral then (digits ++ zeros (n' - k'))%string
  else if fractional
  then (substring 0 n' digits ++ "." ++ substring n' (k' - n') digits)%string
  else if small then ("0." ++ zeros (Z.to_nat (- n)) ++ digits)%string
  else if single then (digits ++ "e" ++ exponent)%string
  else (substring 0 1 digits ++ "." ++ substring 1 (k' - 1) digits ++
        "e" ++ exponent)%string.

(** The shortest decimal that converts to the positive binary64 [a],
    the closest one among the shortest. *)
Definition shortest_decimal (a : Q) : string :=
  let n := decimal_exponent a in
  let '(s, k) := shortest 17 a n 1 in
  let carried := s =? 10 ^ k in
  if carried then render 1 1 (n + 1) else render s k n.

(** Conversion to a string in a template literal ([Number::toString]):
    [0] for zero, otherwise the shortest decimal that converts back to
    the number, after the sign. *)
Definition toString (x : number) : string :=
  match x with
  | NaN => "NaN"
  | Infinity false => "Infinity"
  | Infinity true => "-Infinity"
  | Finite q =>
      let sign := if Qltb q 0 then "-" else "" in
      if is_zero q then "0" else (sign ++ shortest_decimal (Qabs q))%string
  end.

(** [x.toFixed(1)]: the closest multiple of one tenth of the exact
    value, the larger one on a tie, with all its digits; from 10^21 on
    the notation of [toString]. *)
Definition toFixed1 (x : number) : string :=
  match x with
  | Finite q =>
      let n := Qfloor (Qplus (Qmult (Qabs q) 10) (1 # 2)) in
      let sign := if Qltb q 0 then "-" else "" in
      let units := n / 10 in
      let tenth := n mod 10 in
      if Qle_bool (Qpow10 21) (Qabs q) then toString x
      else (sign ++ Str.of_Z units ++ "." ++ Str.of_Z tenth)%string
  | _ => toString x
  end.

End Num.

(** ** Unit formatter *)

Definition formatDuration (seconds : number) : string :=
  let mins := Num.round (Num.div seconds (Num.of_Z 60)) in
  if Num.lt mins (Num.of_Z 60)
  then (Num.toString mins ++ " mins")%string
  else (Num.toString (Num.floor (Num.div mins (Num.of_Z 60))) ++ " hr " ++
        Num.toString (Num.rem mins (Num.of_Z 60)) ++ " mins")%string.

Definition formatDistance (meters : number) : string :=
  if Num.lt meters (Num.of_Z 1000)
  then (Num.toString meters ++ " m")%string
  else (Num.toFixed1 (Num.div meters (Num.of_Z 1000)) ++ " km")%string.

(** ** Numeric parsing *)

Module Parse.

Definition digit_of (radix : Z) (c : ascii) : option Z :=
  let n := Z.of_nat (nat_of_ascii c) in
  let d := if (48 <=? n) && (n <=? 57) then n - 48
           else if (97 <=? n) && (n <=? 122) then n - 87
           else if (65 <=? n) && (n <=? 90) then n - 55
           else radix in
  if d <? radix then Some d else None.

(** The longest run of digits in front of [s]: its value on top of
    [acc], the number of digits read on top of [n], and the rest. *)
Fixpoint scan_digits (radix : Z) (s : string) (acc : Z) (n : nat)
  : Z * nat * string :=
  match s with
  | String c s' =>
      match digit_of radix c with
      | Some d => scan_digits radix s' (acc * radix + d) (S n)
      | None => (acc, n, s)
      end
  | EmptyString => (acc, n, s)
  end.

Definition scan_sign (s : string) : bool * string :=
  match s with
  | String "-" s' => (true, s')
  | String "+" s' => (false, s')
  | _ => (false, s)
  end.

Definition has_prefix2 (a b : ascii) (s : string) : option string :=
  match s with
  | String "0" (String c s') =>
      if Ascii.eqb c a || Ascii.eqb c b then Some s' else None
  | _ => None
  end.

(** [parseInt(s)] without a radix. *)
Definition parseInt (s : string) : number :=
  let '(neg, s1) := scan_sign (Str.trimStart s) in
  let '(radix, s2) :=
    match has_prefix2 "x" "X" s1 with
    | Some s' => (16, s')
    | None => (10, s1)
    end in
  let '(acc, n, _) := scan_digits radix s2 0 0 in
  match n with
  | O => NaN
  | _ => Num.of_Z (if neg then - acc else acc)
  end.

Definition pow10 (q : Q) (e : Z) : Q :=
  if 0 <=? e then Qmult q (inject_Z (10 ^ e))
  else Qdiv q (inject_Z (10 ^ (- e))).

(** The optional exponent part in front of [s]; nothing is consumed
    when no digit follows the letter and the sign. *)
Definition scan_exponent (s : string) : Z * string :=
  match s with
  | String c s' =>
      if Ascii.eqb c "e" || Ascii.eqb c "E" then
        let '(neg, s1) := scan_sign s' in
        let '(x, n, s2) := scan_digits 10 s1 0 0 in
        match n with
        | O => (0, s)
        | _ => (if neg then - x else x, s2)
        end
      else (0, s)
  | EmptyString => (0, s)
  end.

(** The longest signed decimal literal in front of [s] (with
    [Infinity] among the literals), and the rest. *)
Definition scan_decimal (s : string) : option (number * string) :=
  let '(neg, s1) := scan_sign s in
  if String.prefix "Infinity" s1 then Some (Infinity neg, Str.drop 8 s1)
  else
    let '(i, ni, s2) := scan_digits 10 s1 0 0 in
    let '(m, nf, s3) :=
      match s2 with
      | String "." s' =>
          let '(m, nf, s3) := scan_digits 10 s' i 0 in
          match ni, nf with
          | O, O => (i, O, s2)
          | _, _ => (m, nf, s3)
          end
      | _ => (i, O, s2)
      end in
    match ni, nf with
    | O, O => None
    | _, _ =>
        let '(e, s4) := scan_exponent s3 in
        let q := pow10 (inject_Z (if neg then - m else m)) (e - Z.of_nat nf) in
        Some (Num.of_Q q, s4)
    end.

(** [parseFloat(s)] *)
Definition parseFloat (s : string) : number :=
  match scan_decimal (Str.trimStart s) with
  | Some (x, _) => x
  | None => NaN
  end.

Definition radix_literal (radix : Z) (s : string) : number :=
  match scan_digits radix s 0 0 with
  | (_, O, _) => NaN
  | (v, _, EmptyString) => Num.of_Z v
  | _ => NaN
  end.

(** [Number(s)] on a string. *)
Definition Number (s : string) : number :=
  let t := Str.trim s in
  match t with
  | EmptyString => Finite 0
  | _ =>
      match has_prefix2 "x" "X" t, has_prefix2 "o" "O" t, has_prefix2 "b" "B" t with
      | Some r, _, _ => radix_literal 16 r
      | _, Some r, _ => radix_literal 8 r
      | _, _, Some r => radix_literal 2 r
      | None, None, None =>
          match scan_decimal t with
          | Some (x, EmptyString) => x
          | _ => NaN
          end
      end
  end.

End Parse.

(** ** Dynamically typed data *)

#[warnings="-register-all"]
Inductive value : Type :=
| VUndefined
| VNull
| VBool (b : bool)
| VNum (n : number)
| VStr (s : string)
| VArr (items : list value)
| VObj (fields : list (string * value)).

Inductive exn : Type :=
| TypeError (what : string)
| Rejected (reason : string).

(** [error.message]; the text of a [TypeError] is chosen by the
    engine and is kept abstract as the name of the offending access. *)
Definition message (e : exn) : string :=
  match e with
  | TypeError what => what
  | Rejected reason => reason
  end.

Inductive js (A : Type) : Type :=
| Ok (a : A)
| Throw (e : exn).
Arguments Ok {A} a.
Arguments Throw {A} e.

Definition bind {A B : Type} (m : js A) (k : A -> js B) : js B :=
  match m with
  | Ok a => k a
  | Throw e => Throw e
  end.

Notation "'let*' x ':=' m 'in' k" := (bind m (fun x => k))
  (at level 10, x name, m at level 100, k at level 200).

Module Js.

(** ToBoolean *)
Definition truthy (v : value) : bool :=
  match v with
  | VUndefined | VNull => false
  | VBool b => b
  | VNum NaN => false
  | VNum (Infinity _) => true
  | VNum (Finite q) => negb (Num.is_zero q)
  | VStr EmptyString => false
  | VStr _ => true
  | VArr _ | VObj _ => true
  end.

(** [a || b] *)
Definition or_ (a b : value) : value := if truthy a then a else b.

Fixpoint lookup (k : string) (fields : list (string * value)) : value :=
  match fields with
  | [] => VUndefined
  | (k', v) :: rest => if String.eqb k k' then v else lookup k rest
  end.

(** [v.k], for the property names this program reads from upstream
    data; none of them is a property of a primitive or of an array. *)
Definition get (v : value) (k : string) : js value :=
  match v with
  | VUndefined | VNull => Throw (TypeError k)
  | VObj fields => Ok (lookup k fields)
  | _ => Ok VUndefined
  end.

(** [v?.k] *)
Definition get_opt (v : value) (k : string) : js value :=
  match v with
  | VUndefined | VNull => Ok VUndefined
  | _ => get v k
  end.

(** [v.includes(s)] with a string argument: substring test on a
    string, membership on an array, no such method elsewhere. *)
Definition includes (v : value) (s : string) : js bool :=
  match v with
  | VStr t => Ok (Str.includes t s)
  | VArr items =>
      Ok (existsb (fun x => match x with
                            | VStr t => String.eqb t s
                            | _ => false
                            end) items)
  | _ => Throw (TypeError "includes")
  end.

(** [l.some(f)]: stops at the first element accepted. *)
Fixpoint some_ {A : Type} (f : A -> js bool) (l : list A) : js bool :=
  match l with
  | [] => Ok false
  | x :: rest =>
      let* b := f x in
      if b then Ok true else some_ f rest
  end.

(** [v.some(f)] *)
Definition some (v : value) (f : value -> js bool) : js bool :=
  match v with
  | VArr items => some_ f items
  | _ => Throw (TypeError "some")
  end.

(** [l.filter(f)] *)
Fixpoint filter_ {A : Type} (f : A -> js bool) (l : list A) : js (list A) :=
  match l with
  | [] => Ok []
  | x :: rest =>
      let* b := f x in
      let* r := filter_ f rest in
      Ok (if b then x :: r else r)
  end.

(** [l.map(f)] *)
Fixpoint map_ {A B : Type} (f : A -> js B) (l : list A) : js (list B) :=
  match l with
  | [] => Ok []
  | x :: rest =>
      let* y := f x in
      let* r := map_ f rest in
      Ok (y :: r)
  end.

(** [v.toLowerCase()] *)
Definition toLowerCase (v : value) : js string :=
  match v with
  | VStr s => Ok (Str.toLowerCase s)
  | _ => Throw (TypeError "toLowerCase")
  end.

(** [v.replace(pat, '')] *)
Definition replace (v : value) (pat : string) : js string :=
  match v with
  | VStr s => Ok (Str.remove_first pat s)
  | _ => Throw (TypeError "replace")
  end.

End Js.

(** ** Nightlife classifier

    The callback of [data.places.filter] in the nearby search. *)

Definition barTypes : list string :=
  ["bar"; "night_club"; "pub"; "wine_bar"; "cocktail_bar"; "lounge"].

Definition isNightlifeVenue (place : value) : js bool :=
  let* pt := Js.get place "primaryType" in
  let primaryType := Js.or_ pt (VStr "") in
  let* ty := Js.get place "types" in
  let types := Js.or_ ty (VArr []) in
  let* dn := Js.get place "displayName" in
  let* tx := Js.get_opt dn "text" in
  let* name := Js.toLowerCase (Js.or_ tx (VStr "")) in
  Js.some_ (fun bt =>
    let* b1 := Js.includes primaryType bt in
    if b1 then Ok true else
    let* b2 := Js.some types (fun t =>
      let* c1 := Js.includes t bt in
      if c1 then Ok true else Js.includes t "bar") in
    if b2 then Ok true else
    Ok (Str.includes name "bar" || Str.includes name "lounge" ||
        Str.includes name "club" || Str.includes name "pub")) barTypes.

(** ** Venue normalizer

    The object literal built from a place, which the nearby search
    and the details batch share. *)

Record Venue : Type := {
  place_id : value;
  name : value;
  geometry_lat : value;
  geometry_lng : value;
  rating : value;
  user_ratings_total : value;
  price_level : value;
  vicinity : value;
  types : value;
  open_now : value;
  phone : value;
  website : value;
  maps_url : value
}.

Definition normalize (place : value) : js Venue :=
  let* id := Js.get place "id" in
  let* dn := Js.get place "displayName" in
  let* tx := Js.get_opt dn "text" in
  let* loc := Js.get place "location" in
  let* la := Js.get_opt loc "latitude" in
  let* lo := Js.get_opt loc "longitude" in
  let* ra := Js.get place "rating" in
  let* rc := Js.get place "userRatingCount" in
  let* pl := Js.get place "priceLevel" in
  let* price :=
    if Js.truthy pl
    then let* tier := Js.replace pl "PRICE_LEVEL_" in
         Ok (VNum (Parse.parseInt tier))
    else Ok (VNum (Num.of_Z 3)) in
  let* fa := Js.get place "formattedAddress" in
  let* ty := Js.get place "types" in
  let* oh := Js.get place "currentOpeningHours" in
  let* op := Js.get_opt oh "openNow" in
  let* ph := Js.get place "internationalPhoneNumber" in
  let* ws := Js.get place "websiteUri" in
  let* mu := Js.get place "googleMapsUri" in
  Ok {| place_id := id;
        name := Js.or_ tx (VStr "Unknown");
        geometry_lat := la;
        geometry_lng := lo;
        rating := Js.or_ ra (VNum (Num.of_Z 0));
        user_ratings_total := Js.or_ rc (VNum (Num.of_Z 0));
        price_level := price;
        vicinity := Js.or_ fa (VStr "");
        types := Js.or_ ty (VArr []);
        open_now := op;
        phone := Js.or_ ph VNull;
        website := Js.or_ ws VNull;
        maps_url := Js.or_ mu VNull |}.

(** ** Upstream calls *)

(** The body of a routing response, at the types of the requested
    field mask; every field may be absent. *)
Record Leg : Type := {
  duration : option string;
  distanceMeters : option Z
}.

Record Route : Type := {
  legs : option (list Leg);
  encodedPolyline : option string
}.

Record RoutesData : Type := {
  routes : option (list Route);
  routes_error : value
}.

Record LatLng : Type := { lat : number; lng : number }.

(** [{ location: { latLng: { latitude, longitude } } }]; [None] is
    [undefined]. *)
Record Waypoint : Type := {
  latitude : option number;
  longitude : option number
}.

(** The two kinds of JSON body the upstream answers with. *)
Inductive kind : Type := Json | Routing.

Definition body_of (k : kind) : Type :=
  match k with
  | Json => value
  | Routing => RoutesData
  end.

(** The calls to the upstream, indexed by the kind of body they are
    answered with.  The credential sent along is left out. *)
Inductive request : kind -> Type :=
| GeocodeRequest (address : string) : request Json
| SearchTextRequest (textQuery : string) (center_lat center_lng radius : number)
  : request Json
| PlaceRequest (placeId : string) : request Json
| RoutesRequest (origin destination : Waypoint)
                (intermediates : option (list Waypoint)) : request Routing.

(** What [fetch] resolves to; [json] is the outcome of
    [response.json()]. *)
Record Response (A : Type) : Type := {
  ok : bool;
  status : Z;
  json : js A
}.
Arguments ok {A} r.
Arguments status {A} r.
Arguments json {A} r.

(** A handler: it answers, or calls the upstream and goes on with
    what [await fetch(...)] gives, a response or a rejection. *)
Inductive io (R : Type) : Type :=
| Ret (r : R)
| Fetch {b : kind} (rq : request b) (k : js (Response (body_of b)) -> io R).
Arguments Ret {R} r.
Arguments Fetch {R b} rq k.

(** [Promise.all(ids.map(async id => ... await fetch(...) ...))]:
    every call is issued, in the order of the list, and the outcomes
    are joined by position. *)
Fixpoint fetch_all {b : kind} {R : Type} (rqs : list (request b))
    (k : list (js (Response (body_of b))) -> io R) : io R :=
  match rqs with
  | [] => k []
  | rq :: rest => Fetch rq (fun o => fetch_all rest (fun os => k (o :: os)))
  end.

(** The upstream as an oracle: the outcome of the [n]-th call. *)
Definition upstream : Type :=
  forall b : kind, nat -> request b -> js (Response (body_of b)).

Definition call : Type := { b : kind & request b }.

(** Running a handler against an upstream: the answer and the calls
    issued. *)
Fixpoint run {R : Type} (u : upstream) (n : nat) (p : io R) : R * list call :=
  match p with
  | Ret r => (r, [])
  | Fetch rq k =>
      let '(r, log) := run u (S n) (k (u _ n rq)) in
      (r, existT _ rq :: log)
  end.

(** ** Answers of the gateway *)

Record RouteLeg : Type := {
  duration_value : number;
  duration_text : string;
  distance_value : number;
  distance_text : string
}.

Record RouteOut : Type := {
  out_legs : list RouteLeg;
  overview_polyline : string
}.

(** The JSON bodies the handlers send.  A key whose value is
    [VUndefined] is a key that is not sent. *)
Inductive body : Type :=
| Error (msg : string)
| Passthrough (data : value)
| Places (results : list Venue) (status : string) (error : value)
| Routes (routes : list RouteOut) (error : value).

Inductive reply : Type := Reply (code : Z) (content : body).

(** The [catch] of every handler. *)
Definition catch (m : js reply) : reply :=
  match m with
  | Ok r => r
  | Throw e => Reply 500 (Error (message e))
  end.

(** [!GOOGLE_API_KEY] *)
Definition configured (key : option string) : bool :=
  match key with
  | Some (String _ _) => true
  | _ => false
  end.

Definition not_configured : reply := Reply 500 (Error "API key not configured").

(** A query parameter is a string or is absent; [String(x)] of an
    absent one reads [undefined]. *)
Definition param_string (x : option string) : string :=
  match x with
  | Some s => s
  | None => "undefined"
  end.

Definition param_truthy (x : option string) : bool :=
  match x with
  | Some (String _ _) => true
  | _ => false
  end.

(** ** Route legs *)

(** [parseInt(leg.duration?.replace('s', '') || 0)] *)
Definition leg_seconds (leg : Leg) : number :=
  match duration leg with
  | Some d =>
      match Str.remove_first "s" d with
      | EmptyString => Parse.parseInt (Num.toString (Num.of_Z 0))
      | t => Parse.parseInt t
      end
  | None => Parse.parseInt (Num.toString (Num.of_Z 0))
  end.

(** [leg.distanceMeters || 0] *)
Definition leg_meters (leg : Leg) : number :=
  match distanceMeters leg with
  | Some m => Num.of_Z m
  | None => Num.of_Z 0
  end.

Definition route_leg (leg : Leg) : RouteLeg :=
  {| duration_value := leg_seconds leg;
     duration_text := formatDuration (leg_seconds leg);
     distance_value := leg_meters leg;
     distance_text := formatDistance (leg_meters leg) |}.

(** The branch on [data.routes?.length > 0] of the directions
    handler, shared by both variants. *)
Definition routes_reply (data : RoutesData) : js reply :=
  match routes data with
  | Some (route :: _) =>
      match legs route with
      | Some ls =>
          Ok (Reply 200 (Routes
            [{| out_legs := map route_leg ls;
                overview_polyline := default "" (encodedPolyline route) |}]
            VUndefined))
      | None => Throw (TypeError "map")
      end
  | _ => Ok (Reply 200 (Routes [] (routes_error data)))
  end.

(** The branch on [data.places] of the nearby search, shared by both
    variants. *)
Definition places_reply (data : value) : js reply :=
  let* places := Js.get data "places" in
  if Js.truthy places then
    match places with
    | VArr items =>
        let* kept := Js.filter_ isNightlifeVenue items in
        let* results := Js.map_ normalize kept in
        Ok (Reply 200 (Places results "OK" VUndefined))
    | _ => Throw (TypeError "filter")
    end
  else
    let* err := Js.get data "error" in
    Ok (Reply 200 (Places [] (if Js.truthy err then "ERROR" else "ZERO_RESULTS") err)).

Definition upstream_failed (api : string) (st : Z) : reply :=
  Reply 502 (Error (api ++ " API failed with status " ++ Str.of_Z st)).

Definition default_keyword : string := "bar lounge nightclub".

(** [keyword || 'bar lounge nightclub'] *)
Definition textQuery (keyword : option string) : string :=
  if param_truthy keyword then param_string keyword else default_keyword.

(** [results.filter(Boolean)] on the joined lookups, [None] being
    [null]. *)
Definition filter_Boolean {A : Type} (l : list (option A)) : list A := omap id l.

(** ** The hardened server, [src/unnamed/part_000] *)

Module Hardened.

(** [typeof value !== 'string'] gives [null], as an absent or empty
    value does; a value that is not a string has no other effect. *)
Definition parseLatLng (value : option string) : option LatLng :=
  match value with
  | Some (String _ _ as s) =>
      match map Parse.Number (Str.split "," s) with
      | la :: lo :: _ =>
          if negb (Num.isFinite la) || negb (Num.isFinite lo) then None
          else Some {| lat := la; lng := lo |}
      | _ => None
      end
  | _ => None
  end.

(** The message of the 400 answer, which quotes [lat,lng]. *)
Definition bad_endpoints : string :=
  let q := String (ascii_of_nat 34) EmptyString in
  ("origin and destination must be " ++ q ++ "lat,lng" ++ q)%string.

Definition waypoint (p : LatLng) : Waypoint :=
  {| latitude := Some (lat p); longitude := Some (lng p) |}.

(** The handler tests [typeof address !== 'string']: its parameter is
    taken as the framework gives it, absent ([VUndefined]), a string,
    or an array or an object when the parameter is repeated or written
    with brackets. *)
Definition geocode (key : option string) (address : value) : io reply :=
  if negb (configured key) then Ret not_configured
  else
    match address with
    | VStr s =>
        if negb (Js.truthy address) || negb (Js.truthy (VStr (Str.trim s)))
        then Ret (Reply 400 (Error "address is required"))
        else
          Fetch (GeocodeRequest s) (fun o =>
            Ret (catch (
              let* response := o in
              if negb (ok response)
              then Ok (upstream_failed "Geocode" (status response))
              else let* data := json response in
                   Ok (Reply 200 (Passthrough data)))))
    | _ => Ret (Reply 400 (Error "address is required"))
    end.

Definition places_nearby (key lat lng radius keyword : option string) : io reply :=
  if negb (configured key) then Ret not_configured
  else
    let latitude := Parse.parseFloat (param_string lat) in
    let longitude := Parse.parseFloat (param_string lng) in
    let searchRadius := Parse.parseFloat (param_string radius) in
    if negb (Num.isFinite latitude) || negb (Num.isFinite longitude)
    then Ret (Reply 400 (Error "lat and lng must be valid numbers"))
    else
      Fetch (SearchTextRequest (textQuery keyword) latitude longitude
               (if Num.isFinite searchRadius && Num.lt (Num.of_Z 0) searchRadius
                then searchRadius else Num.of_Z 5000))
        (fun o =>
          Ret (catch (
            let* response := o in
            if negb (ok response)
            then Ok (upstream_failed "Places" (status response))
            else let* data := json response in
                 places_reply data))).

(** [ids.split(',').map(id => id.trim()).filter(Boolean).slice(0, 10)] *)
Definition placeIds (ids : string) : list string :=
  take 10 (List.filter (fun id => param_truthy (Some id))
             (map Str.trim (Str.split "," ids))).

(** One lookup of the batch, from what its [fetch] gave; [None] is
    [null]. *)
Definition lookup (o : js (Response value)) : js (option Venue) :=
  let* response := o in
  if negb (ok response) then Ok None
  else
    let* place := json response in
    let* err := Js.get place "error" in
    if Js.truthy err then Ok None
    else let* v := normalize place in Ok (Some v).

(** When several lookups raise, [Promise.all] rejects with the
    rejection that settles first, which is for the upstream to decide;
    the first one in the order of the list stands for it here.  Only
    the message of the 500 answer depends on that choice, and the
    properties below leave the message open. *)
Definition places_details (key ids : option string) : io reply :=
  if negb (configured key) then Ret not_configured
  else if negb (param_truthy ids)
  then Ret (Reply 400 (Error "Missing ids parameter"))
  else
    let placeIds := placeIds (param_string ids) in
    match placeIds with
    | [] => Ret (Reply 400 (Error "No valid ids provided"))
    | _ =>
        fetch_all (map PlaceRequest placeIds) (fun os =>
          Ret (catch (
            let* results := Js.map_ lookup os in
            Ok (Reply 200 (Places (filter_Boolean results) "OK" VUndefined)))))
    end.

(** [waypoints.split('|').map(parseLatLng).filter(Boolean).slice(0, 8)] *)
Definition parsedWaypoints (waypoints : string) : list LatLng :=
  take 8 (filter_Boolean (map (fun s => parseLatLng (Some s))
                              (Str.split "|" waypoints))).

Definition intermediates (waypoints : option string) : option (list Waypoint) :=
  if param_truthy waypoints then
    match parsedWaypoints (param_string waypoints) with
    | [] => None
    | wps => Some (map waypoint wps)
    end
  else None.

Definition directions (key origin destination waypoints : option string)
  : io reply :=
  if negb (configured key) then Ret not_configured
  else
    match parseLatLng origin, parseLatLng destination with
    | Some parsedOrigin, Some parsedDestination =>
        Fetch (RoutesRequest (waypoint parsedOrigin) (waypoint parsedDestination)
                 (intermediates waypoints))
          (fun o =>
            Ret (catch (
              let* response := o in
              if negb (ok response)
              then Ok (upstream_failed "Routes" (status response))
              else let* data := json response in
                   routes_reply data)))
    | _, _ => Ret (Reply 400 (Error bad_endpoints))
    end.

End Hardened.

(** ** The plain server, [src/server.js] *)

Module Server.

Definition geocode (key address : option string) : io reply :=
  if negb (configured key) then Ret not_configured
  else
    Fetch (GeocodeRequest (param_string address)) (fun o =>
      Ret (catch (
        let* response := o in
        let* data := json response in
        Ok (Reply 200 (Passthrough data))))).

(** [parseFloat(radius) || 5000.0] *)
Definition radius_or_default (radius : option string) : number :=
  let r := Parse.parseFloat (param_string radius) in
  if Js.truthy (VNum r) then r else Num.of_Z 5000.

Definition places_nearby (key lat lng radius keyword : option string) : io reply :=
  if negb (configured key) then Ret not_configured
  else
    Fetch (SearchTextRequest (textQuery keyword)
             (Parse.parseFloat (param_string lat))
             (Parse.parseFloat (param_string lng))
             (radius_or_default radius))
      (fun o =>
        Ret (catch (
          let* response := o in
          let* data := json response in
          places_reply data))).

(** [ids.split(',').slice(0, 10)] *)
Definition placeIds (ids : string) : list string :=
  take 10 (Str.split "," ids).

(** As in the hardened server, the first lookup of the list that
    raises stands for the one that settles first. *)
Definition lookup (o : js (Response value)) : js (option Venue) :=
  let* response := o in
  let* place := json response in
  let* err := Js.get place "error" in
  if Js.truthy err then Ok None
  else let* v := normalize place in Ok (Some v).

Definition places_details (key ids : option string) : io reply :=
  if negb (configured key) then Ret not_configured
  else if negb (param_truthy ids)
  then Ret (Reply 400 (Error "Missing ids parameter"))
  else
    fetch_all (map PlaceRequest (placeIds (param_string ids))) (fun os =>
      Ret (catch (
        let* results := Js.map_ lookup os in
        Ok (Reply 200 (Places (filter_Boolean results) "OK" VUndefined))))).

(** [const [lat, lng] = s.split(',').map(Number)], as sent upstream. *)
Definition split_pair (s : string) : Waypoint :=
  let l := map Parse.Number (Str.split "," s) in
  {| latitude := l !! 0%nat; longitude := l !! 1%nat |}.

Definition intermediates (waypoints : option string) : option (list Waypoint) :=
  if param_truthy waypoints
  then Some (map split_pair (Str.split "|" (param_string waypoints)))
  else None.

Definition directions (key origin destination waypoints : option string)
  : io reply :=
  if negb (configured key) then Ret not_configured
  else
    match origin, destination with
    | Some o, Some d =>
        Fetch (RoutesRequest (split_pair o) (split_pair d) (intermediates waypoints))
          (fun o =>
            Ret (catch (
              let* response := o in
              let* data := json response in
              routes_reply data)))
    | _, _ => Ret (Reply 500 (Error (message (TypeError "split"))))
    end.

End Server.

(** ** Vocabulary of the specification *)

(** A well-formed upstream place record: a JSON object in which every
    field of the upstream interface is absent or has its declared
    type.  Other fields are free. *)
Module Shape.

Definition is_string (v : value) : bool :=
  match v with VStr _ => true | _ => false end.

Definition is_number (v : value) : bool :=
  match v with VNum _ => true | _ => false end.

Definition is_bool (v : value) : bool :=
  match v with VBool _ => true | _ => false end.

Definition is_string_array (v : value) : bool :=
  match v with VArr items => forallb is_string items | _ => false end.

Definition optional (P : value -> bool) (v : value) : bool :=
  match v with VUndefined => true | _ => P v end.

Definition is_object_with (checks : list (string * (value -> bool)))
    (v : value) : bool :=
  match v with
  | VObj fields =>
      forallb (fun c => optional (snd c) (Js.lookup (fst c) fields)) checks
  | _ => false
  end.

Definition place_fields : list (string * (value -> bool)) :=
  [ ("id", is_string);
    ("displayName", is_object_with [("text", is_string)]);
    ("formattedAddress", is_string);
    ("location", is_object_with [("latitude", is_number); ("longitude", is_number)]);
    ("rating", is_number);
    ("userRatingCount", is_number);
    ("priceLevel", is_string);
    ("currentOpeningHours", is_object_with [("openNow", is_bool)]);
    ("types", is_string_array);
    ("primaryType", is_string);
    ("internationalPhoneNumber", is_string);
    ("websiteUri", is_string);
    ("googleMapsUri", is_string) ].

Definition well_formed (place : value) : bool :=
  is_object_with place_fields place.

End Shape.

(** The minimal record: an identifier and nothing else. *)
Definition minimal_place (id : string) : value := VObj [("id", VStr id)].

(** The price tier a place is normalized to. *)
Definition priceLevel_of (place : value) : js value :=
  let* v := normalize place in Ok (price_level v).

(** A tier token as the upstream interface names the tier [k]. *)
Definition tier_token (k : Z) : string := ("PRICE_LEVEL_" ++ Str.of_Z k)%string.

(** The classifier in the words of the specification. *)
Definition keywords : list string :=
  ["bar"; "night_club"; "pub"; "wine_bar"; "cocktail_bar"; "lounge"].

Definition string_of (v : value) : option string :=
  match v with VStr s => Some s | _ => None end.

Definition field (k : string) (place : value) : value :=
  match place with VObj fields => Js.lookup k fields | _ => VUndefined end.

(** The primary category, the category tags and the display name of a
    place record; an absent one is empty. *)
Definition primaryCategory (place : value) : string :=
  default "" (string_of (field "primaryType" place)).

Definition categoryTags (place : value) : list string :=
  match field "types" place with
  | VArr items => omap string_of items
  | _ => []
  end.

Definition displayName (place : value) : string :=
  default "" (string_of (field "text" (field "displayName" place))).

Definition contains_keyword (s : string) : Prop :=
  exists kw, In kw keywords /\ Str.includes s kw = true.

Definition Nightlife (place : value) : Prop :=
  contains_keyword (primaryCategory place) \/
  (exists t, In t (categoryTags place) /\
             (contains_keyword t \/ Str.includes t "bar" = true)) \/
  (exists w, In w ["bar"; "lounge"; "club"; "pub"] /\
             Str.includes (Str.toLowerCase (displayName place)) w = true).

(** The classifier on the three readings of a well-formed record. *)
Definition name_matches (n : string) : bool :=
  Str.includes n "bar" || Str.includes n "lounge" ||
  Str.includes n "club" || Str.includes n "pub".

Definition classify (p : string) (tags : list string) (n : string) : bool :=
  existsb (fun bt =>
    Str.includes p bt ||
    existsb (fun t => Str.includes t bt || Str.includes t "bar") tags ||
    name_matches n) barTypes.

(** The records of the three cases the specification lists. *)
Definition named (text : string) (tags : list string) : value :=
  VObj [("displayName", VObj [("text", VStr text)]); ("types", VArr (map VStr tags))].

Definition joes_bar : value :=
  VObj [("displayName", VObj [("text", VStr "Joe's Bar")])].

Definition coffee_house : value := named "Coffee House" ["cafe"].

(** The candidates the classifier keeps. *)
Definition accepts (place : value) : bool :=
  match isNightlifeVenue place with Ok true => true | _ => false end.

(** The outcomes of a batch of calls issued from the [n]-th call on. *)
Fixpoint outcomes {b : kind} (u : upstream) (n : nat) (rqs : list (request b))
  : list (js (Response (body_of b))) :=
  match rqs with
  | [] => []
  | rq :: rest => u b n rq :: outcomes u (S n) rest
  end.

Definition calls {b : kind} (rqs : list (request b)) : list call :=
  map (fun rq => existT b rq) rqs.


(** Upstreams that give every call the same answer. *)
Definition unreachable {A : Type} : js (Response A) := Throw (Rejected "unreachable").

Definition answering (r : Response value) : upstream :=
  fun b _ _ =>
    match b with
    | Json => Ok r
    | Routing => unreachable
    end.

Definition routing (r : Response RoutesData) : upstream :=
  fun b _ _ =>
    match b with
    | Json => unreachable
    | Routing => Ok r
    end.

(** An upstream that is up but answers 503 with an empty JSON object. *)
Definition unavailable : Response value :=
  {| ok := false; status := 503; json := Ok (VObj []) |}.

(** An upstream that finds every place but those of the list
    [missing], for which it answers 404. *)
Definition found (id : string) : Response value :=
  {| ok := true; status := 200; json := Ok (minimal_place id) |}.

Definition not_found : Response value :=
  {| ok := false; status := 404;
     json := Ok (VObj [("error", VObj [("status", VStr "NOT_FOUND")])]) |}.

Definition places_but (missing : list string) : upstream :=
  fun b _ rq =>
    match rq in request b return js (Response (body_of b)) with
    | PlaceRequest id =>
        if existsb (String.eqb id) missing then Ok not_found else Ok (found id)
    | RoutesRequest _ _ _ => unreachable
    | _ => Ok unavailable
    end.

(** A search answer with three candidates, the second of which is
    not a nightlife venue. *)
Definition three_candidates : Response value :=
  {| ok := true; status := 200;
     json := Ok (VObj [("places",
               VArr [joes_bar; coffee_house;
                     VObj [("id", VStr "p3"); ("primaryType", VStr "night_club")]])]) |}.

(** A routing answer without any route, with an error detail. *)
Definition no_route : Response RoutesData :=
  {| ok := true; status := 200;
     json := Ok {| routes := None;
                   routes_error := VObj [("status", VStr "NOT_FOUND")] |} |}.


(** The waypoint list in the words of the specification: split on
    the bar, parse each segment, drop the invalid ones, keep the first
    8. *)
Definition parseCoordinateList (raw : string) : list LatLng :=
  take 8 (omap (fun segment => Hardened.parseLatLng (Some segment))
               (Str.split "|" raw)).




(** ** Cross-origin policy, [src/unnamed/part_000] *)

Module Cors.

(** [(process.env.CORS_ORIGINS || '').split(',').map(origin =>
    origin.trim()).filter(Boolean)] *)
Definition allowedCorsOrigins (CORS_ORIGINS : option string) : list string :=
  List.filter (fun origin => param_truthy (Some origin))
    (map Str.trim
       (Str.split "," (if param_truthy CORS_ORIGINS
                       then param_string CORS_ORIGINS else ""))).

(** The [origin] callback of the policy: [true] is
    [callback(null, true)], [false] is the error [Not allowed by CORS]. *)
Definition origin (allowed : list string) (o : option string) : bool :=
  if negb (param_truthy o) then true
  else if (Nat.eqb (length allowed) 0) || existsb (String.eqb (param_string o)) allowed
  then true
  else false.

End Cors.

(** ** Health check *)

Record Health : Type := {
  health_status : string;
  hasApiKey : bool;
  keyPreview : option string
}.

(** [GET /api/health] of [src/unnamed/part_000]. *)
Definition Hardened_health (key : option string) : Health :=
  {| health_status := "ok"; hasApiKey := configured key; keyPreview := None |}.

(** [GET /api/health] of [src/server.js], which adds
    [GOOGLE_API_KEY.substring(0, 8) + '...']. *)
Definition Server_health (key : option string) : Health :=
  {| health_status := "ok";
     hasApiKey := configured key;
     keyPreview :=
       Some (if configured key
             then (String.substring 0 8 (param_string key) ++ "...")%string
             else "NOT SET") |}.

(** ** Booking links *)

Module Uri.

(** The characters [encodeURIComponent] leaves as they are: letters,
    digits and [- _ . ! ~ * ' ( )]. *)
Definition unreserved (c : ascii) : bool :=
  let n := nat_of_ascii c in
  ((48 <=? n)%nat && (n <=? 57)%nat) ||
  ((65 <=? n)%nat && (n <=? 90)%nat) ||
  ((97 <=? n)%nat && (n <=? 122)%nat) ||
  existsb (Ascii.eqb c) ["-"; "_"; "."; "!"; "~"; "*"; "'"; "("; ")"]%char.

Definition hex_digit (n : nat) : ascii :=
  if (n <? 10)%nat then ascii_of_nat (48 + n) else ascii_of_nat (55 + n).

(** One byte as a percent sign and two upper-case hexadecimal digits. *)
Definition percent (byte : nat) : string :=
  String "%" (String (hex_digit (byte / 16)) (String (hex_digit (byte mod 16)) EmptyString)).

(** A code unit below 128 is one byte of UTF-8, another one below 256
    is two. *)
Definition encode_unit (c : ascii) : string :=
  let n := nat_of_ascii c in
  if unreserved c then String c EmptyString
  else if (n <? 128)%nat then percent n
  else (percent (192 + n / 64) ++ percent (128 + n mod 64))%string.

(** [encodeURIComponent(s)] *)
Fixpoint encodeURIComponent (s : string) : string :=
  match s with
  | EmptyString => EmptyString
  | String c s' => (encode_unit c ++ encodeURIComponent s')%string
  end.

End Uri.

Record BookingLinks : Type := {
  venue : string;
  googleSearchUrl : string;
  sevenroomsUrl : string;
  whatsappMsg : string
}.

Inductive booking_reply : Type :=
| BookingError (code : Z) (msg : string)
| BookingOk (links : BookingLinks).

(** [GET /api/booking/search], the same in both files; it calls no
    upstream and needs no credential. *)
Definition booking_search (name location : option string) : booking_reply :=
  if negb (param_truthy name) then BookingError 400 "Venue name is required"
  else
    let name := param_string name in
    let searchLocation := if param_truthy location then param_string location else "" in
    let searchQuery :=
      match searchLocation with
      | EmptyString => name
      | _ => (name ++ " " ++ searchLocation)%string
      end in
    BookingOk
      {| venue := name;
         googleSearchUrl :=
           ("https://www.google.com/search?q=" ++
            Uri.encodeURIComponent (searchQuery ++ " reservations"))%string;
         sevenroomsUrl :=
           ("https://www.sevenrooms.com/explore/search/" ++
            Uri.encodeURIComponent name)%string;
         whatsappMsg :=
           ("Hi, I'd like to make a reservation at " ++ name ++
            ". Do you have availability?")%string |}.

(** A query parameter as a string, empty when absent. *)
Definition param_or_empty (x : option string) : string :=
  match x with
  | Some s => s
  | None => ""
  end.


(** Success answers of the search: with given candidates, and with
    a given JSON object. *)
Definition candidates (items : list value) : Response value :=
  {| ok := true; status := 200; json := Ok (VObj [("places", VArr items)]) |}.

Definition success (fields : list (string * value)) : Response value :=
  {| ok := true; status := 200; json := Ok (VObj fields) |}.

(** A geocoding answer that is not a success but has a JSON body. *)
Definition denied : Response value :=
  {| ok := false; status := 403; json := Ok (VObj [("status", VStr "REQUEST_DENIED")]) |}.

(** The characters of a string. *)
Definition chars (s : string) : list ascii := list_ascii_of_string s.

(** A routing answer with the given routes. *)
Definition routed (rs : list Route) (err : value) : Response RoutesData :=
  {| ok := true; status := 200; json := Ok {| routes := Some rs; routes_error := err |} |}.

Definition two_legs : Route :=
  {| legs := Some [ {| duration := Some "165s"; distanceMeters := Some 1234 |};
                    {| duration := None; distanceMeters := None |} ];
     encodedPolyline := Some "abc" |}.

Definition no_legs : Route := {| legs := None; encodedPolyline := Some "abc" |}.

(** The value of a run of decimal digits read after [acc]. *)
Fixpoint uint_value (d : Decimal.uint) (acc : Z) : Z :=
  match d with
  | Decimal.Nil => acc
  | Decimal.D0 l => uint_value l (acc * 10 + 0)
  | Decimal.D1 l => uint_value l (acc * 10 + 1)
  | Decimal.D2 l => uint_value l (acc * 10 + 2)
  | Decimal.D3 l => uint_value l (acc * 10 + 3)
  | Decimal.D4 l => uint_value l (acc * 10 + 4)
  | Decimal.D5 l => uint_value l (acc * 10 + 5)
  | Decimal.D6 l => uint_value l (acc * 10 + 6)
  | Decimal.D7 l => uint_value l (acc * 10 + 7)
  | Decimal.D8 l => uint_value l (acc * 10 + 8)
  | Decimal.D9 l => uint_value l (acc * 10 + 9)
  end.

(** An identifier fit to be looked up: not empty, without white
    space around it, without a comma. *)
Definition clean_id (id : string) : Prop :=
  id <> "" /\ Str.trim id = id /\ ~ In ","%char (chars id).

(** A call that looks up a clean identifier. *)
Definition clean_lookup (c : call) : Prop :=
  exists id, c = existT Json (PlaceRequest id) /\ clean_id id.

(** An upstream whose calls are all rejected. *)
Definition offline : upstream := fun b _ _ => Throw (Rejected "fetch failed").

(** An upstream that finds every place but rejects the call for
    [bad]. *)
Definition rejecting (bad : string) : upstream :=
  fun b _ rq =>
    match rq in request b return js (Response (body_of b)) with
    | PlaceRequest id =>
        if String.eqb id bad then Throw (Rejected "fetch failed") else Ok (found id)
    | RoutesRequest _ _ _ => unreachable
    | _ => Ok unavailable
    end.

(** The classifier with the four keywords that no other keyword
    contains, and without the separate test of [bar] on the tags. *)
Definition core_keywords : list string := ["bar"; "night_club"; "pub"; "lounge"].

Definition contains_core_keyword (s : string) : Prop :=
  exists kw, In kw core_keywords /\ Str.includes s kw = true.

Definition Nightlife_core (place : value) : Prop :=
  contains_core_keyword (primaryCategory place) \/
  (exists t, In t (categoryTags place) /\ contains_core_keyword t) \/
  (exists w, In w ["bar"; "lounge"; "club"; "pub"] /\
             Str.includes (Str.toLowerCase (displayName place)) w = true).

(** A place record with the three things the classifier reads and
    some more. *)
Definition rooftop (text : string) (more : list (string * value)) : value :=
  VObj (("displayName", VObj [("text", VStr text)]) ::
        ("types", VArr [VStr "restaurant"; VStr "wine_bar"]) :: more).

(** The characters a link may hold after its fixed part: the
    unreserved ones and the percent sign. *)
Definition link_char (c : ascii) : bool := Uri.unreserved c || Ascii.eqb c "%".

(** Reading a percent-encoded text back: bytes first, then code
    units below 256 from their UTF-8 bytes. *)
Module Decode.

Definition hex_value (c : ascii) : nat :=
  let n := nat_of_ascii c in
  if (n <? 58)%nat then n - 48 else n - 55.

Fixpoint bytes (s : string) : list nat :=
  match s with
  | EmptyString => []
  | String "%" (String a (String b rest)) =>
      (16 * hex_value a + hex_value b)%nat :: bytes rest
  | String c rest => nat_of_ascii c :: bytes rest
  end.

Fixpoint units (bs : list nat) : string :=
  match bs with
  | [] => EmptyString
  | b :: rest =>
      if (b <? 128)%nat then String (ascii_of_nat b) (units rest)
      else match rest with
           | b' :: rest' =>
               String (ascii_of_nat ((b - 192) * 64 + (b' - 128))) (units rest')
           | [] => EmptyString
           end
  end.

Definition decode (s : string) : string := units (bytes s).

End Decode.

(** * Properties *)

(** ** Unit formatter: properties *)

(** The renderings of the durations the specification lists, by
    evaluation. *)
Lemma formatDuration_samples :
  map (fun s => formatDuration (Num.of_Z s)) [0; 29; 30; 59; 60; 89; 90; 125; 3540; 3600; 7500]
  = ["0 mins"; "0 mins"; "1 mins"; "1 mins"; "1 mins"; "1 mins"; "2 mins";
     "2 mins"; "59 mins"; "1 hr 0 mins"; "2 hr 5 mins"].
Proof. vm_compute. reflexivity. Qed.

(** The renderings of the distances the specification lists; 1150
    metres shows the binary rounding of [toFixed]. *)
Lemma formatDistance_samples :
  map (fun m => formatDistance (Num.of_Z m)) [0; 999; 1000; 1500; 1150; 1250]
  = ["0 m"; "999 m"; "1.0 km"; "1.5 km"; "1.1 km"; "1.3 km"].
Proof. vm_compute. reflexivity. Qed.

(** Beyond 2^53 a number is printed by its shortest decimal and,
    from 10^21 on, with an exponent; so are the numbers that are not
    integers. *)
Lemma toString_shortest_decimal :
  map (fun z => Num.toString (Num.of_Z z))
    [2 ^ 53; 2 ^ 53 + 2; 2 ^ 64; - 2 ^ 64; 10 ^ 20; 10 ^ 21; 10 ^ 23; 2 ^ 70;
     123456789 * 10 ^ 20]
  = ["9007199254740992"; "9007199254740994"; "18446744073709552000";
     "-18446744073709552000"; "100000000000000000000"; "1e+21"; "1e+23";
     "1.1805916207174113e+21"; "1.23456789e+28"] /\
  map (fun q => Num.toString (Num.of_Q q))
    [1 # 10; 1 # 3; 3 # 2; 1 # 1000000; 1 # 10000000; - 5 # 1000]%Q
  = ["0.1"; "0.3333333333333333"; "1.5"; "0.000001"; "1e-7"; "-0.005"].
Proof. vm_compute. split; reflexivity. Qed.

(** The two formatters on legs beyond 2^53 seconds or metres, and on
    the values that are not finite. *)
Lemma formatters_large_values :
  formatDuration (Num.of_Z (6 * 10 ^ 22)) = "16666666666666666000 hr 40 mins" /\
  formatDuration (Num.of_Z (2 ^ 70)) = "327942116865947600 hr 44 mins" /\
  formatDistance (Num.of_Z (2 ^ 64)) = "18446744073709552.0 km" /\
  formatDistance (Num.of_Z (10 ^ 24)) = "1e+21 km" /\
  formatDuration NaN = "NaN hr NaN mins" /\
  formatDistance NaN = "NaN km".
Proof. vm_compute. repeat split. Qed.

(** C3, as stated, fails: 60 is a number of seconds, one minute, and is
    rendered [1 mins]; so is 125 rendered [2 mins]. *)
Lemma formatDuration_60_is_not_an_hour :
  formatDuration (Num.of_Z 60) = "1 mins" /\
  formatDuration (Num.of_Z 60) <> "1 hr 0 mins" /\
  formatDuration (Num.of_Z 125) <> "2 hr 5 mins".
Proof. vm_compute. repeat split; discriminate. Qed.

(** C3, amended: [formatDuration] takes seconds and rounds them to the
    nearest minute; 0, 59, 60 and 125 seconds are rendered [0 mins],
    [1 mins], [1 mins] and [2 mins], and the renderings [1 hr 0 mins]
    and [2 hr 5 mins] are those of 3600 and 7500 seconds. *)
Theorem formatDuration_seconds :
  formatDuration (Num.of_Z 0) = "0 mins" /\
  formatDuration (Num.of_Z 59) = "1 mins" /\
  formatDuration (Num.of_Z 60) = "1 mins" /\
  formatDuration (Num.of_Z 125) = "2 mins" /\
  formatDuration (Num.of_Z 3600) = "1 hr 0 mins" /\
  formatDuration (Num.of_Z 7500) = "2 hr 5 mins".
Proof. vm_compute. repeat split. Qed.

(** ** Venue normalizer: properties *)

Lemma get_opt_total (v : value) (k : string) : exists w, Js.get_opt v k = Ok w.
Proof. destruct v; simpl; eauto. Qed.

Lemma forallb_place_field (fields : list (string * value)) (k : string)
    (P : value -> bool) :
  Shape.well_formed (VObj fields) = true ->
  In (k, P) Shape.place_fields ->
  Shape.optional P (Js.lookup k fields) = true.
Proof.
  unfold Shape.well_formed, Shape.is_object_with. intros Hwf Hin.
  rewrite forallb_forall in Hwf. exact (Hwf (k, P) Hin).
Qed.

Lemma well_formed_object (place : value) :
  Shape.well_formed place = true -> exists fields, place = VObj fields.
Proof. destruct place; try discriminate; eauto. Qed.

(** The price tier of a record whose tier is absent, empty or a
    string: it is read without raising. *)
Lemma price_total (pl : value) :
  Shape.optional Shape.is_string pl = true ->
  exists price,
    (if Js.truthy pl
     then let* tier := Js.replace pl "PRICE_LEVEL_" in
          Ok (VNum (Parse.parseInt tier))
     else Ok (VNum (Num.of_Z 3))) = Ok price.
Proof.
  destruct pl as [| | | |s| |]; try discriminate; intros _.
  - simpl. eauto.
  - destruct s; simpl; eauto.
Qed.

Lemma normalize_defined (place : value) :
  Shape.well_formed place = true -> exists v, normalize place = Ok v.
Proof.
  intros Hwf. destruct (well_formed_object _ Hwf) as [fields ->].
  assert (Hpl := forallb_place_field fields "priceLevel" Shape.is_string Hwf).
  destruct (price_total (Js.lookup "priceLevel" fields)) as [price Hprice].
  { apply Hpl. simpl. tauto. }
  unfold normalize. simpl Js.get. cbn [bind].
  destruct (get_opt_total (Js.lookup "displayName" fields) "text") as [tx ->].
  destruct (get_opt_total (Js.lookup "location" fields) "latitude") as [la ->].
  destruct (get_opt_total (Js.lookup "location" fields) "longitude") as [lo ->].
  cbn [bind]. rewrite Hprice. cbn [bind].
  destruct (get_opt_total (Js.lookup "currentOpeningHours" fields) "openNow")
    as [op ->].
  cbn [bind]. eauto.
Qed.

(** C1. The normalizer is total on well-formed place records: it
    returns a Venue and never raises; and the minimal record, an
    identifier alone, yields the documented defaults: name Unknown,
    rating 0, rating count 0, price level 3, empty address and no
    category tags. *)
Theorem normalize_total :
  forall place, Shape.well_formed place = true ->
    (exists v, normalize place = Ok v) /\
    (forall id, place = minimal_place id ->
       exists v, normalize place = Ok v /\
         place_id v = VStr id /\
         name v = VStr "Unknown" /\
         rating v = VNum (Finite 0) /\
         user_ratings_total v = VNum (Finite 0) /\
         price_level v = VNum (Finite 3) /\
         vicinity v = VStr "" /\
         types v = VArr []).
Proof.
  intros place Hwf. split.
  - apply normalize_defined. exact Hwf.
  - intros id ->. eexists. split; [reflexivity|]. repeat split.
Qed.

Lemma normalize_total_witness :
  Shape.well_formed (minimal_place "ChIJ") = true /\
  exists v, normalize (minimal_place "ChIJ") = Ok v /\ name v = VStr "Unknown".
Proof.
  split; [reflexivity|].
  destruct (normalize_total (minimal_place "ChIJ") eq_refl) as [_ H].
  destruct (H "ChIJ" eq_refl) as (v & Hv & _ & Hn & _).
  exists v. split; assumption.
Defined.

(** A record off the upstream interface can make the normalizer raise:
    a numeric price tier has no [replace]. *)
Lemma normalize_raises_on_numeric_tier :
  Shape.well_formed (VObj [("id", VStr "x"); ("priceLevel", VNum (Finite 2))]) = false /\
  normalize (VObj [("id", VStr "x"); ("priceLevel", VNum (Finite 2))])
  = Throw (TypeError "replace").
Proof. split; reflexivity. Qed.

(** ** Price tier: properties *)

Lemma priceLevel_absent (fields : list (string * value)) :
  Js.lookup "priceLevel" fields = VUndefined ->
  Shape.well_formed (VObj fields) = true ->
  priceLevel_of (VObj fields) = Ok (VNum (Finite 3)).
Proof.
  intros Habs Hwf. unfold priceLevel_of, normalize. simpl Js.get. cbn [bind].
  destruct (get_opt_total (Js.lookup "displayName" fields) "text") as [tx ->].
  destruct (get_opt_total (Js.lookup "location" fields) "latitude") as [la ->].
  destruct (get_opt_total (Js.lookup "location" fields) "longitude") as [lo ->].
  cbn [bind]. rewrite Habs. cbn [bind Js.truthy].
  destruct (get_opt_total (Js.lookup "currentOpeningHours" fields) "openNow")
    as [op ->].
  reflexivity.
Qed.

(** What the code makes of a tier token: the integer that [parseInt]
    reads once the first [PRICE_LEVEL_] is removed, with no guard on
    the result. *)
Lemma priceLevel_token (fields : list (string * value)) (c : ascii) (token : string) :
  Js.lookup "priceLevel" fields = VStr (String c token) ->
  priceLevel_of (VObj fields)
  = Ok (VNum (Parse.parseInt (Str.remove_first "PRICE_LEVEL_" (String c token)))).
Proof.
  intros Htok. unfold priceLevel_of, normalize. simpl Js.get. cbn [bind].
  destruct (get_opt_total (Js.lookup "displayName" fields) "text") as [tx ->].
  destruct (get_opt_total (Js.lookup "location" fields) "latitude") as [la ->].
  destruct (get_opt_total (Js.lookup "location" fields) "longitude") as [lo ->].
  cbn [bind]. rewrite Htok. cbn [bind Js.truthy Js.replace].
  destruct (get_opt_total (Js.lookup "currentOpeningHours" fields) "openNow")
    as [op ->].
  reflexivity.
Qed.

(** The tokens the code maps to an integer tier are the prefix
    followed by the digits of the tier. *)
Lemma priceLevel_numbered :
  map (fun k => priceLevel_of (VObj [("id", VStr "x"); ("priceLevel", VStr (tier_token k))]))
      [0; 1; 2; 3; 4]
  = map (fun k => Ok (VNum (Num.of_Z k))) [0; 1; 2; 3; 4].
Proof. vm_compute. reflexivity. Qed.

(** C2, the code at the failing inputs: a symbolic tier token is not
    mapped to 3 but to [NaN], and a numbered token is not kept within
    0-4. *)
Theorem priceLevel_unrecognized_token :
  priceLevel_of (VObj [("id", VStr "x"); ("priceLevel", VStr "PRICE_LEVEL_MODERATE")])
  = Ok (VNum NaN) /\
  priceLevel_of (VObj [("id", VStr "x"); ("priceLevel", VStr "PRICE_LEVEL_9")])
  = Ok (VNum (Finite 9)).
Proof. split; vm_compute; reflexivity. Qed.

(** ** Nightlife classifier: properties *)

Lemma some_pure {A : Type} (f : A -> js bool) (g : A -> bool) (l : list A) :
  (forall x, In x l -> f x = Ok (g x)) -> Js.some_ f l = Ok (existsb g l).
Proof.
  induction l as [|x l IH]; intros H; simpl; [reflexivity|].
  rewrite (H x) by (left; reflexivity). cbn [bind].
  destruct (g x); [reflexivity|]. apply IH. intros y Hy. apply H. right. exact Hy.
Qed.

Lemma string_array_items (items : list value) :
  forallb Shape.is_string items = true -> items = map VStr (omap string_of items).
Proof.
  induction items as [|v items IH]; simpl; [reflexivity|].
  intros H. apply andb_true_iff in H as [Hv Hrest].
  destruct v; try discriminate. simpl. f_equal. apply IH. exact Hrest.
Qed.

(** The three readings the classifier starts with, on a well-formed
    record. *)
Lemma primaryType_read (fields : list (string * value)) :
  Shape.well_formed (VObj fields) = true ->
  Js.or_ (Js.lookup "primaryType" fields) (VStr "")
  = VStr (primaryCategory (VObj fields)).
Proof.
  intros Hwf.
  assert (H := forallb_place_field fields "primaryType" Shape.is_string Hwf).
  unfold primaryCategory, field.
  destruct (Js.lookup "primaryType" fields) as [| | | |s| |];
    try (discriminate H; simpl; tauto); try reflexivity.
  - destruct s; reflexivity.
Qed.

Lemma types_read (fields : list (string * value)) :
  Shape.well_formed (VObj fields) = true ->
  Js.or_ (Js.lookup "types" fields) (VArr [])
  = VArr (map VStr (categoryTags (VObj fields))).
Proof.
  intros Hwf.
  assert (H := forallb_place_field fields "types" Shape.is_string_array Hwf).
  unfold categoryTags, field.
  destruct (Js.lookup "types" fields) as [| | | | |items|];
    try (discriminate H; simpl; tauto); try reflexivity.
  unfold Js.or_. simpl. f_equal. apply string_array_items. apply H. simpl. tauto.
Qed.

Lemma name_read (fields : list (string * value)) :
  Shape.well_formed (VObj fields) = true ->
  (let* tx := Js.get_opt (Js.lookup "displayName" fields) "text" in
   Js.toLowerCase (Js.or_ tx (VStr "")))
  = Ok (Str.toLowerCase (displayName (VObj fields))).
Proof.
  intros Hwf.
  assert (H := forallb_place_field fields "displayName"
                 (Shape.is_object_with [("text", Shape.is_string)]) Hwf).
  unfold displayName. cbn [field].
  destruct (Js.lookup "displayName" fields) as [| | | | | |inner];
    try (discriminate H; simpl; tauto); try reflexivity.
  assert (Ht : Shape.optional Shape.is_string (Js.lookup "text" inner) = true).
  { assert (H' := H ltac:(simpl; tauto)). simpl in H'.
    rewrite andb_true_r in H'. exact H'. }
  simpl. destruct (Js.lookup "text" inner) as [| | | |s| |];
    try discriminate; try reflexivity.
  destruct s; reflexivity.
Qed.

Lemma bind_assoc {A B C : Type} (m : js A) (f : A -> js B) (g : B -> js C) :
  bind (bind m f) g = bind m (fun x => bind (f x) g).
Proof. destruct m; reflexivity. Qed.

Lemma inner_some (tags : list string) (bt : string) :
  Js.some (VArr (map VStr tags)) (fun t =>
    let* c1 := Js.includes t bt in
    if c1 then Ok true else Js.includes t "bar")
  = Ok (existsb (fun t => Str.includes t bt || Str.includes t "bar") tags).
Proof.
  simpl. induction tags as [|t tags IH]; simpl; [reflexivity|].
  destruct (Str.includes t bt); simpl; [reflexivity|].
  destruct (Str.includes t "bar"); simpl; [reflexivity|]. exact IH.
Qed.

Lemma isNightlifeVenue_well_formed (fields : list (string * value)) :
  Shape.well_formed (VObj fields) = true ->
  isNightlifeVenue (VObj fields)
  = Ok (classify (primaryCategory (VObj fields)) (categoryTags (VObj fields))
          (Str.toLowerCase (displayName (VObj fields)))).
Proof.
  intros Hwf. unfold isNightlifeVenue. simpl Js.get. cbn [bind].
  rewrite (primaryType_read fields Hwf), (types_read fields Hwf).
  rewrite <- (bind_assoc (Js.get_opt (Js.lookup "displayName" fields) "text")
                (fun tx => Js.toLowerCase (Js.or_ tx (VStr "")))).
  rewrite (name_read fields Hwf). cbn [bind].
  unfold classify. apply some_pure. intros bt _.
  cbn [Js.includes bind]. rewrite inner_some. cbn [bind].
  destruct (Str.includes (primaryCategory (VObj fields)) bt); [reflexivity|].
  simpl orb.
  destruct (existsb _ (categoryTags (VObj fields))); reflexivity.
Qed.

Lemma name_matches_iff (n : string) :
  name_matches n = true <->
  exists w, In w ["bar"; "lounge"; "club"; "pub"] /\ Str.includes n w = true.
Proof.
  unfold name_matches. rewrite !orb_true_iff. split.
  - intros [[[H|H]|H]|H]; eexists; (split; [|exact H]); simpl; tauto.
  - intros (w & Hin & Hw). simpl in Hin.
    destruct Hin as [<-|[<-|[<-|[<-|[]]]]]; tauto.
Qed.

Lemma classify_iff (p : string) (tags : list string) (n : string) :
  classify p tags n = true <->
  contains_keyword p \/
  (exists t, In t tags /\ (contains_keyword t \/ Str.includes t "bar" = true)) \/
  (exists w, In w ["bar"; "lounge"; "club"; "pub"] /\ Str.includes n w = true).
Proof.
  rewrite <- name_matches_iff. unfold classify, contains_keyword.
  change keywords with barTypes. rewrite existsb_exists. split.
  - intros (bt & Hbt & H). rewrite !orb_true_iff in H.
    destruct H as [[H|H]|H]; [left; eauto | right; left | right; right; exact H].
    apply existsb_exists in H as (t & Ht & H). apply orb_true_iff in H.
    exists t. split; [exact Ht|]. destruct H as [H|H]; eauto.
  - intros [(kw & Hkw & H)|[(t & Ht & H)|H]].
    + exists kw. split; [exact Hkw|]. rewrite H. reflexivity.
    + destruct H as [(kw & Hkw & H)|H].
      * exists kw. split; [exact Hkw|].
        apply orb_true_iff; left. apply orb_true_iff; right.
        apply existsb_exists. exists t. split; [exact Ht|]. rewrite H. reflexivity.
      * exists "bar". split; [simpl; tauto|].
        apply orb_true_iff; left. apply orb_true_iff; right.
        apply existsb_exists. exists t. split; [exact Ht|].
        rewrite H. apply orb_true_r.
    + exists "bar". split; [simpl; tauto|]. rewrite H. apply orb_true_r.
Qed.

(** C4. On a well-formed place record the classifier answers, and it
    accepts exactly when the primary category contains a keyword, or a
    category tag contains a keyword or [bar], or the lower-cased
    display name contains [bar], [lounge], [club] or [pub].  A record
    whose primary category is [night_club] passes whatever its name;
    Joe's Bar without category tags passes; Coffee House tagged [cafe]
    does not. *)
Theorem isNightlifeVenue_spec :
  forall place, Shape.well_formed place = true ->
    (exists b, isNightlifeVenue place = Ok b /\ (b = true <-> Nightlife place)) /\
    (primaryCategory place = "night_club" -> isNightlifeVenue place = Ok true) /\
    isNightlifeVenue joes_bar = Ok true /\
    isNightlifeVenue coffee_house = Ok false.
Proof.
  intros place Hwf. destruct (well_formed_object _ Hwf) as [fields ->].
  rewrite (isNightlifeVenue_well_formed fields Hwf).
  split; [|split; [|split; reflexivity]].
  - eexists. split; [reflexivity|]. apply classify_iff.
  - intros Hp. f_equal. apply classify_iff. left.
    exists "night_club". split; [simpl; tauto|]. rewrite Hp. reflexivity.
Qed.

Lemma isNightlifeVenue_spec_witness :
  Shape.well_formed (VObj [("primaryType", VStr "night_club");
                           ("displayName", VObj [("text", VStr "Quiet Room")])]) = true /\
  isNightlifeVenue (VObj [("primaryType", VStr "night_club");
                          ("displayName", VObj [("text", VStr "Quiet Room")])]) = Ok true.
Proof.
  split; [reflexivity|].
  destruct (isNightlifeVenue_spec
              (VObj [("primaryType", VStr "night_club");
                     ("displayName", VObj [("text", VStr "Quiet Room")])]) eq_refl)
    as (_ & H & _).
  exact (H eq_refl).
Defined.

(** ** Running handlers *)

Lemma run_fetch_all {b : kind} {R : Type} (u : upstream) (rqs : list (request b))
    (k : list (js (Response (body_of b))) -> io R) (n : nat) :
  run u n (fetch_all rqs k)
  = (fst (run u (n + length rqs) (k (outcomes u n rqs))),
     (calls rqs ++ snd (run u (n + length rqs) (k (outcomes u n rqs))))%list).
Proof.
  revert k n. induction rqs as [|rq rqs IH]; intros k n; simpl.
  - rewrite Nat.add_0_r. destruct (run u n (k [])); reflexivity.
  - rewrite IH. simpl. rewrite Nat.add_succ_r. reflexivity.
Qed.

Section Traversals.

Context {A B : Type}.

Lemma filter_pure (f : A -> js bool) (l : list A) :
  Forall (fun x => exists b, f x = Ok b) l ->
  Js.filter_ f l
  = Ok (List.filter (fun x => match f x with Ok true => true | _ => false end) l).
Proof.
  induction 1 as [|x l [b Hb] _ IH]; simpl; [reflexivity|].
  rewrite Hb, IH. cbn [bind]. destruct b; reflexivity.
Qed.

Lemma map_total (f : A -> js B) (l : list A) :
  Forall (fun x => exists y, f x = Ok y) l ->
  exists ys, Js.map_ f l = Ok ys /\ Forall2 (fun x y => f x = Ok y) l ys.
Proof.
  induction 1 as [|x l [y Hy] _ (ys & Hys & IH)]; simpl.
  - exists []. split; [reflexivity|constructor].
  - exists (y :: ys). rewrite Hy, Hys. split; [reflexivity|].
    constructor; assumption.
Qed.

Lemma map_Forall2 (f : A -> js B) (l : list A) (ys : list B) :
  Forall2 (fun x y => f x = Ok y) l ys -> Js.map_ f l = Ok ys.
Proof.
  induction 1 as [|x y l ys Hxy _ IH]; simpl; [reflexivity|].
  rewrite Hxy, IH. reflexivity.
Qed.

Lemma filter_sublist (f : A -> bool) (l : list A) :
  sublist (List.filter f l) l.
Proof.
  induction l as [|x l IH]; simpl; [constructor|].
  destruct (f x); [apply sublist_skip|apply sublist_cons]; exact IH.
Qed.

Lemma filter_Boolean_sublist (l : list (option A)) :
  sublist (map Some (filter_Boolean l)) l.
Proof.
  induction l as [|[x|] l IH]; simpl; [constructor| |].
  - apply sublist_skip. exact IH.
  - apply sublist_cons. exact IH.
Qed.

End Traversals.

(** ** Nearby search: properties *)

Lemma field_array_object (k : string) (data : value) (items : list value) :
  field k data = VArr items -> exists fields, data = VObj fields.
Proof. destruct data; try discriminate; eauto. Qed.

Lemma isNightlifeVenue_defined (place : value) :
  Shape.well_formed place = true -> exists b, isNightlifeVenue place = Ok b.
Proof.
  intros Hwf. destruct (well_formed_object _ Hwf) as [fields ->].
  rewrite (isNightlifeVenue_well_formed fields Hwf). eauto.
Qed.

Lemma Forall_filter {A : Type} (P : A -> Prop) (f : A -> bool) (l : list A) :
  Forall P l -> Forall P (List.filter f l).
Proof.
  induction 1 as [|x l Hx _ IH]; simpl; [constructor|].
  destruct (f x); [constructor|]; assumption.
Qed.

(** The pipeline on a candidate list of well-formed records. *)
Lemma places_reply_candidates (data : value) (items : list value) :
  field "places" data = VArr items ->
  Forall (fun p => Shape.well_formed p = true) items ->
  exists results,
    places_reply data = Ok (Reply 200 (Places results "OK" VUndefined)) /\
    Forall2 (fun p v => normalize p = Ok v) (List.filter accepts items) results.
Proof.
  intros Hplaces Hwf.
  destruct (field_array_object _ _ _ Hplaces) as [fields ->]. simpl in Hplaces.
  unfold places_reply. simpl Js.get. cbn [bind]. rewrite Hplaces. simpl Js.truthy.
  cbv iota. rewrite filter_pure.
  2:{ eapply Forall_impl; [|exact Hwf]. intros p. apply isNightlifeVenue_defined. }
  cbn [bind]. fold accepts.
  destruct (map_total normalize (List.filter accepts items)) as (results & Hmap & Hall).
  { apply Forall_filter. eapply Forall_impl; [|exact Hwf].
    intros p. apply normalize_defined. }
  exists results. fold accepts. rewrite Hmap. split; [reflexivity|exact Hall].
Qed.

(** C5. When the upstream answers the search with a success status
    and a candidate list, the result list of the nearby search is the
    normalization, one for one and in order, of exactly the candidates
    the classifier accepts; and these appear in the order they have in
    the candidate list.  Both variants of the server do so. *)
Theorem nearby_filters_then_normalizes :
  forall (u : upstream) (key lat lng radius keyword : option string)
         (r : Response value) (data : value) (items : list value),
    configured key = true ->
    Num.isFinite (Parse.parseFloat (param_string lat)) = true ->
    Num.isFinite (Parse.parseFloat (param_string lng)) = true ->
    (forall rq, u Json 0%nat rq = Ok r) ->
    ok r = true ->
    json r = Ok data ->
    field "places" data = VArr items ->
    Forall (fun p => Shape.well_formed p = true) items ->
    exists results,
      fst (run u 0 (Hardened.places_nearby key lat lng radius keyword))
      = Reply 200 (Places results "OK" VUndefined) /\
      fst (run u 0 (Server.places_nearby key lat lng radius keyword))
      = Reply 200 (Places results "OK" VUndefined) /\
      Forall2 (fun p v => normalize p = Ok v) (List.filter accepts items) results /\
      sublist (List.filter accepts items) items.
Proof.
  intros u key lat lng radius keyword r data items
         Hkey Hlat Hlng Hu Hok Hjson Hplaces Hwf.
  destruct (places_reply_candidates data items Hplaces Hwf) as (results & Hreply & Hall).
  exists results. repeat split.
  - unfold Hardened.places_nearby. rewrite Hkey, Hlat, Hlng. simpl.
    rewrite Hu. cbn [bind]. rewrite Hok, Hjson. cbn [negb bind].
    rewrite Hreply. reflexivity.
  - unfold Server.places_nearby. rewrite Hkey. simpl.
    rewrite Hu. cbn [bind]. rewrite Hjson. cbn [bind].
    rewrite Hreply. reflexivity.
  - exact Hall.
  - apply filter_sublist.
Qed.

Lemma nearby_filters_then_normalizes_witness :
  exists results,
    fst (run (answering three_candidates) 0
           (Hardened.places_nearby (Some "k") (Some "40.7") (Some "-74.0") None None))
    = Reply 200 (Places results "OK" VUndefined) /\
    length results = 2%nat.
Proof.
  destruct (nearby_filters_then_normalizes (answering three_candidates)
              (Some "k") (Some "40.7") (Some "-74.0") None None three_candidates
              (VObj [("places",
                 VArr [joes_bar; coffee_house;
                       VObj [("id", VStr "p3"); ("primaryType", VStr "night_club")]])])
              [joes_bar; coffee_house;
               VObj [("id", VStr "p3"); ("primaryType", VStr "night_club")]])
    as (results & H1 & _ & H3 & _).
  - reflexivity.
  - vm_compute. reflexivity.
  - vm_compute. reflexivity.
  - intros rq. reflexivity.
  - reflexivity.
  - reflexivity.
  - reflexivity.
  - repeat constructor.
  - exists results. split; [exact H1|].
    apply Forall2_length in H3. rewrite <- H3. reflexivity.
Defined.

(** ** Upstream failures: properties *)

(** The hardened server checks the status of the one call of the
    geocoding, of the nearby search and of the directions: a
    non-success status is answered by 502. *)
Lemma Hardened_upstream_unavailable (u : upstream) (key : option string) :
  configured key = true ->
  (forall (address : string) (r : Response value),
     Str.trim address <> "" ->
     (forall rq, u Json 0%nat rq = Ok r) -> ok r = false ->
     fst (run u 0 (Hardened.geocode key (VStr address)))
     = Reply 502 (Error ("Geocode API failed with status " ++ Str.of_Z (status r)))) /\
  (forall (lat lng radius keyword : option string) (r : Response value),
     Num.isFinite (Parse.parseFloat (param_string lat)) = true ->
     Num.isFinite (Parse.parseFloat (param_string lng)) = true ->
     (forall rq, u Json 0%nat rq = Ok r) -> ok r = false ->
     fst (run u 0 (Hardened.places_nearby key lat lng radius keyword))
     = Reply 502 (Error ("Places API failed with status " ++ Str.of_Z (status r)))) /\
  (forall (origin destination waypoints : option string) (po pd : LatLng)
          (r : Response RoutesData),
     Hardened.parseLatLng origin = Some po ->
     Hardened.parseLatLng destination = Some pd ->
     (forall rq, u Routing 0%nat rq = Ok r) -> ok r = false ->
     fst (run u 0 (Hardened.directions key origin destination waypoints))
     = Reply 502 (Error ("Routes API failed with status " ++ Str.of_Z (status r)))).
Proof.
  intros Hkey. repeat split.
  - intros address r Ht Hu Hok. unfold Hardened.geocode. rewrite Hkey.
    destruct address as [|c a]; [exfalso; apply Ht; reflexivity|].
    destruct (Str.trim (String c a)); [exfalso; apply Ht; reflexivity|].
    simpl. rewrite Hu. cbn [bind]. rewrite Hok. reflexivity.
  - intros lat lng radius keyword r Hlat Hlng Hu Hok. unfold Hardened.places_nearby.
    rewrite Hkey, Hlat, Hlng. simpl. rewrite Hu. cbn [bind]. rewrite Hok. reflexivity.
  - intros origin destination waypoints po pd r Ho Hd Hu Hok.
    unfold Hardened.directions. rewrite Hkey, Ho, Hd. simpl.
    rewrite Hu. cbn [bind]. rewrite Hok. reflexivity.
Qed.

(** The plain server does not look at the status: whatever it is, a
    body without candidates is answered by 200 and an empty list. *)
Lemma Server_nearby_ignores_status (u : upstream)
    (key lat lng radius keyword : option string) (r : Response value)
    (fields : list (string * value)) :
  configured key = true ->
  (forall rq, u Json 0%nat rq = Ok r) ->
  json r = Ok (VObj fields) ->
  Js.truthy (Js.lookup "places" fields) = false ->
  fst (run u 0 (Server.places_nearby key lat lng radius keyword))
  = Reply 200 (Places []
                 (if Js.truthy (Js.lookup "error" fields)
                  then "ERROR" else "ZERO_RESULTS")
                 (Js.lookup "error" fields)).
Proof.
  intros Hkey Hu Hjson Hplaces. unfold Server.places_nearby. rewrite Hkey.
  simpl. rewrite Hu. cbn [bind]. rewrite Hjson. cbn [bind].
  unfold places_reply. cbn [Js.get bind]. rewrite Hplaces. reflexivity.
Qed.

(** In the details batch of the hardened server a lookup with a
    non-success status is dropped: when the only lookup fails the batch
    answers 200 with no result. *)
Lemma Hardened_details_drop_failed_lookup :
  run (places_but ["gone"]) 0 (Hardened.places_details (Some "k") (Some "gone"))
  = (Reply 200 (Places [] "OK" VUndefined), calls [PlaceRequest "gone"]).
Proof. vm_compute. reflexivity. Qed.

(** C7, the plain server at the failing input: the upstream answers the
    search with status 503 and an empty JSON object, and the nearby
    search of [src/server.js], which does not look at the status,
    answers 200 with no result and the status [ZERO_RESULTS]; the
    hardened server answers 502 there. *)
Theorem Server_nearby_reports_failure_as_zero_results :
  run (answering unavailable) 0
    (Server.places_nearby (Some "k") (Some "40.7") (Some "-74.0") None None)
  = (Reply 200 (Places [] "ZERO_RESULTS" VUndefined),
     calls [SearchTextRequest default_keyword
              (Parse.parseFloat "40.7") (Parse.parseFloat "-74.0") (Num.of_Z 5000)]) /\
  fst (run (answering unavailable) 0
         (Hardened.places_nearby (Some "k") (Some "40.7") (Some "-74.0") None None))
  = Reply 502 (Error "Places API failed with status 503").
Proof. split; vm_compute; reflexivity. Qed.

(** ** Directions: properties *)

(** C8. When the upstream answers the routing call with a success
    status and no candidate route, the route list absent or empty, the
    directions answer 200 with an empty route list and the error
    detail of the upstream, whatever it is; they neither raise (500)
    nor report an upstream failure (502).  Both variants of the server
    do so. *)
Theorem directions_no_route :
  forall (u : upstream) (key origin destination waypoints : option string)
         (po pd : LatLng) (r : Response RoutesData) (data : RoutesData),
    configured key = true ->
    Hardened.parseLatLng origin = Some po ->
    Hardened.parseLatLng destination = Some pd ->
    (forall rq, u Routing 0%nat rq = Ok r) ->
    ok r = true ->
    json r = Ok data ->
    routes data = None \/ routes data = Some [] ->
    fst (run u 0 (Hardened.directions key origin destination waypoints))
    = Reply 200 (Routes [] (routes_error data)) /\
    fst (run u 0 (Server.directions key origin destination waypoints))
    = Reply 200 (Routes [] (routes_error data)).
Proof.
  intros u key origin destination waypoints po pd r data
         Hkey Ho Hd Hu Hok Hjson Hroutes.
  assert (Hreply : routes_reply data = Ok (Reply 200 (Routes [] (routes_error data)))).
  { unfold routes_reply. destruct Hroutes as [-> | ->]; reflexivity. }
  split.
  - unfold Hardened.directions. rewrite Hkey, Ho, Hd. simpl.
    rewrite Hu. cbn [bind]. rewrite Hok, Hjson. cbn [negb bind].
    rewrite Hreply. reflexivity.
  - unfold Server.directions. rewrite Hkey. simpl.
    destruct origin as [o|]; [|discriminate Ho].
    destruct destination as [d|]; [|destruct o; discriminate Hd].
    simpl. rewrite Hu. cbn [bind]. rewrite Hjson. cbn [bind].
    rewrite Hreply. reflexivity.
Qed.

Lemma directions_no_route_witness :
  fst (run (routing no_route) 0
         (Hardened.directions (Some "k") (Some "40.7,-74.0") (Some "40.8,-73.9") None))
  = Reply 200 (Routes [] (VObj [("status", VStr "NOT_FOUND")])) /\
  fst (run (routing no_route) 0
         (Server.directions (Some "k") (Some "40.7,-74.0") (Some "40.8,-73.9") None))
  = Reply 200 (Routes [] (VObj [("status", VStr "NOT_FOUND")])).
Proof.
  refine (directions_no_route (routing no_route)
            (Some "k") (Some "40.7,-74.0") (Some "40.8,-73.9") None
            {| lat := Parse.Number "40.7"; lng := Parse.Number "-74.0" |}
            {| lat := Parse.Number "40.8"; lng := Parse.Number "-73.9" |}
            no_route
            {| routes := None; routes_error := VObj [("status", VStr "NOT_FOUND")] |}
            _ _ _ _ _ _ _).
  - reflexivity.
  - vm_compute. reflexivity.
  - vm_compute. reflexivity.
  - intros rq. reflexivity.
  - reflexivity.
  - reflexivity.
  - left. reflexivity.
Defined.

(** ** Waypoints: properties *)

Lemma filter_Boolean_map {A B : Type} (f : A -> option B) (l : list A) :
  filter_Boolean (map f l) = omap f l.
Proof.
  unfold filter_Boolean. induction l as [|x l IH]; [reflexivity|].
  cbn. destruct (f x); cbn; [f_equal|]; exact IH.
Qed.

(** A segment is kept exactly when its first two comma-separated
    pieces convert to finite numbers. *)
Lemma parseLatLng_spec (segment : string) (p : LatLng) :
  Hardened.parseLatLng (Some segment) = Some p <->
  exists a b rest,
    Str.split "," segment = a :: b :: rest /\
    Parse.Number a = lat p /\ Parse.Number b = lng p /\
    Num.isFinite (lat p) = true /\ Num.isFinite (lng p) = true.
Proof.
  unfold Hardened.parseLatLng. split.
  - destruct segment as [|c segment]; [discriminate|].
    destruct (Str.split "," (String c segment)) as [|a [|b rest]];
      simpl; try discriminate.
    destruct (Num.isFinite (Parse.Number a)) eqn:Ha; [|discriminate].
    destruct (Num.isFinite (Parse.Number b)) eqn:Hb; [|discriminate].
    simpl. intros [= <-]. exists a, b, rest. simpl. auto.
  - intros (a & b & rest & Hsplit & Ha & Hb & Hfa & Hfb).
    destruct segment as [|c segment]; [discriminate Hsplit|].
    rewrite Hsplit. simpl. rewrite Ha, Hb, Hfa, Hfb. simpl.
    destruct p; reflexivity.
Qed.

(** The hardened server splits the raw string on the bar, parses
    each segment, drops the invalid ones, keeps the first 8 and sends
    them in that order. *)
Lemma Hardened_waypoints (u : upstream) (key origin destination : option string)
    (raw : string) (po pd : LatLng) :
  configured key = true ->
  Hardened.parseLatLng origin = Some po ->
  Hardened.parseLatLng destination = Some pd ->
  raw <> "" ->
  Hardened.parsedWaypoints raw = parseCoordinateList raw /\
  (length (Hardened.parsedWaypoints raw) <= 8)%nat /\
  snd (run u 0 (Hardened.directions key origin destination (Some raw)))
  = calls [RoutesRequest (Hardened.waypoint po) (Hardened.waypoint pd)
             match parseCoordinateList raw with
             | [] => None
             | wps => Some (map Hardened.waypoint wps)
             end].
Proof.
  intros Hkey Ho Hd Hraw.
  assert (Heq : Hardened.parsedWaypoints raw = parseCoordinateList raw).
  { unfold Hardened.parsedWaypoints, parseCoordinateList.
    rewrite filter_Boolean_map. reflexivity. }
  split; [exact Heq|]. split.
  - unfold Hardened.parsedWaypoints. rewrite length_take. lia.
  - unfold Hardened.directions. rewrite Hkey, Ho, Hd. cbn [negb run snd].
    unfold Hardened.intermediates. destruct raw as [|c raw]; [congruence|].
    cbn [param_truthy param_string]. rewrite Heq. reflexivity.
Qed.

(** C9, the plain server at the failing inputs: the directions of
    [src/server.js] neither drop a segment that does not parse nor
    stop at 8 waypoints; the hardened server does both. *)
Theorem Server_waypoints_not_sanitized :
  Server.intermediates (Some "abc|40.5,-74.5")
  = Some [ {| latitude := Some NaN; longitude := None |};
           {| latitude := Some (Parse.Number "40.5");
              longitude := Some (Parse.Number "-74.5") |} ] /\
  snd (run (routing no_route) 0
         (Server.directions (Some "k") (Some "1,2") (Some "3,4") (Some "abc|40.5,-74.5")))
  = calls [RoutesRequest (Server.split_pair "1,2") (Server.split_pair "3,4")
             (Some [ {| latitude := Some NaN; longitude := None |};
                     Server.split_pair "40.5,-74.5" ])] /\
  option_map (@length Waypoint)
    (Server.intermediates (Some "1,1|2,2|3,3|4,4|5,5|6,6|7,7|8,8|9,9")) = Some 9%nat /\
  Hardened.intermediates (Some "abc|40.5,-74.5")
  = Some [ {| latitude := Some (Parse.Number "40.5");
              longitude := Some (Parse.Number "-74.5") |} ] /\
  option_map (@length Waypoint)
    (Hardened.intermediates (Some "1,1|2,2|3,3|4,4|5,5|6,6|7,7|8,8|9,9")) = Some 8%nat.
Proof. repeat split; vm_compute; reflexivity. Qed.

(** ** Details batch: properties *)

Lemma outcomes_lookup {b : kind} (u : upstream) (rqs : list (request b))
    (n i : nat) (rq : request b) :
  rqs !! i = Some rq -> outcomes u n rqs !! i = Some (u b (n + i)%nat rq).
Proof.
  revert n i. induction rqs as [|rq0 rqs IH]; intros n i; [discriminate|].
  destruct i as [|i]; cbn [outcomes].
  - intros [= ->]. rewrite Nat.add_0_r. reflexivity.
  - intros H. change (outcomes u (S n) rqs !! i = Some (u b (n + S i)%nat rq)).
    rewrite Nat.add_succ_r. exact (IH (S n) i H).
Qed.

Lemma map_raises {A B : Type} (f : A -> js B) (l : list A) (i : nat) (x : A)
    (e : exn) :
  l !! i = Some x -> f x = Throw e -> exists e', Js.map_ f l = Throw e'.
Proof.
  revert i. induction l as [|y l IH]; intros i; [discriminate|].
  destruct i as [|i]; cbn.
  - intros [= ->] Hx. rewrite Hx. eauto.
  - intros Hi Hx. destruct (f y); cbn [bind]; [|eauto].
    destruct (IH i Hi Hx) as [e' ->]. eauto.
Qed.



Lemma get_field (place : value) (k : string) (v : Venue) :
  normalize place = Ok v -> Js.get place k = Ok (field k place).
Proof. destruct place; try discriminate; reflexivity. Qed.



Lemma Hardened_details_run (u : upstream) (key : option string) (ids : string) :
  configured key = true ->
  Hardened.placeIds ids <> [] ->
  run u 0 (Hardened.places_details key (Some ids))
  = (catch (let* results :=
              Js.map_ Hardened.lookup
                (outcomes u 0 (map PlaceRequest (Hardened.placeIds ids))) in
            Ok (Reply 200 (Places (filter_Boolean results) "OK" VUndefined))),
     calls (map PlaceRequest (Hardened.placeIds ids))).
Proof.
  intros Hkey Hne. unfold Hardened.places_details. rewrite Hkey. cbn [negb].
  destruct ids as [|c ids]; [exfalso; apply Hne; reflexivity|].
  cbn [param_truthy param_string negb].
  destruct (Hardened.placeIds (String c ids)) as [|id rest] eqn:Hids; [congruence|].
  rewrite run_fetch_all. cbn [run fst snd]. rewrite app_nil_r. reflexivity.
Qed.

Lemma Server_details_run (u : upstream) (key : option string) (ids : string) :
  configured key = true ->
  ids <> "" ->
  run u 0 (Server.places_details key (Some ids))
  = (catch (let* results :=
              Js.map_ Server.lookup
                (outcomes u 0 (map PlaceRequest (Server.placeIds ids))) in
            Ok (Reply 200 (Places (filter_Boolean results) "OK" VUndefined))),
     calls (map PlaceRequest (Server.placeIds ids))).
Proof.
  intros Hkey Hne. unfold Server.places_details. rewrite Hkey. cbn [negb].
  destruct ids as [|c ids]; [congruence|].
  cbn [param_truthy param_string negb].
  rewrite run_fetch_all. cbn [run fst snd]. rewrite app_nil_r. reflexivity.
Qed.




(** C10. The details batch keeps the order of its input.  The lookups
    are issued in the order of the identifier list, their results are
    joined by position, and the Venues returned are, in that order,
    the results that are not null: the list returned is a subsequence
    of the list of the results by position.  Both variants of the
    server do so, each on its own identifier list. *)
Theorem details_order :
  forall (u : upstream) (key : option string) (ids : string),
    configured key = true ->
    (forall rs,
       Hardened.placeIds ids <> [] ->
       Forall2 (fun o r => Hardened.lookup o = Ok r)
         (outcomes u 0 (map PlaceRequest (Hardened.placeIds ids))) rs ->
       run u 0 (Hardened.places_details key (Some ids))
       = (Reply 200 (Places (filter_Boolean rs) "OK" VUndefined),
          calls (map PlaceRequest (Hardened.placeIds ids))) /\
       length rs = length (Hardened.placeIds ids) /\
       sublist (map Some (filter_Boolean rs)) rs) /\
    (forall rs,
       ids <> "" ->
       Forall2 (fun o r => Server.lookup o = Ok r)
         (outcomes u 0 (map PlaceRequest (Server.placeIds ids))) rs ->
       run u 0 (Server.places_details key (Some ids))
       = (Reply 200 (Places (filter_Boolean rs) "OK" VUndefined),
          calls (map PlaceRequest (Server.placeIds ids))) /\
       length rs = length (Server.placeIds ids) /\
       sublist (map Some (filter_Boolean rs)) rs).
Proof.
  intros u key ids Hkey. split; intros rs Hne Hrs.
  - rewrite (Hardened_details_run u key ids Hkey Hne).
    rewrite (map_Forall2 _ _ _ Hrs). cbn [bind catch].
    split; [reflexivity|]. split; [|apply filter_Boolean_sublist].
    apply Forall2_length in Hrs. rewrite <- Hrs.
    clear. generalize 0%nat.
    induction (Hardened.placeIds ids) as [|id l IH]; intros n; simpl; [reflexivity|].
    f_equal. apply IH.
  - rewrite (Server_details_run u key ids Hkey Hne).
    rewrite (map_Forall2 _ _ _ Hrs). cbn [bind catch].
    split; [reflexivity|]. split; [|apply filter_Boolean_sublist].
    apply Forall2_length in Hrs. rewrite <- Hrs.
    clear. generalize 0%nat.
    induction (Server.placeIds ids) as [|id l IH]; intros n; simpl; [reflexivity|].
    f_equal. apply IH.
Qed.

Lemma details_order_witness :
  exists venues,
    run (places_but ["b"]) 0 (Hardened.places_details (Some "k") (Some "c,b,a"))
    = (Reply 200 (Places venues "OK" VUndefined),
       calls (map PlaceRequest ["c"; "b"; "a"])) /\
    run (places_but ["b"]) 0 (Server.places_details (Some "k") (Some "c,b,a"))
    = (Reply 200 (Places venues "OK" VUndefined),
       calls (map PlaceRequest ["c"; "b"; "a"])) /\
    map place_id venues = [VStr "c"; VStr "a"].
Proof.
  destruct (details_order (places_but ["b"]) (Some "k") "c,b,a" eq_refl) as [Hh Hs].
  eexists. split; [|split].
  - refine (proj1 (Hh _ _ _)); [discriminate|].
    cbn. repeat (apply Forall2_cons; [reflexivity|]). apply Forall2_nil.
  - refine (proj1 (Hs _ _ _)); [discriminate|].
    cbn. repeat (apply Forall2_cons; [reflexivity|]). apply Forall2_nil.
  - reflexivity.
Defined.

(** A lookup whose [fetch] itself rejects is not dropped: the batch
    answers 500 with the reason of the rejection. *)
Lemma Hardened_details_rejected_fetch :
  fst (run (fun b _ _ => Throw (Rejected "fetch failed")) 0
         (Hardened.places_details (Some "k") (Some "a,b")))
  = Reply 500 (Error "fetch failed").
Proof. vm_compute. reflexivity. Qed.


(** * Further properties of the handlers *)

(** ** Rounding to binary64

    [Num.nearest] is within half a unit in the last place of its
    argument and leaves a binary64 as it is; the integers up to 2^53
    are binary64 numbers. *)

Lemma Qpow2_power (k : Z) : (Num.Qpow2 k == (2 # 1) ^ k)%Q.
Proof.
  unfold Num.Qpow2. destruct (Z.leb_spec 0 k).
  - rewrite Zpower_Qpower by lia. reflexivity.
  - rewrite Zpower_Qpower by lia. rewrite <- Qpower_opp.
    rewrite Z.opp_involutive. reflexivity.
Qed.

Lemma Qpow2_pos (k : Z) : (0 < Num.Qpow2 k)%Q.
Proof. rewrite Qpow2_power. apply Qpower_0_lt. reflexivity. Qed.

Lemma Qpow2_plus (a b : Z) :
  (Num.Qpow2 (a + b) == Num.Qpow2 a * Num.Qpow2 b)%Q.
Proof. rewrite !Qpow2_power. apply Qpower_plus. discriminate. Qed.

Lemma Qpow2_le (a b : Z) : a <= b -> (Num.Qpow2 a <= Num.Qpow2 b)%Q.
Proof.
  intros H. rewrite !Qpow2_power. apply Qpower_le_compat_l; [exact H|].
  discriminate.
Qed.

Lemma Qfloor_unique (q : Q) (k : Z) :
  (inject_Z k <= q)%Q -> (q < inject_Z (k + 1))%Q -> Qfloor q = k.
Proof.
  intros Hlo Hhi.
  pose proof (Qfloor_resp_le _ _ Hlo) as H1. rewrite Qfloor_Z in H1.
  pose proof (Qfloor_le q) as H2.
  assert (H3 : (inject_Z (Qfloor q) < inject_Z (k + 1))%Q)
    by (eapply Qle_lt_trans; eassumption).
  rewrite <- Zlt_Qlt in H3. lia.
Qed.

Lemma round_half_even_error (q : Q) :
  (Qabs (inject_Z (Num.round_half_even q) - q) <= 1 # 2)%Q.
Proof.
  unfold Num.round_half_even.
  pose proof (Qfloor_le q) as Hlo. pose proof (Qlt_floor q) as Hhi.
  rewrite inject_Z_plus in Hhi. change (inject_Z 1) with 1%Q in Hhi.
  apply Qabs_Qle_condition.
  destruct (Qcompare (q - inject_Z (Qfloor q)) (1 # 2)) eqn:Hc.
  - apply Qeq_alt in Hc.
    destruct (Z.even (Qfloor q)); rewrite ?inject_Z_plus;
      change (inject_Z 1) with 1%Q; split; lra.
  - apply Qlt_alt in Hc. split; lra.
  - apply Qgt_alt in Hc. rewrite inject_Z_plus.
    change (inject_Z 1) with 1%Q. split; lra.
Qed.

Lemma round_half_even_exact (q : Q) (n : Z) :
  (q == inject_Z n)%Q -> Num.round_half_even q = n.
Proof.
  intros H. unfold Num.round_half_even.
  rewrite (Qfloor_comp _ _ H), Qfloor_Z.
  assert (Hc : Qcompare (q - inject_Z n) (1 # 2) = Lt).
  { apply Qlt_alt. rewrite H. unfold Qminus. rewrite Qplus_opp_r. reflexivity. }
  rewrite Hc. reflexivity.
Qed.

Lemma Qabs_positive (q : Q) : (0 < q)%Q -> Qabs q = q.
Proof.
  destruct q as [n d]. unfold Qlt. simpl. intros H.
  destruct n; try lia; reflexivity.
Qed.

(** On a positive rational [nearest] scales by a power of two, rounds
    to an integer and scales back. *)
Lemma nearest_positive (q : Q) :
  (0 < q)%Q ->
  Num.nearest q
  = Qred (inject_Z (Num.round_half_even
                      (q * Num.Qpow2 (52 - Z.max (Num.ilog2 q) (-1022))))
          * Num.Qpow2 (Z.max (Num.ilog2 q) (-1022) - 52)).
Proof.
  intros H. unfold Num.nearest.
  destruct (Qeq_bool q 0) eqn:E.
  { apply Qeq_bool_iff in E. lra. }
  rewrite (Qabs_positive q H). unfold Num.Qltb at 1.
  assert (Hle : Qle_bool 0 q = true) by (apply Qle_bool_iff; lra).
  rewrite Hle. reflexivity.
Qed.

Lemma nearest_error (q : Q) (E : Z) :
  (0 < q)%Q -> Z.max (Num.ilog2 q) (-1022) <= E ->
  (Qabs (Num.nearest q - q) <= Num.Qpow2 (E - 53))%Q.
Proof.
  intros Hq HE. rewrite (nearest_positive q Hq), Qred_correct.
  set (e := Z.max (Num.ilog2 q) (-1022)) in *.
  pose proof (round_half_even_error (q * Num.Qpow2 (52 - e))) as Herr.
  set (m := inject_Z (Num.round_half_even (q * Num.Qpow2 (52 - e)))) in *.
  pose proof (Qpow2_plus (52 - e) (e - 52)) as Hone.
  replace (52 - e + (e - 52)) with 0 in Hone by lia.
  change (Num.Qpow2 0) with 1%Q in Hone.
  pose proof (Qpow2_plus (e - 52) (-1)) as Hhalf.
  replace (e - 52 + -1) with (e - 53) in Hhalf by lia.
  change (Num.Qpow2 (-1)) with (1 # 2)%Q in Hhalf.
  pose proof (Qpow2_pos (e - 52)) as Hpos.
  pose proof (Qpow2_le (e - 53) (E - 53) ltac:(lia)) as Hmono.
  set (P := Num.Qpow2 (52 - e)) in *. set (P' := Num.Qpow2 (e - 52)) in *.
  apply Qabs_Qle_condition in Herr as [Hlo Hhi].
  assert (Heq : (m * P' - q == (m - q * P) * P')%Q).
  { transitivity (m * P' - q * (P * P'))%Q; [rewrite <- Hone|]; ring. }
  apply Qabs_Qle_condition. rewrite Heq.
  assert (H1 : ((m - q * P) * P' <= (1 # 2) * P')%Q)
    by (apply Qmult_le_compat_r; lra).
  assert (H2 : (- (1 # 2) * P' <= (m - q * P) * P')%Q)
    by (apply Qmult_le_compat_r; lra).
  split; lra.
Qed.

Lemma nearest_exact (q : Q) (n E : Z) :
  (0 < q)%Q -> Z.max (Num.ilog2 q) (-1022) <= E ->
  (q * Num.Qpow2 (52 - E) == inject_Z n)%Q ->
  (Num.nearest q == q)%Q.
Proof.
  intros Hq HE Hn. rewrite (nearest_positive q Hq), Qred_correct.
  set (e := Z.max (Num.ilog2 q) (-1022)) in *.
  pose proof (Qpow2_plus (52 - E) (E - e)) as Hsplit.
  replace (52 - E + (E - e)) with (52 - e) in Hsplit by lia.
  assert (Hint : (Num.Qpow2 (E - e) == inject_Z (2 ^ (E - e)))%Q).
  { unfold Num.Qpow2. destruct (Z.leb_spec 0 (E - e)); [reflexivity|lia]. }
  assert (Hm : (q * Num.Qpow2 (52 - e) == inject_Z (n * 2 ^ (E - e)))%Q).
  { rewrite Hsplit, Qmult_assoc, Hn, Hint, inject_Z_mult. reflexivity. }
  rewrite (round_half_even_exact _ _ Hm), <- Hm.
  pose proof (Qpow2_plus (52 - e) (e - 52)) as Hone.
  replace (52 - e + (e - 52)) with 0 in Hone by lia.
  change (Num.Qpow2 0) with 1%Q in Hone.
  rewrite <- Qmult_assoc, <- Hone. ring.
Qed.

Lemma ilog2_le (q : Q) :
  Num.ilog2 q <= Z.log2 (Qnum q) - Z.log2 (Zpos (Qden q)).
Proof. unfold Num.ilog2. destruct (Num.Qltb _ _); lia. Qed.

Lemma of_Q_Finite (q : Q) :
  (Qabs (Num.nearest q) < Num.Qpow2 1024)%Q ->
  Num.of_Q q = Finite (Num.nearest q).
Proof.
  intros H. unfold Num.of_Q.
  destruct (Qle_bool _ _) eqn:E; [|reflexivity].
  apply Qle_bool_iff in E. lra.
Qed.

Lemma Qred_inject_Z (z : Z) : Qred (inject_Z z) = inject_Z z.
Proof.
  unfold Qred, inject_Z.
  pose proof (Z.ggcd_correct_divisors z 1) as H.
  pose proof (Z.ggcd_gcd z 1) as Hg.
  destruct (Z.ggcd z 1) as [g [aa bb]]. simpl in Hg.
  rewrite Z.gcd_1_r in Hg. subst g. destruct H as [-> H].
  replace bb with 1 by lia. f_equal. lia.
Qed.

Lemma log2_below (n : Z) (b : Z) : 0 < n < 2 ^ b -> Z.log2 n < b.
Proof. intros [H0 H]. apply Z.log2_lt_pow2; assumption. Qed.

Lemma nearest_below (q : Q) (E : Z) :
  (0 < q)%Q -> Z.max (Num.ilog2 q) (-1022) <= E ->
  (q + Num.Qpow2 (E - 53) < Num.Qpow2 1024)%Q ->
  Num.of_Q q = Finite (Num.nearest q).
Proof.
  intros Hq HE Hb. apply of_Q_Finite.
  pose proof (nearest_error q E Hq HE) as H.
  apply Qabs_Qle_condition in H as [H1 H2].
  apply Qabs_case; intros; lra.
Qed.

(** The integers below 2^53 are binary64 numbers. *)
Lemma of_Z_exact (z : Z) : 0 <= z < 2 ^ 53 -> Num.of_Z z = Finite (inject_Z z).
Proof.
  intros Hz. destruct (Z.eq_dec z 0) as [->|Hnz]; [reflexivity|].
  assert (Hq : (0 < inject_Z z)%Q).
  { change 0%Q with (inject_Z 0). rewrite <- Zlt_Qlt. lia. }
  assert (He : Z.max (Num.ilog2 (inject_Z z)) (-1022) <= 52).
  { pose proof (ilog2_le (inject_Z z)) as H. simpl in H.
    pose proof (log2_below z 53 ltac:(lia)). lia. }
  unfold Num.of_Z.
  assert (Hx : (Num.nearest (inject_Z z) == inject_Z z)%Q).
  { apply (nearest_exact _ z 52 Hq He). change (Num.Qpow2 (52 - 52)) with 1%Q.
    ring. }
  assert (Hn : Num.nearest (inject_Z z) = inject_Z z).
  { rewrite (nearest_positive _ Hq) in Hx |- *. rewrite Qred_correct in Hx.
    rewrite (Qred_complete _ _ Hx). apply Qred_inject_Z. }
  rewrite of_Q_Finite; rewrite Hn; [reflexivity|].
  rewrite (Qabs_positive _ Hq).
  apply Qlt_le_trans with (inject_Z (2 ^ 53)); [rewrite <- Zlt_Qlt; lia|].
  apply (Qpow2_le 53 1024). lia.
Qed.

(** ** The credential guard *)

(** X1. Without a credential, absent or empty, every handler that
    depends on the upstream answers 500 [API key not configured] and
    calls nothing, whatever the request; both variants. *)
Theorem unconfigured_short_circuits :
  forall (u : upstream) (key a b c d : option string) (address : value),
    configured key = false ->
    run u 0 (Hardened.geocode key address) = (not_configured, []) /\
    run u 0 (Hardened.places_nearby key a b c d) = (not_configured, []) /\
    run u 0 (Hardened.places_details key a) = (not_configured, []) /\
    run u 0 (Hardened.directions key a b c) = (not_configured, []) /\
    run u 0 (Server.geocode key a) = (not_configured, []) /\
    run u 0 (Server.places_nearby key a b c d) = (not_configured, []) /\
    run u 0 (Server.places_details key a) = (not_configured, []) /\
    run u 0 (Server.directions key a b c) = (not_configured, []).
Proof.
  intros u key a b c d address Hkey.
  unfold Hardened.geocode, Hardened.places_nearby, Hardened.places_details,
    Hardened.directions, Server.geocode, Server.places_nearby,
    Server.places_details, Server.directions.
  rewrite Hkey. repeat split.
Qed.

Lemma unconfigured_short_circuits_witness :
  run (answering three_candidates) 0
    (Hardened.places_nearby (Some "") (Some "40.7") (Some "-74.0") None None)
  = (not_configured, []) /\
  run (answering three_candidates) 0 (Server.places_details None (Some "a,b"))
  = (not_configured, []).
Proof.
  split.
  - apply (unconfigured_short_circuits (answering three_candidates)
             (Some "") (Some "40.7") (Some "-74.0") None None (VStr "Soho") eq_refl).
  - apply (unconfigured_short_circuits (answering three_candidates)
             None (Some "a,b") None None None VUndefined eq_refl).
Defined.

(** ** Nearby search: validation and request *)

(** X2. The hardened nearby search answers 400 and calls nothing when
    the latitude or the longitude does not read as a finite number:
    absent, not starting with a number, or infinite. *)
Theorem Hardened_nearby_rejects_bad_coordinates :
  forall (u : upstream) (key lat lng radius keyword : option string),
    configured key = true ->
    Num.isFinite (Parse.parseFloat (param_string lat)) = false \/
    Num.isFinite (Parse.parseFloat (param_string lng)) = false ->
    run u 0 (Hardened.places_nearby key lat lng radius keyword)
    = (Reply 400 (Error "lat and lng must be valid numbers"), []).
Proof.
  intros u key lat lng radius keyword Hkey Hbad.
  unfold Hardened.places_nearby. rewrite Hkey. cbn [negb].
  destruct Hbad as [-> | ->]; cbn [negb orb]; [reflexivity|].
  rewrite orb_true_r. reflexivity.
Qed.

Lemma Hardened_nearby_rejects_bad_coordinates_witness :
  run (answering three_candidates) 0
    (Hardened.places_nearby (Some "k") None (Some "-74.0") None None)
  = (Reply 400 (Error "lat and lng must be valid numbers"), []) /\
  run (answering three_candidates) 0
    (Hardened.places_nearby (Some "k") (Some "40.7") (Some "east") None None)
  = (Reply 400 (Error "lat and lng must be valid numbers"), []) /\
  run (answering three_candidates) 0
    (Hardened.places_nearby (Some "k") (Some "Infinity") (Some "1") None None)
  = (Reply 400 (Error "lat and lng must be valid numbers"), []).
Proof.
  split; [|split].
  - apply Hardened_nearby_rejects_bad_coordinates; [reflexivity|].
    left. vm_compute. reflexivity.
  - apply Hardened_nearby_rejects_bad_coordinates; [reflexivity|].
    right. vm_compute. reflexivity.
  - apply Hardened_nearby_rejects_bad_coordinates; [reflexivity|].
    left. vm_compute. reflexivity.
Defined.

Lemma textQuery_not_empty (keyword : option string) : textQuery keyword <> "".
Proof. destruct keyword as [[|c k]|]; discriminate. Qed.

(** X3. When the coordinates are valid the hardened nearby search
    issues exactly one search call; its text is never empty, its
    centre is the coordinates as read, and its radius is finite and
    positive: it is the radius as read when that is finite and
    positive, and 5000 in every other case. *)
Theorem Hardened_nearby_request :
  forall (u : upstream) (key lat lng radius keyword : option string),
    configured key = true ->
    Num.isFinite (Parse.parseFloat (param_string lat)) = true ->
    Num.isFinite (Parse.parseFloat (param_string lng)) = true ->
    exists r,
      snd (run u 0 (Hardened.places_nearby key lat lng radius keyword))
      = calls [SearchTextRequest (textQuery keyword)
                 (Parse.parseFloat (param_string lat))
                 (Parse.parseFloat (param_string lng)) r] /\
      textQuery keyword <> "" /\
      Num.isFinite r = true /\
      Num.lt (Num.of_Z 0) r = true /\
      (Num.isFinite (Parse.parseFloat (param_string radius)) = true ->
       Num.lt (Num.of_Z 0) (Parse.parseFloat (param_string radius)) = true ->
       r = Parse.parseFloat (param_string radius)) /\
      (Num.isFinite (Parse.parseFloat (param_string radius)) = false \/
       Num.lt (Num.of_Z 0) (Parse.parseFloat (param_string radius)) = false ->
       r = Num.of_Z 5000).
Proof.
  intros u key lat lng radius keyword Hkey Hlat Hlng.
  unfold Hardened.places_nearby. rewrite Hkey, Hlat, Hlng. cbn [negb orb run snd].
  assert (Hdef : Num.isFinite (Num.of_Z 5000) = true /\
                 Num.lt (Num.of_Z 0) (Num.of_Z 5000) = true).
  { split; vm_compute; reflexivity. }
  destruct Hdef as [Hdef1 Hdef2].
  destruct (Num.isFinite (Parse.parseFloat (param_string radius))) eqn:Hfin;
    [destruct (Num.lt (Num.of_Z 0) (Parse.parseFloat (param_string radius))) eqn:Hpos|];
    cbn [andb]; eexists; (split; [reflexivity|]);
    (split; [apply textQuery_not_empty|]).
  - split; [exact Hfin|]. split; [exact Hpos|]. split; [reflexivity|].
    intros [H|H]; discriminate H.
  - split; [exact Hdef1|]. split; [exact Hdef2|]. split; [discriminate|reflexivity].
  - split; [exact Hdef1|]. split; [exact Hdef2|]. split; [discriminate|reflexivity].
Qed.

Lemma Hardened_nearby_request_witness :
  snd (run (answering three_candidates) 0
         (Hardened.places_nearby (Some "k") (Some "40.7") (Some "-74.0")
            (Some "1500") (Some "")))
  = calls [SearchTextRequest default_keyword
             (Parse.parseFloat "40.7") (Parse.parseFloat "-74.0") (Num.of_Z 1500)] /\
  snd (run (answering three_candidates) 0
         (Hardened.places_nearby (Some "k") (Some "40.7") (Some "-74.0")
            (Some "-20") (Some "pub")))
  = calls [SearchTextRequest "pub"
             (Parse.parseFloat "40.7") (Parse.parseFloat "-74.0") (Num.of_Z 5000)].
Proof.
  split.
  - destruct (Hardened_nearby_request (answering three_candidates)
                (Some "k") (Some "40.7") (Some "-74.0") (Some "1500") (Some "")
                eq_refl eq_refl eq_refl)
      as (r & Hcall & _ & _ & _ & Hread & _).
    rewrite Hcall, (Hread eq_refl eq_refl). reflexivity.
  - destruct (Hardened_nearby_request (answering three_candidates)
                (Some "k") (Some "40.7") (Some "-74.0") (Some "-20") (Some "pub")
                eq_refl eq_refl eq_refl)
      as (r & Hcall & _ & _ & _ & _ & Hdefault).
    rewrite Hcall, (Hdefault (or_intror eq_refl)). reflexivity.
Defined.

(** X4. The plain nearby search validates nothing: for every query it
    issues exactly one search call, with a centre that may be [NaN];
    its radius is never [NaN] nor zero, but is sent as read when
    negative or infinite. *)
Theorem Server_nearby_request :
  forall (u : upstream) (key lat lng radius keyword : option string),
    configured key = true ->
    snd (run u 0 (Server.places_nearby key lat lng radius keyword))
    = calls [SearchTextRequest (textQuery keyword)
               (Parse.parseFloat (param_string lat))
               (Parse.parseFloat (param_string lng))
               (Server.radius_or_default radius)] /\
    Js.truthy (VNum (Server.radius_or_default radius)) = true /\
    (Js.truthy (VNum (Parse.parseFloat (param_string radius))) = true ->
     Server.radius_or_default radius = Parse.parseFloat (param_string radius)).
Proof.
  intros u key lat lng radius keyword Hkey.
  unfold Server.places_nearby. rewrite Hkey. cbn [negb run snd].
  split; [reflexivity|]. unfold Server.radius_or_default.
  destruct (Js.truthy (VNum (Parse.parseFloat (param_string radius)))) eqn:Ht.
  - split; [exact Ht|reflexivity].
  - split; [vm_compute; reflexivity|discriminate].
Qed.

Lemma Server_nearby_request_witness :
  snd (run (answering unavailable) 0
         (Server.places_nearby (Some "k") None (Some "x") (Some "-20") None))
  = calls [SearchTextRequest default_keyword NaN NaN (Num.of_Z (-20))].
Proof.
  destruct (Server_nearby_request (answering unavailable)
              (Some "k") None (Some "x") (Some "-20") None eq_refl) as (H & _ & _).
  exact H.
Defined.

Lemma filter_none {A : Type} (f : A -> bool) (l : list A) :
  Forall (fun x => f x = false) l -> List.filter f l = [].
Proof.
  induction 1 as [|x l Hx _ IH]; simpl; [reflexivity|]. rewrite Hx. exact IH.
Qed.

(** X5. The status OK of the nearby search does not say that
    something was found: a candidate list none of whose records the
    classifier accepts, an empty list in particular, is answered by
    200 with no result and the status OK, not ZERO_RESULTS; both
    variants. *)
Theorem nearby_no_survivor_is_OK :
  forall (u : upstream) (key lat lng radius keyword : option string)
         (r : Response value) (data : value) (items : list value),
    configured key = true ->
    Num.isFinite (Parse.parseFloat (param_string lat)) = true ->
    Num.isFinite (Parse.parseFloat (param_string lng)) = true ->
    (forall rq, u Json 0%nat rq = Ok r) ->
    ok r = true ->
    json r = Ok data ->
    field "places" data = VArr items ->
    Forall (fun p => Shape.well_formed p = true) items ->
    Forall (fun p => accepts p = false) items ->
    fst (run u 0 (Hardened.places_nearby key lat lng radius keyword))
    = Reply 200 (Places [] "OK" VUndefined) /\
    fst (run u 0 (Server.places_nearby key lat lng radius keyword))
    = Reply 200 (Places [] "OK" VUndefined).
Proof.
  intros u key lat lng radius keyword r data items
         Hkey Hlat Hlng Hu Hok Hjson Hplaces Hwf Hnone.
  destruct (places_reply_candidates data items Hplaces Hwf) as (results & Hreply & Hall).
  rewrite (filter_none _ _ Hnone) in Hall. inversion Hall; subst. split.
  - unfold Hardened.places_nearby. rewrite Hkey, Hlat, Hlng. simpl.
    rewrite Hu. cbn [bind]. rewrite Hok, Hjson. cbn [negb bind].
    rewrite Hreply. reflexivity.
  - unfold Server.places_nearby. rewrite Hkey. simpl.
    rewrite Hu. cbn [bind]. rewrite Hjson. cbn [bind].
    rewrite Hreply. reflexivity.
Qed.

Lemma nearby_no_survivor_is_OK_witness :
  fst (run (answering (candidates [coffee_house])) 0
         (Hardened.places_nearby (Some "k") (Some "40.7") (Some "-74.0") None None))
  = Reply 200 (Places [] "OK" VUndefined) /\
  fst (run (answering (candidates [])) 0
         (Server.places_nearby (Some "k") (Some "40.7") (Some "-74.0") None None))
  = Reply 200 (Places [] "OK" VUndefined).
Proof.
  split.
  - refine (proj1 (nearby_no_survivor_is_OK (answering (candidates [coffee_house]))
                     (Some "k") (Some "40.7") (Some "-74.0")
                     None None (candidates [coffee_house])
                     (VObj [("places", VArr [coffee_house])]) [coffee_house]
                     eq_refl _ _ (fun _ => eq_refl) eq_refl eq_refl eq_refl _ _)).
    + vm_compute. reflexivity.
    + vm_compute. reflexivity.
    + repeat constructor.
    + repeat constructor.
  - refine (proj2 (nearby_no_survivor_is_OK (answering (candidates []))
                     (Some "k") (Some "40.7") (Some "-74.0")
                     None None (candidates []) (VObj [("places", VArr [])]) []
                     eq_refl _ _ (fun _ => eq_refl) eq_refl eq_refl eq_refl _ _)).
    + vm_compute. reflexivity.
    + vm_compute. reflexivity.
    + constructor.
    + constructor.
Defined.

(** X6. When the upstream answers the search with a success status
    and a JSON object without a candidate list, the nearby search
    answers 200 with no result, the status ERROR when the object
    carries an error and ZERO_RESULTS when it does not, and the error
    as it came; both variants. *)
Theorem nearby_status_discriminator :
  forall (u : upstream) (key lat lng radius keyword : option string)
         (r : Response value) (fields : list (string * value)),
    configured key = true ->
    Num.isFinite (Parse.parseFloat (param_string lat)) = true ->
    Num.isFinite (Parse.parseFloat (param_string lng)) = true ->
    (forall rq, u Json 0%nat rq = Ok r) ->
    ok r = true ->
    json r = Ok (VObj fields) ->
    Js.truthy (Js.lookup "places" fields) = false ->
    fst (run u 0 (Hardened.places_nearby key lat lng radius keyword))
    = Reply 200 (Places []
                   (if Js.truthy (Js.lookup "error" fields)
                    then "ERROR" else "ZERO_RESULTS")
                   (Js.lookup "error" fields)) /\
    fst (run u 0 (Server.places_nearby key lat lng radius keyword))
    = fst (run u 0 (Hardened.places_nearby key lat lng radius keyword)).
Proof.
  intros u key lat lng radius keyword r fields Hkey Hlat Hlng Hu Hok Hjson Hplaces.
  assert (Hh : fst (run u 0 (Hardened.places_nearby key lat lng radius keyword))
               = Reply 200 (Places []
                   (if Js.truthy (Js.lookup "error" fields)
                    then "ERROR" else "ZERO_RESULTS")
                   (Js.lookup "error" fields))).
  { unfold Hardened.places_nearby. rewrite Hkey, Hlat, Hlng. simpl.
    rewrite Hu. cbn [bind]. rewrite Hok, Hjson. cbn [negb bind].
    unfold places_reply. cbn [Js.get bind]. rewrite Hplaces. reflexivity. }
  split; [exact Hh|]. rewrite Hh.
  apply (Server_nearby_ignores_status u key lat lng radius keyword r fields);
    assumption.
Qed.

Lemma nearby_status_discriminator_witness :
  fst (run (answering (success [("error", VStr "quota")])) 0
         (Hardened.places_nearby (Some "k") (Some "40.7") (Some "-74.0") None None))
  = Reply 200 (Places [] "ERROR" (VStr "quota")) /\
  fst (run (answering (success [])) 0
         (Hardened.places_nearby (Some "k") (Some "40.7") (Some "-74.0") None None))
  = Reply 200 (Places [] "ZERO_RESULTS" VUndefined).
Proof.
  split.
  - refine (proj1 (nearby_status_discriminator
                     (answering (success [("error", VStr "quota")]))
                     (Some "k") (Some "40.7") (Some "-74.0")
                     None None (success [("error", VStr "quota")])
                     [("error", VStr "quota")]
                     eq_refl _ _ (fun _ => eq_refl) eq_refl eq_refl eq_refl)).
    + vm_compute. reflexivity.
    + vm_compute. reflexivity.
  - refine (proj1 (nearby_status_discriminator (answering (success []))
                     (Some "k") (Some "40.7") (Some "-74.0")
                     None None (success []) []
                     eq_refl _ _ (fun _ => eq_refl) eq_refl eq_refl eq_refl)).
    + vm_compute. reflexivity.
    + vm_compute. reflexivity.
Defined.

(** ** The hardened server never answers 200 on a failed call *)

(** X7. In the hardened server the geocoding, the nearby search and
    the directions answer 200 only when they issued one call and the
    upstream answered it with a success status: a rejected call, a
    non-success status or invalid input never gives 200. *)
Theorem Hardened_200_needs_success :
  forall (u : upstream) (key a b c d : option string) (address : value)
         (content : body),
    (fst (run u 0 (Hardened.geocode key address)) = Reply 200 content ->
     exists rq r, snd (run u 0 (Hardened.geocode key address)) = @calls Json [rq] /\
                  u Json 0%nat rq = Ok r /\ ok r = true) /\
    (fst (run u 0 (Hardened.places_nearby key a b c d)) = Reply 200 content ->
     exists rq r, snd (run u 0 (Hardened.places_nearby key a b c d)) = @calls Json [rq] /\
                  u Json 0%nat rq = Ok r /\ ok r = true) /\
    (fst (run u 0 (Hardened.directions key a b c)) = Reply 200 content ->
     exists rq r, snd (run u 0 (Hardened.directions key a b c)) = @calls Routing [rq] /\
                  u Routing 0%nat rq = Ok r /\ ok r = true).
Proof.
  intros u key a b c d address content. split; [|split].
  - unfold Hardened.geocode.
    destruct (configured key); cbn [negb]; [|discriminate].
    destruct address as [| | | |s| |]; try discriminate.
    destruct (negb (Js.truthy (VStr s)) || _); [discriminate|].
    cbn [run fst snd].
    destruct (u Json 0%nat (GeocodeRequest s)) as [r|e] eqn:Hu;
      cbn [bind catch]; [|discriminate].
    destruct (ok r) eqn:Hok; cbn [negb]; [|discriminate].
    intros _. eexists _, r. repeat split; [exact Hu|exact Hok].
  - unfold Hardened.places_nearby.
    destruct (configured key); cbn [negb]; [|discriminate].
    destruct (negb _ || negb _); [discriminate|].
    cbn [run fst snd].
    match goal with |- context [u Json 0%nat ?rq] =>
      destruct (u Json 0%nat rq) as [r|e] eqn:Hu end;
      cbn [bind catch]; [|discriminate].
    destruct (ok r) eqn:Hok; cbn [negb]; [|discriminate].
    intros _. eexists _, r. repeat split; [exact Hu|exact Hok].
  - unfold Hardened.directions.
    destruct (configured key); cbn [negb]; [|discriminate].
    destruct (Hardened.parseLatLng a) as [po|]; [|discriminate].
    destruct (Hardened.parseLatLng b) as [pd|]; [|discriminate].
    cbn [run fst snd].
    match goal with |- context [u Routing 0%nat ?rq] =>
      destruct (u Routing 0%nat rq) as [r|e] eqn:Hu end;
      cbn [bind catch]; [|discriminate].
    destruct (ok r) eqn:Hok; cbn [negb]; [|discriminate].
    intros _. eexists _, r. repeat split; [exact Hu|exact Hok].
Qed.

Lemma Hardened_200_needs_success_witness :
  exists rq r,
    snd (run (answering three_candidates) 0
           (Hardened.places_nearby (Some "k") (Some "40.7") (Some "-74.0") None None))
    = @calls Json [rq] /\
    answering three_candidates Json 0%nat rq = Ok r /\ ok r = true.
Proof.
  destruct (Hardened_200_needs_success (answering three_candidates)
              (Some "k") (Some "40.7") (Some "-74.0") None None VUndefined
              (Places (match normalize joes_bar, normalize (VObj [("id", VStr "p3"); ("primaryType", VStr "night_club")]) with
                       | Ok v1, Ok v2 => [v1; v2]
                       | _, _ => []
                       end) "OK" VUndefined))
    as (_ & H & _).
  apply H. vm_compute. reflexivity.
Defined.

(** ** Geocoding *)

(** X8. The hardened geocoding answers 400 and calls nothing unless
    the address is one string that is not blank: an address that is
    absent, empty or white space only is refused, and so is one that
    is not a string, as the array a repeated parameter arrives as.  For
    a string that is not blank it issues one call that carries the
    address as given, not trimmed, and on a success status it passes
    the body of the upstream on, unchanged, with 200. *)
Theorem Hardened_geocode_spec :
  forall (u : upstream) (key : option string) (address : value),
    configured key = true ->
    ((forall s, address = VStr s -> Str.trim s = "") ->
     run u 0 (Hardened.geocode key address)
     = (Reply 400 (Error "address is required"), [])) /\
    (forall s,
       address = VStr s -> Str.trim s <> "" ->
       snd (run u 0 (Hardened.geocode key address)) = calls [GeocodeRequest s] /\
       forall r data,
         u Json 0%nat (GeocodeRequest s) = Ok r ->
         ok r = true -> json r = Ok data ->
         fst (run u 0 (Hardened.geocode key address)) = Reply 200 (Passthrough data)).
Proof.
  intros u key address Hkey. unfold Hardened.geocode. rewrite Hkey. cbn [negb].
  split.
  - intros Hblank. destruct address as [| | | |s| |]; try reflexivity.
    specialize (Hblank s eq_refl).
    destruct s as [|c s]; [reflexivity|]. rewrite Hblank. reflexivity.
  - intros s -> Ht.
    destruct s as [|c s]; [exfalso; apply Ht; reflexivity|].
    destruct (Str.trim (String c s)) as [|c' t] eqn:Etrim;
      [exfalso; apply Ht; reflexivity|].
    cbn [Js.truthy negb orb run fst snd]. split; [reflexivity|].
    intros r data Hu Hok Hjson. rewrite Hu. cbn [bind].
    rewrite Hok, Hjson. reflexivity.
Qed.

Lemma Hardened_geocode_spec_witness :
  run (answering (success [])) 0 (Hardened.geocode (Some "k") (VStr "   "))
  = (Reply 400 (Error "address is required"), []) /\
  run (answering (success [])) 0
    (Hardened.geocode (Some "k") (VArr [VStr "Soho"; VStr "Camden"]))
  = (Reply 400 (Error "address is required"), []) /\
  run (answering (success [])) 0 (Hardened.geocode (Some "k") VUndefined)
  = (Reply 400 (Error "address is required"), []) /\
  snd (run (answering (success [])) 0 (Hardened.geocode (Some "k") (VStr " Soho ")))
  = calls [GeocodeRequest " Soho "] /\
  fst (run (answering (success [])) 0 (Hardened.geocode (Some "k") (VStr " Soho ")))
  = Reply 200 (Passthrough (VObj [])).
Proof.
  split; [|split; [|split]].
  - apply (Hardened_geocode_spec (answering (success [])) (Some "k") (VStr "   ") eq_refl).
    intros s H. injection H as <-. reflexivity.
  - apply (Hardened_geocode_spec (answering (success [])) (Some "k")
             (VArr [VStr "Soho"; VStr "Camden"]) eq_refl).
    intros s H. discriminate H.
  - apply (Hardened_geocode_spec (answering (success [])) (Some "k") VUndefined eq_refl).
    intros s H. discriminate H.
  - destruct (Hardened_geocode_spec (answering (success [])) (Some "k") (VStr " Soho ")
                eq_refl) as [_ H].
    destruct (H " Soho " eq_refl) as [Hcall Hreply]; [discriminate|].
    split; [exact Hcall|].
    apply (Hreply (success []) (VObj [])); reflexivity.
Defined.

(** X9. The plain geocoding checks neither the address nor the
    status: it always issues one call, with the text [undefined] for
    an absent address, and whenever the body of the answer parses it
    passes it on with 200, whatever the status of the upstream. *)
Theorem Server_geocode_spec :
  forall (u : upstream) (key address : option string),
    configured key = true ->
    snd (run u 0 (Server.geocode key address))
    = calls [GeocodeRequest (param_string address)] /\
    forall r data,
      u Json 0%nat (GeocodeRequest (param_string address)) = Ok r ->
      json r = Ok data ->
      fst (run u 0 (Server.geocode key address)) = Reply 200 (Passthrough data).
Proof.
  intros u key address Hkey. unfold Server.geocode. rewrite Hkey.
  cbn [negb run fst snd]. split; [reflexivity|].
  intros r data Hu Hjson. rewrite Hu. cbn [bind]. rewrite Hjson. reflexivity.
Qed.

Lemma Server_geocode_spec_witness :
  snd (run (answering denied) 0 (Server.geocode (Some "k") None))
  = calls [GeocodeRequest "undefined"] /\
  fst (run (answering denied) 0 (Server.geocode (Some "k") None))
  = Reply 200 (Passthrough (VObj [("status", VStr "REQUEST_DENIED")])).
Proof.
  destruct (Server_geocode_spec (answering denied) (Some "k") None eq_refl)
    as [Hcall Hreply].
  split; [exact Hcall|].
  apply (Hreply denied); reflexivity.
Defined.

(** ** Directions: endpoints and request *)

(** X10. The hardened directions answer 400 and call nothing when the
    origin or the destination is not a pair of finite numbers. *)
Theorem Hardened_directions_rejects_bad_endpoints :
  forall (u : upstream) (key origin destination waypoints : option string),
    configured key = true ->
    Hardened.parseLatLng origin = None \/ Hardened.parseLatLng destination = None ->
    run u 0 (Hardened.directions key origin destination waypoints)
    = (Reply 400 (Error Hardened.bad_endpoints), []).
Proof.
  intros u key origin destination waypoints Hkey Hbad.
  unfold Hardened.directions. rewrite Hkey. cbn [negb].
  destruct Hbad as [-> | ->]; [reflexivity|].
  destruct (Hardened.parseLatLng origin); reflexivity.
Qed.

Lemma Hardened_directions_rejects_bad_endpoints_witness :
  run (routing no_route) 0
    (Hardened.directions (Some "k") (Some "40.7") (Some "40.8,-73.9") None)
  = (Reply 400 (Error Hardened.bad_endpoints), []) /\
  run (routing no_route) 0
    (Hardened.directions (Some "k") (Some "40.7,-74.0") (Some "abc,1") None)
  = (Reply 400 (Error Hardened.bad_endpoints), []) /\
  run (routing no_route) 0
    (Hardened.directions (Some "k") None (Some "1,Infinity") (Some "1,2"))
  = (Reply 400 (Error Hardened.bad_endpoints), []).
Proof.
  split; [|split]; apply Hardened_directions_rejects_bad_endpoints;
    try reflexivity; [left|right|left]; vm_compute; reflexivity.
Defined.







(** ** Coordinate pairs *)

Lemma split_cons (sep : ascii) (s : string) :
  exists h t, Str.split sep s = h :: t.
Proof.
  induction s as [|c s (h & t & IH)]; simpl; [eauto|].
  destruct (Ascii.eqb c sep); [eauto|]. rewrite IH. eauto.
Qed.

Lemma split_no_sep (sep : ascii) (s : string) :
  Forall (fun seg => ~ In sep (chars seg)) (Str.split sep s).
Proof.
  induction s as [|c s IH]; simpl.
  - constructor; [|constructor]. intros [].
  - destruct (Ascii.eqb c sep) eqn:Hc.
    + constructor; [intros []|exact IH].
    + destruct (Str.split sep s) as [|h t]; inversion IH; subst.
      * constructor; [|constructor]. simpl. intros [->|[]].
        rewrite Ascii.eqb_refl in Hc. discriminate.
      * constructor; [|assumption]. simpl. intros [->|Hin]; [|tauto].
        rewrite Ascii.eqb_refl in Hc. discriminate.
Qed.

Lemma split_without_sep (sep : ascii) (s : string) :
  ~ In sep (chars s) -> Str.split sep s = [s].
Proof.
  induction s as [|c s IH]; simpl; [reflexivity|]. intros Hnot.
  destruct (Ascii.eqb c sep) eqn:Hc.
  - apply Ascii.eqb_eq in Hc. tauto.
  - rewrite IH by tauto. reflexivity.
Qed.

Lemma split_app (sep : ascii) (a t : string) :
  ~ In sep (chars a) ->
  Str.split sep (a ++ String sep t) = a :: Str.split sep t.
Proof.
  induction a as [|c a IH]; simpl; intros Hnot.
  - rewrite Ascii.eqb_refl. reflexivity.
  - destruct (Ascii.eqb c sep) eqn:Hc.
    + apply Ascii.eqb_eq in Hc. tauto.
    + rewrite IH by tauto. reflexivity.
Qed.

(** X12. [parseLatLng] reads the first two comma-separated pieces
    and nothing else: a string with more pieces parses as its first
    two do, and a string without a comma does not parse.  A piece
    that is empty or white space reads as zero, so that a lone comma
    is the valid pair (0, 0). *)
Theorem parseLatLng_first_two_pieces :
  forall (s a b : string) (rest : list string),
    (Str.split "," s = a :: b :: rest ->
     Hardened.parseLatLng (Some s) = Hardened.parseLatLng (Some (a ++ "," ++ b)) /\
     (Str.trim a = "" -> Str.trim b = "" ->
      Hardened.parseLatLng (Some s) = Some {| lat := Finite 0; lng := Finite 0 |})) /\
    (Str.split "," s = [a] -> Hardened.parseLatLng (Some s) = None).
Proof.
  intros s a b rest. split.
  - intros Hsplit.
    assert (Hseg := split_no_sep "," s). rewrite Hsplit in Hseg.
    inversion Hseg as [|? ? Ha Hseg']; subst. inversion Hseg' as [|? ? Hb _]; subst.
    assert (Hab : Str.split "," (a ++ "," ++ b) = [a; b]).
    { change (a ++ "," ++ b)%string with (a ++ String "," b)%string.
      rewrite split_app by exact Ha. rewrite split_without_sep by exact Hb.
      reflexivity. }
    assert (Hs : s <> "") by (intros ->; discriminate Hsplit).
    assert (Hs' : (a ++ "," ++ b)%string <> "") by (destruct a; discriminate).
    unfold Hardened.parseLatLng.
    destruct s as [|c s]; [congruence|].
    destruct (a ++ "," ++ b)%string as [|c' s'] eqn:Heq; [congruence|].
    rewrite Hsplit, Hab. split; [reflexivity|].
    intros Hta Htb. cbn [map]. unfold Parse.Number. rewrite Hta, Htb. reflexivity.
  - intros Hsplit. unfold Hardened.parseLatLng.
    destruct s as [|c s]; [reflexivity|]. rewrite Hsplit. reflexivity.
Qed.

Lemma parseLatLng_first_two_pieces_witness :
  Hardened.parseLatLng (Some "40.7,-74.0,12,x")
  = Hardened.parseLatLng (Some "40.7,-74.0") /\
  Hardened.parseLatLng (Some " , ,9") = Some {| lat := Finite 0; lng := Finite 0 |} /\
  Hardened.parseLatLng (Some "40.7 -74.0") = None.
Proof.
  split; [|split].
  - apply (parseLatLng_first_two_pieces "40.7,-74.0,12,x" "40.7" "-74.0" ["12"; "x"]).
    reflexivity.
  - apply (parseLatLng_first_two_pieces " , ,9" " " " " ["9"]); reflexivity.
  - apply (parseLatLng_first_two_pieces "40.7 -74.0" "40.7 -74.0" "" []). reflexivity.
Defined.

(** ** The two variants on valid input *)

Lemma split_pair_valid (seg : string) (p : LatLng) :
  Hardened.parseLatLng (Some seg) = Some p ->
  Server.split_pair seg = Hardened.waypoint p.
Proof.
  intros H. apply parseLatLng_spec in H as (a & b & rest & Hsplit & Ha & Hb & _).
  unfold Server.split_pair, Hardened.waypoint. rewrite Hsplit. cbn.
  rewrite Ha, Hb. reflexivity.
Qed.

Lemma endpoint_valid (v : option string) (p : LatLng) :
  Hardened.parseLatLng v = Some p ->
  exists s, v = Some s /\ Server.split_pair s = Hardened.waypoint p.
Proof.
  destruct v as [s|]; [|discriminate]. intros H.
  exists s. split; [reflexivity|]. exact (split_pair_valid s p H).
Qed.

Lemma all_valid_segments (l : list string) :
  Forall (fun seg => Hardened.parseLatLng (Some seg) <> None) l ->
  map Hardened.waypoint (omap (fun seg => Hardened.parseLatLng (Some seg)) l)
  = map Server.split_pair l.
Proof.
  induction 1 as [|seg l Hseg _ IH]; [reflexivity|].
  cbn [map]. change (omap ?f (seg :: l)) with
    (match f seg with Some y => y :: omap f l | None => omap f l end).
  destruct (Hardened.parseLatLng (Some seg)) as [p|] eqn:Hp; [|congruence].
  cbn [map]. rewrite IH, (split_pair_valid seg p Hp). reflexivity.
Qed.

Lemma all_valid_length (l : list string) :
  Forall (fun seg => Hardened.parseLatLng (Some seg) <> None) l ->
  length (omap (fun seg => Hardened.parseLatLng (Some seg)) l) = length l.
Proof.
  intros H. rewrite <- (length_map Hardened.waypoint), (all_valid_segments l H).
  apply length_map.
Qed.

(** X13. On valid input the two variants ask the upstream the same
    thing: when the endpoints are pairs of finite numbers and the
    waypoint string, if any, has at most 8 segments that all parse,
    the hardened and the plain directions issue the same routing
    call. *)
Theorem directions_same_request :
  forall (u : upstream) (key origin destination waypoints : option string)
         (po pd : LatLng),
    configured key = true ->
    Hardened.parseLatLng origin = Some po ->
    Hardened.parseLatLng destination = Some pd ->
    (length (Str.split "|" (param_or_empty waypoints)) <= 8)%nat ->
    (param_or_empty waypoints <> "" ->
     Forall (fun seg => Hardened.parseLatLng (Some seg) <> None)
       (Str.split "|" (param_or_empty waypoints))) ->
    snd (run u 0 (Hardened.directions key origin destination waypoints))
    = snd (run u 0 (Server.directions key origin destination waypoints)).
Proof.
  intros u key origin destination waypoints po pd Hkey Ho Hd Hlen Hvalid.
  unfold Hardened.directions, Server.directions. rewrite Hkey, Ho, Hd.
  destruct (endpoint_valid _ _ Ho) as (so & -> & Hso).
  destruct (endpoint_valid _ _ Hd) as (sd & -> & Hsd).
  cbn [negb run snd]. rewrite Hso, Hsd. do 3 f_equal.
  unfold Hardened.intermediates, Server.intermediates.
  destruct waypoints as [[|c w]|]; cbn [param_truthy param_string]; try reflexivity.
  cbn [param_or_empty] in Hlen, Hvalid.
  assert (Hall := Hvalid ltac:(discriminate)).
  unfold Hardened.parsedWaypoints. rewrite filter_Boolean_map.
  rewrite take_ge by (rewrite (all_valid_length _ Hall); lia).
  rewrite <- (all_valid_segments _ Hall).
  destruct (split_cons "|" (String c w)) as (h & t & Hsplit).
  rewrite Hsplit in Hall |- *. inversion Hall as [|? ? Hh _]; subst.
  change (omap ?f (h :: t)) with
    (match f h with Some y => y :: omap f t | None => omap f t end).
  destruct (Hardened.parseLatLng (Some h)); [reflexivity|congruence].
Qed.

Lemma directions_same_request_witness :
  snd (run (routing no_route) 0
         (Hardened.directions (Some "k") (Some "40.7,-74.0") (Some "40.8,-73.9")
            (Some "40.71,-74.01|40.72,-74.02")))
  = snd (run (routing no_route) 0
           (Server.directions (Some "k") (Some "40.7,-74.0") (Some "40.8,-73.9")
              (Some "40.71,-74.01|40.72,-74.02"))).
Proof.
  apply (directions_same_request (routing no_route)
           (Some "k") (Some "40.7,-74.0") (Some "40.8,-73.9")
           (Some "40.71,-74.01|40.72,-74.02")
           {| lat := Parse.Number "40.7"; lng := Parse.Number "-74.0" |}
           {| lat := Parse.Number "40.8"; lng := Parse.Number "-73.9" |}
           eq_refl).
  - vm_compute. reflexivity.
  - vm_compute. reflexivity.
  - vm_compute. lia.
  - intros _. repeat constructor; vm_compute; discriminate.
Defined.

(** ** Route assembly *)

(** X14. When the upstream answers with a success status and at
    least one route that has legs, the directions answer 200 with
    exactly one route, built from the first one alone: its legs are
    those of that route, one for one and in order, each with the text
    of its own duration and distance, and its polyline is that of the
    route, empty when absent.  The other routes and the error of the
    answer play no part.  Both variants. *)
Theorem directions_first_route :
  forall (u : upstream) (key origin destination waypoints : option string)
         (po pd : LatLng) (r : Response RoutesData) (data : RoutesData)
         (route : Route) (others : list Route) (ls : list Leg),
    configured key = true ->
    Hardened.parseLatLng origin = Some po ->
    Hardened.parseLatLng destination = Some pd ->
    (forall rq, u Routing 0%nat rq = Ok r) ->
    ok r = true ->
    json r = Ok data ->
    routes data = Some (route :: others) ->
    legs route = Some ls ->
    exists out,
      fst (run u 0 (Hardened.directions key origin destination waypoints))
      = Reply 200 (Routes [out] VUndefined) /\
      fst (run u 0 (Server.directions key origin destination waypoints))
      = Reply 200 (Routes [out] VUndefined) /\
      overview_polyline out = param_or_empty (encodedPolyline route) /\
      Forall2 (fun leg o =>
                 duration_value o = leg_seconds leg /\
                 duration_text o = formatDuration (leg_seconds leg) /\
                 distance_value o = leg_meters leg /\
                 distance_text o = formatDistance (leg_meters leg))
        ls (out_legs out).
Proof.
  intros u key origin destination waypoints po pd r data route others ls
         Hkey Ho Hd Hu Hok Hjson Hroutes Hlegs.
  assert (Hreply : routes_reply data
            = Ok (Reply 200 (Routes
                   [{| out_legs := map route_leg ls;
                       overview_polyline := default "" (encodedPolyline route) |}]
                   VUndefined))).
  { unfold routes_reply. rewrite Hroutes, Hlegs. reflexivity. }
  eexists. split; [|split; [|split]].
  - unfold Hardened.directions. rewrite Hkey, Ho, Hd. simpl.
    rewrite Hu. cbn [bind]. rewrite Hok, Hjson. cbn [negb bind].
    rewrite Hreply. reflexivity.
  - unfold Server.directions. rewrite Hkey.
    destruct (endpoint_valid _ _ Ho) as (so & -> & _).
    destruct (endpoint_valid _ _ Hd) as (sd & -> & _).
    simpl. rewrite Hu. cbn [bind]. rewrite Hjson. cbn [bind].
    rewrite Hreply. reflexivity.
  - cbn [overview_polyline]. destruct (encodedPolyline route); reflexivity.
  - cbn [out_legs]. clear. induction ls as [|leg ls IH]; constructor; [|exact IH].
    repeat split.
Qed.

Lemma directions_first_route_witness :
  exists out,
    fst (run (routing (routed [two_legs; no_legs] (VStr "ignored"))) 0
           (Hardened.directions (Some "k") (Some "40.7,-74.0") (Some "40.8,-73.9") None))
    = Reply 200 (Routes [out] VUndefined) /\
    overview_polyline out = "abc" /\
    map duration_text (out_legs out) = ["3 mins"; "0 mins"] /\
    map distance_text (out_legs out) = ["1.2 km"; "0 m"].
Proof.
  destruct (directions_first_route (routing (routed [two_legs; no_legs] (VStr "ignored")))
              (Some "k") (Some "40.7,-74.0") (Some "40.8,-73.9") None
              {| lat := Parse.Number "40.7"; lng := Parse.Number "-74.0" |}
              {| lat := Parse.Number "40.8"; lng := Parse.Number "-73.9" |}
              (routed [two_legs; no_legs] (VStr "ignored"))
              {| routes := Some [two_legs; no_legs]; routes_error := VStr "ignored" |}
              two_legs [no_legs]
              [ {| duration := Some "165s"; distanceMeters := Some 1234 |};
                {| duration := None; distanceMeters := None |} ]
              eq_refl)
    as (out & Hh & _ & Hpoly & Hlegs).
  - vm_compute. reflexivity.
  - vm_compute. reflexivity.
  - intros rq. reflexivity.
  - reflexivity.
  - reflexivity.
  - reflexivity.
  - reflexivity.
  - exists out. split; [exact Hh|]. split; [exact Hpoly|].
    inversion Hlegs as [|leg1 o1 ? ? (_ & Ht1 & _ & Hd1) Hrest]; subst.
    inversion Hrest as [|leg2 o2 ? ? (_ & Ht2 & _ & Hd2) Hnil]; subst.
    inversion Hnil; subst. cbn [map].
    rewrite Ht1, Ht2, Hd1, Hd2. split; vm_compute; reflexivity.
Defined.

(** X15. A first route without legs makes the directions raise: the
    answer is 500, not an empty itinerary; both variants. *)
Theorem directions_route_without_legs :
  forall (u : upstream) (key origin destination waypoints : option string)
         (po pd : LatLng) (r : Response RoutesData) (data : RoutesData)
         (route : Route) (others : list Route),
    configured key = true ->
    Hardened.parseLatLng origin = Some po ->
    Hardened.parseLatLng destination = Some pd ->
    (forall rq, u Routing 0%nat rq = Ok r) ->
    ok r = true ->
    json r = Ok data ->
    routes data = Some (route :: others) ->
    legs route = None ->
    exists msg,
      fst (run u 0 (Hardened.directions key origin destination waypoints))
      = Reply 500 (Error msg) /\
      fst (run u 0 (Server.directions key origin destination waypoints))
      = Reply 500 (Error msg).
Proof.
  intros u key origin destination waypoints po pd r data route others
         Hkey Ho Hd Hu Hok Hjson Hroutes Hlegs.
  assert (Hreply : routes_reply data = Throw (TypeError "map")).
  { unfold routes_reply. rewrite Hroutes, Hlegs. reflexivity. }
  eexists. split.
  - unfold Hardened.directions. rewrite Hkey, Ho, Hd. simpl.
    rewrite Hu. cbn [bind]. rewrite Hok, Hjson. cbn [negb bind].
    rewrite Hreply. reflexivity.
  - unfold Server.directions. rewrite Hkey.
    destruct (endpoint_valid _ _ Ho) as (so & -> & _).
    destruct (endpoint_valid _ _ Hd) as (sd & -> & _).
    simpl. rewrite Hu. cbn [bind]. rewrite Hjson. cbn [bind].
    rewrite Hreply. reflexivity.
Qed.

Lemma directions_route_without_legs_witness :
  exists msg,
    fst (run (routing (routed [no_legs; two_legs] VUndefined)) 0
           (Hardened.directions (Some "k") (Some "40.7,-74.0") (Some "40.8,-73.9") None))
    = Reply 500 (Error msg).
Proof.
  destruct (directions_route_without_legs
              (routing (routed [no_legs; two_legs] VUndefined))
              (Some "k") (Some "40.7,-74.0") (Some "40.8,-73.9") None
              {| lat := Parse.Number "40.7"; lng := Parse.Number "-74.0" |}
              {| lat := Parse.Number "40.8"; lng := Parse.Number "-73.9" |}
              (routed [no_legs; two_legs] VUndefined)
              {| routes := Some [no_legs; two_legs]; routes_error := VUndefined |}
              no_legs [two_legs] eq_refl)
    as (msg & Hh & _).
  - vm_compute. reflexivity.
  - vm_compute. reflexivity.
  - intros rq. reflexivity.
  - reflexivity.
  - reflexivity.
  - reflexivity.
  - reflexivity.
  - exists msg. exact Hh.
Defined.

(** ** Reading back decimal renderings *)

Lemma scan_digits_uint (d : Decimal.uint) (acc : Z) (n : nat) :
  Parse.scan_digits 10 (NilEmpty.string_of_uint d) acc n
  = (uint_value d acc, (n + Decimal.nb_digits d)%nat, EmptyString).
Proof.
  revert acc n. induction d; intros acc n; cbn [NilEmpty.string_of_uint];
    [simpl; rewrite Nat.add_0_r; reflexivity| ..];
    cbn [Parse.scan_digits]; (change (Parse.digit_of 10 _) with (Some 0)
      || change (Parse.digit_of 10 _) with (Some 1)
      || change (Parse.digit_of 10 _) with (Some 2)
      || change (Parse.digit_of 10 _) with (Some 3)
      || change (Parse.digit_of 10 _) with (Some 4)
      || change (Parse.digit_of 10 _) with (Some 5)
      || change (Parse.digit_of 10 _) with (Some 6)
      || change (Parse.digit_of 10 _) with (Some 7)
      || change (Parse.digit_of 10 _) with (Some 8)
      || change (Parse.digit_of 10 _) with (Some 9));
    cbv iota; rewrite IHd; cbn [uint_value Decimal.nb_digits];
    rewrite Nat.add_succ_r; reflexivity.
Qed.

Lemma uint_value_acc (d : Decimal.uint) (acc : positive) :
  uint_value d (Zpos acc) = Zpos (Pos.of_uint_acc d acc).
Proof.
  revert acc. induction d; intros acc; cbn [uint_value Pos.of_uint_acc];
    [reflexivity| ..];
    match goal with
    | |- uint_value _ ?a = Zpos (Pos.of_uint_acc _ ?b) =>
        replace a with (Zpos b) by lia
    end; apply IHd.
Qed.

Lemma uint_value_0 (d : Decimal.uint) :
  uint_value d 0 = Z.of_N (Pos.of_uint d).
Proof.
  induction d; cbn [uint_value Pos.of_uint]; [reflexivity|exact IHd| ..];
    match goal with
    | |- uint_value _ ?a = _ => let v := eval compute in a in change a with v
    end; rewrite uint_value_acc; reflexivity.
Qed.

Lemma digits_not_trimmed (d : Decimal.uint) :
  Parse.scan_sign (Str.trimStart (NilEmpty.string_of_uint d))
  = (false, NilEmpty.string_of_uint d) /\
  Parse.has_prefix2 "x" "X" (NilEmpty.string_of_uint d) = None.
Proof.
  destruct d as [|d|d|d|d|d|d|d|d|d|d]; split; try reflexivity.
  destruct d; reflexivity.
Qed.

Lemma nb_digits_positive (d : Decimal.uint) :
  d <> Decimal.Nil -> exists k, Decimal.nb_digits d = S k.
Proof. destruct d; [congruence| ..]; eauto. Qed.

Lemma parseInt_digits (d : Decimal.uint) :
  d <> Decimal.Nil ->
  Parse.parseInt (NilEmpty.string_of_uint d) = Num.of_Z (uint_value d 0) /\
  Parse.parseInt (String "-" (NilEmpty.string_of_uint d)) = Num.of_Z (- uint_value d 0).
Proof.
  intros Hd. destruct (digits_not_trimmed d) as [Hsign Hprefix].
  destruct (nb_digits_positive d Hd) as [k Hk]. split.
  - unfold Parse.parseInt. rewrite Hsign, Hprefix, scan_digits_uint, Hk. reflexivity.
  - unfold Parse.parseInt. cbn [Str.trimStart Str.is_space].
    change (Str.is_space "-") with false. cbv iota. cbn [Parse.scan_sign].
    rewrite Hprefix, scan_digits_uint, Hk. reflexivity.
Qed.

(** [parseInt] reads back the decimal rendering of every integer. *)
Lemma parseInt_of_Z (z : Z) : Parse.parseInt (Str.of_Z z) = Num.of_Z z.
Proof.
  unfold Str.of_Z. destruct z as [|p|p]; cbn [Z.to_int NilEmpty.string_of_int].
  - reflexivity.
  - destruct (parseInt_digits (Pos.to_uint p) (Unsigned.to_uint_nonnil p)) as [-> _].
    rewrite uint_value_0, Unsigned.of_to. reflexivity.
  - destruct (parseInt_digits (Pos.to_uint p) (Unsigned.to_uint_nonnil p)) as [_ ->].
    rewrite uint_value_0, Unsigned.of_to. reflexivity.
Qed.

Lemma remove_suffix_s (d : Decimal.uint) :
  Str.remove_first "s" (NilEmpty.string_of_uint d ++ "s") = NilEmpty.string_of_uint d.
Proof.
  induction d; cbn [NilEmpty.string_of_uint]; [reflexivity| ..];
    cbn; f_equal; exact IHd.
Qed.

(** X16. The seconds of a leg are read back from its duration: for
    every duration the upstream writes as a non-negative integer
    followed by [s], the value of the leg is the binary64 nearest to
    that integer, which below 2^53 is the integer itself. *)
Theorem leg_seconds_reads_duration :
  forall (n : Z) (meters : option Z),
    0 <= n ->
    leg_seconds {| duration := Some (Str.of_Z n ++ "s"); distanceMeters := meters |}
    = Num.of_Z n /\
    (n < 2 ^ 53 ->
     leg_seconds {| duration := Some (Str.of_Z n ++ "s"); distanceMeters := meters |}
     = Finite (inject_Z n)).
Proof.
  intros n meters Hn.
  assert (Hread : leg_seconds {| duration := Some (Str.of_Z n ++ "s");
                                 distanceMeters := meters |} = Num.of_Z n).
  { unfold leg_seconds. cbn [duration].
    assert (Hd : exists d, d <> Decimal.Nil /\ Str.of_Z n = NilEmpty.string_of_uint d).
    { unfold Str.of_Z. destruct n as [|p|p]; [| |lia];
        cbn [Z.to_int NilEmpty.string_of_int].
      - exists (Decimal.D0 Decimal.Nil). split; [discriminate|reflexivity].
      - exists (Pos.to_uint p). split; [apply Unsigned.to_uint_nonnil|reflexivity]. }
    destruct Hd as (d & Hd & Heq).
    assert (Hp : Parse.parseInt (NilEmpty.string_of_uint d) = Num.of_Z n).
    { rewrite <- Heq. apply parseInt_of_Z. }
    rewrite Heq, remove_suffix_s.
    destruct d; [congruence| ..]; cbn [NilEmpty.string_of_uint] in *; exact Hp. }
  split; [exact Hread|].
  intros Hsmall. rewrite Hread. apply of_Z_exact. lia.
Qed.

Lemma leg_seconds_reads_duration_witness :
  leg_seconds {| duration := Some "5400s"; distanceMeters := None |}
  = Finite (inject_Z 5400) /\
  leg_seconds {| duration := Some "9007199254740993s"; distanceMeters := None |}
  = Finite (inject_Z 9007199254740992).
Proof.
  split.
  - apply (leg_seconds_reads_duration 5400 None); lia.
  - refine (eq_trans (proj1 (leg_seconds_reads_duration 9007199254740993 None _)) _);
      [lia|vm_compute; reflexivity].
Defined.

(** X17. A tier token made of the prefix and the decimal digits of
    an integer is normalized to that integer, whatever it is: nothing
    keeps the price level between 0 and 4, nor non-negative. *)
Theorem priceLevel_of_numbered_token :
  forall (k : Z) (fields : list (string * value)),
    Js.lookup "priceLevel" fields = VStr (tier_token k) ->
    priceLevel_of (VObj fields) = Ok (VNum (Num.of_Z k)).
Proof.
  intros k fields Htok.
  rewrite (priceLevel_token fields "P" ("RICE_LEVEL_" ++ Str.of_Z k) Htok).
  replace (Str.remove_first "PRICE_LEVEL_" (String "P" ("RICE_LEVEL_" ++ Str.of_Z k)))
    with (Str.of_Z k) by (cbn; destruct (Str.of_Z k); reflexivity).
  rewrite parseInt_of_Z. reflexivity.
Qed.

Lemma priceLevel_of_numbered_token_witness :
  priceLevel_of (VObj [("id", VStr "x"); ("priceLevel", VStr "PRICE_LEVEL_-12")])
  = Ok (VNum (Num.of_Z (-12))).
Proof.
  apply (priceLevel_of_numbered_token (-12)). reflexivity.
Defined.

(** ** Details batch: fan-out and failures *)

Lemma length_calls {b : kind} (rqs : list (request b)) :
  length (calls rqs) = length rqs.
Proof. apply length_map. Qed.

(** X18. The details batch never issues more than 10 upstream calls,
    whatever the request and the upstream; both variants. *)
Theorem details_fan_out_bounded :
  forall (u : upstream) (key ids : option string),
    (length (snd (run u 0 (Hardened.places_details key ids))) <= 10)%nat /\
    (length (snd (run u 0 (Server.places_details key ids))) <= 10)%nat.
Proof.
  intros u key ids.
  destruct (configured key) eqn:Hkey.
  2:{ unfold Hardened.places_details, Server.places_details. rewrite Hkey.
      simpl. lia. }
  destruct ids as [[|c ids]|].
  1,3: unfold Hardened.places_details, Server.places_details; rewrite Hkey;
       simpl; lia.
  split.
  - destruct (Hardened.placeIds (String c ids)) as [|id l] eqn:Hids.
    + unfold Hardened.places_details. rewrite Hkey.
      cbn [negb param_truthy param_string]. rewrite Hids. simpl. lia.
    + rewrite Hardened_details_run by (assumption || congruence).
      cbn [snd]. rewrite length_calls, length_map.
      unfold Hardened.placeIds. rewrite length_take. lia.
  - rewrite Server_details_run by (assumption || discriminate).
    cbn [snd]. rewrite length_calls, length_map.
    unfold Server.placeIds. rewrite length_take. lia.
Qed.

(** X19. Best effort stops at a rejection: when the call of one
    lookup is rejected, or its answer has a success status and a body
    that does not parse, the whole details batch answers 500 and no
    Venue is returned, whatever the other lookups found; both
    variants. *)
Theorem details_rejection_fails_batch :
  forall (u : upstream) (key : option string) (ids : string)
         (i : nat) (id : string) (e : exn),
    configured key = true ->
    ids <> "" ->
    (u Json i (PlaceRequest id) = Throw e \/
     exists r, u Json i (PlaceRequest id) = Ok r /\ ok r = true /\ json r = Throw e) ->
    (Hardened.placeIds ids !! i = Some id ->
     exists msg,
       fst (run u 0 (Hardened.places_details key (Some ids))) = Reply 500 (Error msg)) /\
    (Server.placeIds ids !! i = Some id ->
     exists msg,
       fst (run u 0 (Server.places_details key (Some ids))) = Reply 500 (Error msg)).
Proof.
  intros u key ids i id e Hkey Hne Hfail. split; intros Hid.
  - assert (Hids : Hardened.placeIds ids <> []) by (intros H; rewrite H in Hid; discriminate).
    rewrite (Hardened_details_run u key ids Hkey Hids). cbn [fst].
    destruct (map_raises Hardened.lookup
                (outcomes u 0 (map PlaceRequest (Hardened.placeIds ids)))
                i (u Json i (PlaceRequest id)) e) as [e' ->].
    + refine (outcomes_lookup u _ 0 i (PlaceRequest id) _).
      rewrite list_lookup_fmap, Hid. reflexivity.
    + destruct Hfail as [-> | (r & -> & Hok & Hjson)]; [reflexivity|].
      cbn [body_of] in *. unfold Hardened.lookup. cbn [bind].
      rewrite Hok, Hjson. reflexivity.
    + eexists. reflexivity.
  - rewrite (Server_details_run u key ids Hkey Hne). cbn [fst].
    destruct (map_raises Server.lookup
                (outcomes u 0 (map PlaceRequest (Server.placeIds ids)))
                i (u Json i (PlaceRequest id)) e) as [e' ->].
    + refine (outcomes_lookup u _ 0 i (PlaceRequest id) _).
      rewrite list_lookup_fmap, Hid. reflexivity.
    + destruct Hfail as [-> | (r & -> & Hok & Hjson)]; [reflexivity|].
      cbn [body_of] in *. unfold Server.lookup. cbn [bind].
      rewrite Hjson. reflexivity.
    + eexists. reflexivity.
Qed.

Lemma details_rejection_fails_batch_witness :
  (exists msg,
     fst (run (rejecting "b") 0 (Hardened.places_details (Some "k") (Some "a, b ,c")))
     = Reply 500 (Error msg)) /\
  (exists msg,
     fst (run (rejecting "b") 0 (Server.places_details (Some "k") (Some "a,b,c")))
     = Reply 500 (Error msg)).
Proof.
  split.
  - apply (details_rejection_fails_batch (rejecting "b") (Some "k") "a, b ,c"
             1 "b" (Rejected "fetch failed") eq_refl);
      [discriminate|left; reflexivity|reflexivity].
  - apply (details_rejection_fails_batch (rejecting "b") (Some "k") "a,b,c"
             1 "b" (Rejected "fetch failed") eq_refl);
      [discriminate|left; reflexivity|reflexivity].
Defined.

(** ** Identifiers looked up *)

Lemma trimStart_chars (s : string) (c : ascii) :
  In c (chars (Str.trimStart s)) -> In c (chars s).
Proof.
  induction s as [|d s IH]; simpl; [tauto|].
  destruct (Str.is_space d); simpl; tauto.
Qed.

Lemma trimEnd_chars (s : string) (c : ascii) :
  In c (chars (Str.trimEnd s)) -> In c (chars s).
Proof.
  induction s as [|d s IH]; simpl; [tauto|].
  destruct (Str.trimEnd s) as [|d' t].
  - destruct (Str.is_space d); simpl; tauto.
  - simpl in *. tauto.
Qed.

Lemma trim_chars (s : string) (c : ascii) :
  In c (chars (Str.trim s)) -> In c (chars s).
Proof. intros H. apply trimStart_chars, trimEnd_chars, H. Qed.

Lemma trimStart_head (s : string) :
  match Str.trimStart s with
  | EmptyString => True
  | String c _ => Str.is_space c = false
  end.
Proof.
  induction s as [|d s IH]; simpl; [exact I|].
  destruct (Str.is_space d) eqn:Hd; [exact IH|exact Hd].
Qed.

Lemma trimEnd_idempotent (s : string) :
  Str.trimEnd (Str.trimEnd s) = Str.trimEnd s.
Proof.
  induction s as [|d s IH]; simpl; [reflexivity|].
  destruct (Str.trimEnd s) as [|d' t] eqn:Ht.
  - destruct (Str.is_space d) eqn:Hd; simpl; [reflexivity|]. rewrite Hd. reflexivity.
  - simpl. simpl in IH. rewrite IH. reflexivity.
Qed.

Lemma trimStart_trimEnd (s : string) :
  match s with
  | EmptyString => True
  | String c _ => Str.is_space c = false
  end ->
  Str.trimStart (Str.trimEnd s) = Str.trimEnd s.
Proof.
  destruct s as [|c s]; [reflexivity|]. intros Hc. simpl.
  destruct (Str.trimEnd s); rewrite ?Hc; simpl; rewrite Hc; reflexivity.
Qed.

Lemma trim_idempotent (s : string) : Str.trim (Str.trim s) = Str.trim s.
Proof.
  unfold Str.trim.
  rewrite (trimStart_trimEnd (Str.trimStart s) (trimStart_head s)).
  apply trimEnd_idempotent.
Qed.

Lemma placeIds_clean (ids : string) : Forall clean_id (Hardened.placeIds ids).
Proof.
  unfold Hardened.placeIds. apply Forall_take. apply List.Forall_forall.
  intros id Hin. apply List.filter_In in Hin as [Hin Hne].
  apply List.in_map_iff in Hin as (seg & <- & Hseg).
  split; [|split].
  - intros Heq. rewrite Heq in Hne. discriminate Hne.
  - apply trim_idempotent.
  - intros Hc. apply trim_chars in Hc.
    assert (Hall := split_no_sep "," ids). rewrite List.Forall_forall in Hall.
    exact (Hall seg Hseg Hc).
Qed.

(** X20. Every identifier the hardened details batch looks up is
    clean: not empty, with no white space around it and no comma in
    it; this for every request and every upstream. *)
Theorem Hardened_details_looks_up_clean_ids :
  forall (u : upstream) (key ids : option string),
    Forall clean_lookup (snd (run u 0 (Hardened.places_details key ids))).
Proof.
  intros u key ids.
  destruct (configured key) eqn:Hkey.
  2:{ unfold Hardened.places_details. rewrite Hkey. constructor. }
  destruct ids as [[|c ids]|].
  1,3: unfold Hardened.places_details; rewrite Hkey; constructor.
  destruct (Hardened.placeIds (String c ids)) as [|id l] eqn:Hids.
  - unfold Hardened.places_details. rewrite Hkey.
    cbn [negb param_truthy param_string]. rewrite Hids. constructor.
  - rewrite Hardened_details_run by (assumption || congruence).
    cbn [snd]. unfold calls. rewrite List.map_map. apply List.Forall_map.
    eapply Forall_impl; [|apply placeIds_clean].
    intros id' Hclean. exists id'. split; [reflexivity|exact Hclean].
Qed.

(** X21. The plain details batch looks up the first segments of the
    raw list as they are, at most 10 and at least one: an identifier
    keeps its white space and may be empty, and a non-empty list never
    gets the answer 400. *)
Theorem Server_details_looks_up_raw_segments :
  forall (u : upstream) (key : option string) (ids : string),
    configured key = true ->
    ids <> "" ->
    exists first rest,
      take 10 (Str.split "," ids) = first :: rest /\
      snd (run u 0 (Server.places_details key (Some ids)))
      = calls (map PlaceRequest (first :: rest)) /\
      forall msg,
        fst (run u 0 (Server.places_details key (Some ids))) <> Reply 400 (Error msg).
Proof.
  intros u key ids Hkey Hne.
  destruct (split_cons "," ids) as (first & t & Hsplit).
  exists first, (take 9 t).
  assert (Hids : Server.placeIds ids = first :: take 9 t).
  { unfold Server.placeIds. rewrite Hsplit. reflexivity. }
  split; [rewrite Hsplit; reflexivity|].
  rewrite (Server_details_run u key ids Hkey Hne), Hids. split; [reflexivity|].
  intros msg. cbn [fst].
  destruct (Js.map_ Server.lookup _); cbn [bind catch]; discriminate.
Qed.

Lemma Server_details_looks_up_raw_segments_witness :
  snd (run (places_but []) 0 (Server.places_details (Some "k") (Some " a,,b ")))
  = calls (map PlaceRequest [" a"; ""; "b "]).
Proof.
  destruct (Server_details_looks_up_raw_segments (places_but []) (Some "k") " a,,b "
              eq_refl) as (first & rest & Htake & Hcalls & _).
  - discriminate.
  - rewrite Hcalls, <- Htake. reflexivity.
Defined.

(** ** Venue normalizer: invariants *)

Lemma or_cases (a b : value) :
  (Js.truthy a = true /\ Js.or_ a b = a) \/ (Js.truthy a = false /\ Js.or_ a b = b).
Proof. unfold Js.or_. destruct (Js.truthy a); auto. Qed.

Lemma normalize_fields (place : value) (v : Venue) :
  normalize place = Ok v ->
  exists tx ra rc price fa ty ph ws mu,
    v = {| place_id := field "id" place;
           name := Js.or_ tx (VStr "Unknown");
           geometry_lat := geometry_lat v;
           geometry_lng := geometry_lng v;
           rating := Js.or_ ra (VNum (Num.of_Z 0));
           user_ratings_total := Js.or_ rc (VNum (Num.of_Z 0));
           price_level := VNum price;
           vicinity := Js.or_ fa (VStr "");
           types := Js.or_ ty (VArr []);
           open_now := open_now v;
           phone := Js.or_ ph VNull;
           website := Js.or_ ws VNull;
           maps_url := Js.or_ mu VNull |}.
Proof.
  intros H. assert (Hget := fun k => get_field place k v H).
  unfold normalize in H. rewrite !Hget in H. cbn [bind] in H.
  destruct (get_opt_total (field "displayName" place) "text") as [tx Htx].
  destruct (get_opt_total (field "location" place) "latitude") as [la Hla].
  destruct (get_opt_total (field "location" place) "longitude") as [lo Hlo].
  destruct (get_opt_total (field "currentOpeningHours" place) "openNow") as [op Hop].
  rewrite Htx, Hla, Hlo in H. cbn [bind] in H.
  destruct (Js.truthy (field "priceLevel" place)).
  - destruct (Js.replace (field "priceLevel" place) "PRICE_LEVEL_") as [tier|e];
      cbn [bind] in H; [|discriminate].
    rewrite Hop in H. cbn [bind] in H. injection H as <-.
    exists tx, (field "rating" place), (field "userRatingCount" place),
      (Parse.parseInt tier), (field "formattedAddress" place), (field "types" place),
      (field "internationalPhoneNumber" place), (field "websiteUri" place),
      (field "googleMapsUri" place).
    reflexivity.
  - cbn [bind] in H. rewrite Hop in H. cbn [bind] in H. injection H as <-.
    exists tx, (field "rating" place), (field "userRatingCount" place),
      (Num.of_Z 3), (field "formattedAddress" place), (field "types" place),
      (field "internationalPhoneNumber" place), (field "websiteUri" place),
      (field "googleMapsUri" place).
    reflexivity.
Qed.

(** X22. Whatever the record, a Venue that the normalizer returns
    has a name that is never empty or missing, a numeric price level,
    a rating and a rating count that are the number 0 when missing, an
    address that is the empty string when missing, a tag list that is
    never missing, and a phone, a website and a maps URL that are
    [null] when missing, never undefined nor empty. *)
Theorem normalize_defaults :
  forall (place : value) (v : Venue),
    normalize place = Ok v ->
    place_id v = field "id" place /\
    Js.truthy (name v) = true /\
    (exists n, price_level v = VNum n) /\
    (Js.truthy (rating v) = true \/ rating v = VNum (Finite 0)) /\
    (Js.truthy (user_ratings_total v) = true \/ user_ratings_total v = VNum (Finite 0)) /\
    (Js.truthy (vicinity v) = true \/ vicinity v = VStr "") /\
    Js.truthy (types v) = true /\
    Forall (fun x => Js.truthy x = true \/ x = VNull) [phone v; website v; maps_url v].
Proof.
  intros place v H.
  destruct (normalize_fields place v H)
    as (tx & ra & rc & price & fa & ty & ph & ws & mu & ->).
  cbn [place_id name price_level rating user_ratings_total vicinity types
       phone website maps_url].
  split; [reflexivity|]. split.
  { destruct (or_cases tx (VStr "Unknown")) as [[Ht ->]|[_ ->]]; [exact Ht|reflexivity]. }
  split; [eauto|]. split.
  { destruct (or_cases ra (VNum (Num.of_Z 0))) as [[Ht ->]|[_ ->]]; auto. }
  split.
  { destruct (or_cases rc (VNum (Num.of_Z 0))) as [[Ht ->]|[_ ->]]; auto. }
  split.
  { destruct (or_cases fa (VStr "")) as [[Ht ->]|[_ ->]]; auto. }
  split.
  { destruct (or_cases ty (VArr [])) as [[Ht ->]|[_ ->]]; [exact Ht|reflexivity]. }
  apply Forall_cons; [|apply Forall_cons; [|apply Forall_cons; [|apply Forall_nil]]].
  - destruct (or_cases ph VNull) as [[Ht ->]|[_ ->]]; auto.
  - destruct (or_cases ws VNull) as [[Ht ->]|[_ ->]]; auto.
  - destruct (or_cases mu VNull) as [[Ht ->]|[_ ->]]; auto.
Qed.

Lemma normalize_defaults_witness :
  exists v,
    normalize (VObj [("id", VStr "p"); ("displayName", VObj [("text", VStr "")]);
                     ("websiteUri", VStr ""); ("rating", VNum NaN)]) = Ok v /\
    Js.truthy (name v) = true /\
    Forall (fun x => Js.truthy x = true \/ x = VNull) [phone v; website v; maps_url v].
Proof.
  eexists. split; [reflexivity|].
  match goal with |- Js.truthy (name ?v) = true /\ _ =>
    destruct (normalize_defaults
                (VObj [("id", VStr "p"); ("displayName", VObj [("text", VStr "")]);
                       ("websiteUri", VStr ""); ("rating", VNum NaN)]) v eq_refl)
      as (_ & Hname & _ & _ & _ & _ & _ & Hnull)
  end.
  split; [exact Hname|exact Hnull].
Defined.

(** ** Nightlife classifier: the keywords that count *)

Lemma prefix_app (a s : string) :
  String.prefix a s = true <-> exists post, s = (a ++ post)%string.
Proof.
  revert a. induction s as [|b s IH]; intros a.
  - destruct a as [|c a]; simpl.
    + split; [exists EmptyString; reflexivity|reflexivity].
    + split; [discriminate|]. intros [post H]. discriminate H.
  - destruct a as [|c a]; simpl.
    + split; [eexists; reflexivity|reflexivity].
    + destruct (Ascii.ascii_dec c b) as [->|Hne].
      * rewrite IH. split; intros [post H]; exists post; [rewrite H|]; congruence.
      * split; [discriminate|]. intros [post H]. congruence.
Qed.

Lemma append_assoc (a b c : string) : ((a ++ b) ++ c = a ++ (b ++ c))%string.
Proof. induction a as [|x a IH]; simpl; [reflexivity|]. rewrite IH. reflexivity. Qed.

Lemma includes_app (s sub : string) :
  Str.includes s sub = true <-> exists pre post, s = (pre ++ sub ++ post)%string.
Proof.
  induction s as [|c s IH]; cbn [Str.includes].
  - rewrite orb_false_r, prefix_app. split.
    + intros [post H]. exists EmptyString, post. exact H.
    + intros (pre & post & H). destruct pre as [|x pre]; [|discriminate H].
      exists post. exact H.
  - rewrite orb_true_iff, prefix_app, IH. split.
    + intros [[post H]|(pre & post & H)].
      * exists EmptyString, post. exact H.
      * exists (String c pre), post. simpl. rewrite H. reflexivity.
    + intros (pre & post & H). destruct pre as [|x pre].
      * left. exists post. exact H.
      * right. injection H as _ H. exists pre, post. exact H.
Qed.

Lemma includes_trans (s a b : string) :
  Str.includes s a = true -> Str.includes a b = true -> Str.includes s b = true.
Proof.
  rewrite !includes_app. intros (pre & post & ->) (pre' & post' & ->).
  exists (pre ++ pre')%string, (post' ++ post)%string.
  rewrite !append_assoc. reflexivity.
Qed.

Lemma contains_keyword_core (s : string) :
  contains_keyword s \/ Str.includes s "bar" = true <-> contains_core_keyword s.
Proof.
  unfold contains_keyword, contains_core_keyword. split.
  - intros [(kw & Hin & H)|H].
    + simpl in Hin.
      destruct Hin as [<-|[<-|[<-|[<-|[<-|[<-|[]]]]]]];
        try (eexists; split; [|exact H]; simpl; tauto);
        exists "bar"; (split; [simpl; tauto|]);
        (eapply includes_trans; [exact H|reflexivity]).
    + exists "bar". split; [simpl; tauto|exact H].
  - intros (kw & Hin & H). left. exists kw. split; [|exact H].
    simpl in Hin |- *. tauto.
Qed.

(** X23. Two of the six keywords and the separate test of [bar] on
    the tags change nothing: [wine_bar] and [cocktail_bar] contain
    [bar], so a well-formed record is accepted exactly when its
    primary category or one of its tags contains [bar], [night_club],
    [pub] or [lounge], or its lower-cased name contains [bar],
    [lounge], [club] or [pub]. *)
Theorem isNightlifeVenue_core_keywords :
  forall place,
    Shape.well_formed place = true ->
    (isNightlifeVenue place = Ok true <-> Nightlife_core place) /\
    (isNightlifeVenue place = Ok false <-> ~ Nightlife_core place).
Proof.
  intros place Hwf. destruct (well_formed_object _ Hwf) as [fields ->].
  rewrite (isNightlifeVenue_well_formed fields Hwf).
  assert (Hiff : classify (primaryCategory (VObj fields)) (categoryTags (VObj fields))
                   (Str.toLowerCase (displayName (VObj fields))) = true
                 <-> Nightlife_core (VObj fields)).
  { rewrite classify_iff. unfold Nightlife_core. split.
    - intros [H|[(t & Ht & H)|H]].
      + left. apply contains_keyword_core. left. exact H.
      + right. left. exists t. split; [exact Ht|]. apply contains_keyword_core, H.
      + right. right. exact H.
    - intros [H|[(t & Ht & H)|H]].
      + apply contains_keyword_core in H as [H|H]; [left; exact H|].
        left. exists "bar". split; [simpl; tauto|exact H].
      + right. left. exists t. split; [exact Ht|]. apply contains_keyword_core, H.
      + right. right. exact H. }
  split.
  - rewrite <- Hiff. split; [intros [= ->]; reflexivity|intros ->; reflexivity].
  - rewrite <- Hiff. split.
    + intros [= ->]. discriminate.
    + intros H. destruct (classify _ _ _); [exfalso; apply H|]; reflexivity.
Qed.

Lemma isNightlifeVenue_core_keywords_witness :
  Nightlife_core (rooftop "Sky Terrace" []) /\ ~ Nightlife_core coffee_house.
Proof.
  split.
  - apply (isNightlifeVenue_core_keywords (rooftop "Sky Terrace" []) eq_refl).
    reflexivity.
  - apply (isNightlifeVenue_core_keywords coffee_house eq_refl). reflexivity.
Defined.

(** ** Cross-origin policy *)

(** X24. The cross-origin policy of the hardened server lets a
    request without origin through, lets every origin through when the
    configured list is absent or holds only blanks, and otherwise lets
    an origin through exactly when it is, character for character, the
    trimmed text of one entry of the list. *)
Theorem Cors_policy :
  forall (env : option string) (o : string),
    o <> "" ->
    Cors.origin (Cors.allowedCorsOrigins env) None = true /\
    Cors.origin (Cors.allowedCorsOrigins env) (Some "") = true /\
    Cors.allowedCorsOrigins None = [] /\
    (Cors.allowedCorsOrigins env = [] ->
     Cors.origin (Cors.allowedCorsOrigins env) (Some o) = true) /\
    (Cors.allowedCorsOrigins env <> [] ->
     (Cors.origin (Cors.allowedCorsOrigins env) (Some o) = true <->
      exists entry, In entry (Str.split "," (param_or_empty env)) /\ Str.trim entry = o)).
Proof.
  intros env o Ho. split; [reflexivity|]. split; [reflexivity|].
  split; [reflexivity|]. split.
  - intros ->. destruct o; reflexivity.
  - intros Hne. unfold Cors.origin. destruct o as [|c o]; [congruence|].
    cbn [param_truthy negb param_string].
    destruct (Cors.allowedCorsOrigins env) as [|e l] eqn:Hl; [congruence|].
    cbn [length Nat.eqb orb]. rewrite <- Hl.
    assert (Henv : (if param_truthy env then param_string env else "")
                   = param_or_empty env).
    { destruct env as [[|x env]|]; reflexivity. }
    split.
    + intros H. destruct (existsb _ _) eqn:Hex; [|discriminate].
      apply existsb_exists in Hex as (entry & Hin & Heq).
      apply String.eqb_eq in Heq. subst entry.
      unfold Cors.allowedCorsOrigins in Hin. rewrite Henv in Hin.
      apply List.filter_In in Hin as [Hin _].
      apply List.in_map_iff in Hin as (seg & Hseg & Hin). eauto.
    + intros (entry & Hin & Htrim).
      assert (Hex : existsb (String.eqb (String c o)) (Cors.allowedCorsOrigins env) = true).
      { apply existsb_exists. exists (String c o). split; [|apply String.eqb_refl].
        unfold Cors.allowedCorsOrigins. rewrite Henv. apply List.filter_In. split.
        - rewrite <- Htrim. apply List.in_map. exact Hin.
        - reflexivity. }
      rewrite Hex. reflexivity.
Qed.

Lemma Cors_policy_witness :
  Cors.origin (Cors.allowedCorsOrigins (Some " , ")) (Some "https://evil.example") = true /\
  Cors.origin (Cors.allowedCorsOrigins (Some " https://a.example ,https://b.example"))
    (Some "https://a.example") = true.
Proof.
  split.
  - destruct (Cors_policy (Some " , ") "https://evil.example") as (_ & _ & _ & H & _);
      [discriminate|].
    apply H. reflexivity.
  - destruct (Cors_policy (Some " https://a.example ,https://b.example")
                "https://a.example") as (_ & _ & _ & _ & H); [discriminate|].
    apply H; [discriminate|].
    exists " https://a.example ". split; [simpl; tauto|reflexivity].
Defined.

(** ** Health check *)

Lemma substring_prefix (n : nat) (s : string) :
  String.prefix (String.substring 0 n s) s = true /\
  String.length (String.substring 0 n s) = Nat.min n (String.length s).
Proof.
  revert n. induction s as [|c s IH]; intros [|n]; try (split; reflexivity).
  destruct (IH n) as [Hp Hl]. cbn [String.substring String.length Nat.min].
  split; [|rewrite Hl; reflexivity].
  cbn [String.prefix]. destruct (Ascii.ascii_dec c c); [exact Hp|congruence].
Qed.

(** X25. The health check of the plain server discloses the
    beginning of the credential: the preview is the first 8 characters
    of the key followed by three dots, the whole key when it has at
    most 8 characters.  The health check of the hardened server has
    no preview. *)
Theorem Server_health_discloses_key_prefix :
  forall (key : string),
    key <> "" ->
    (exists shown,
       keyPreview (Server_health (Some key)) = Some (shown ++ "...")%string /\
       String.prefix shown key = true /\
       String.length shown = Nat.min 8 (String.length key)) /\
    ((String.length key <= 8)%nat ->
     keyPreview (Server_health (Some key)) = Some (key ++ "...")%string) /\
    keyPreview (Hardened_health (Some key)) = None /\
    hasApiKey (Hardened_health (Some key)) = true.
Proof.
  intros key Hkey.
  assert (Hconf : configured (Some key) = true)
    by (destruct key; [congruence|reflexivity]).
  unfold Server_health, Hardened_health. cbn [keyPreview hasApiKey param_string].
  rewrite Hconf. destruct (substring_prefix 8 key) as [Hp Hl].
  split; [|split; [|split; reflexivity]].
  - exists (String.substring 0 8 key). auto.
  - intros Hlen. do 2 f_equal. clear Hp Hl Hconf Hkey.
    revert Hlen. generalize 8%nat. induction key as [|c key IH]; intros [|n] Hlen;
      try reflexivity; cbn [String.length] in Hlen; [lia|].
    cbn [String.substring]. rewrite IH by lia. reflexivity.
Qed.

Lemma Server_health_discloses_key_prefix_witness :
  keyPreview (Server_health (Some "s3cr3t")) = Some "s3cr3t...".
Proof.
  destruct (Server_health_discloses_key_prefix "s3cr3t") as (_ & H & _); [discriminate|].
  apply H. simpl. lia.
Defined.

(** ** Booking links *)

Lemma encode_app (a b : string) :
  Uri.encodeURIComponent (a ++ b)
  = (Uri.encodeURIComponent a ++ Uri.encodeURIComponent b)%string.
Proof.
  induction a as [|c a IH]; [reflexivity|].
  cbn [String.append Uri.encodeURIComponent]. rewrite IH, append_assoc. reflexivity.
Qed.

(** X26. The booking search refuses a request without a venue name
    with 400.  With a name it answers with the name as given and with
    two links put together from parts encoded one by one: the search
    link holds the encoded name, then the encoded location after an
    encoded space when there is one, then the word [reservations]
    after an encoded space; the reservation link holds the encoded
    name. *)
Theorem booking_search_links :
  forall (name : string) (location : option string),
    booking_search None location = BookingError 400 "Venue name is required" /\
    booking_search (Some "") location = BookingError 400 "Venue name is required" /\
    (name <> "" ->
     exists links,
       booking_search (Some name) location = BookingOk links /\
       venue links = name /\
       googleSearchUrl links
       = ("https://www.google.com/search?q=" ++ Uri.encodeURIComponent name ++
          match param_or_empty location with
          | EmptyString => ""
          | String _ _ as l => "%20" ++ Uri.encodeURIComponent l
          end ++ "%20reservations")%string /\
       sevenroomsUrl links
       = ("https://www.sevenrooms.com/explore/search/" ++ Uri.encodeURIComponent name)%string /\
       whatsappMsg links
       = ("Hi, I'd like to make a reservation at " ++ name ++
          ". Do you have availability?")%string).
Proof.
  intros name location. split; [reflexivity|]. split; [reflexivity|].
  intros Hname. unfold booking_search.
  destruct name as [|c name]; [congruence|].
  cbn [param_truthy negb param_string].
  eexists. split; [reflexivity|].
  cbn [venue googleSearchUrl sevenroomsUrl whatsappMsg].
  split; [reflexivity|]. split; [|split; reflexivity].
  do 1 f_equal.
  destruct location as [[|x l]|]; cbn [param_truthy param_string param_or_empty].
  - rewrite encode_app. reflexivity.
  - rewrite !encode_app. rewrite !append_assoc. reflexivity.
  - rewrite encode_app. reflexivity.
Qed.

Lemma booking_search_links_witness :
  exists links,
    booking_search (Some "Joe's Bar & Grill") (Some "New York") = BookingOk links /\
    googleSearchUrl links
    = "https://www.google.com/search?q=Joe's%20Bar%20%26%20Grill%20New%20York%20reservations".
Proof.
  destruct (booking_search_links "Joe's Bar & Grill" (Some "New York"))
    as (_ & _ & H).
  destruct H as (links & Hok & _ & Hurl & _); [discriminate|].
  exists links. split; [exact Hok|]. rewrite Hurl. reflexivity.
Defined.

Lemma encode_unit_link_chars (c : ascii) :
  forallb link_char (chars (Uri.encode_unit c)) = true.
Proof. destruct c as [[] [] [] [] [] [] [] []]; reflexivity. Qed.

Lemma chars_app (a b : string) : chars (a ++ b) = (chars a ++ chars b)%list.
Proof. induction a as [|c a IH]; simpl; [reflexivity|]. rewrite IH. reflexivity. Qed.

Lemma encode_link_chars (s : string) :
  forallb link_char (chars (Uri.encodeURIComponent s)) = true.
Proof.
  induction s as [|c s IH]; [reflexivity|].
  cbn [Uri.encodeURIComponent]. rewrite chars_app, forallb_app.
  rewrite encode_unit_link_chars, IH. reflexivity.
Qed.

(** X27. After their fixed beginning the two booking links hold only
    letters, digits, the marks [- _ . ! ~ * ' ( )] and the percent
    sign, whatever the name and the location: no space, no ampersand,
    no question mark, no hash, no slash can come from the request. *)
Theorem booking_links_are_encoded :
  forall (name location : option string) (links : BookingLinks),
    booking_search name location = BookingOk links ->
    exists q r,
      googleSearchUrl links = ("https://www.google.com/search?q=" ++ q)%string /\
      sevenroomsUrl links = ("https://www.sevenrooms.com/explore/search/" ++ r)%string /\
      forallb link_char (chars q) = true /\
      forallb link_char (chars r) = true /\
      forallb (fun c => negb (link_char c)) (chars " &?#/=+") = true.
Proof.
  intros name location links H. unfold booking_search in H.
  destruct (param_truthy name); cbn [negb] in H; [|discriminate].
  injection H as <-. cbn [googleSearchUrl sevenroomsUrl].
  eexists _, _. split; [reflexivity|]. split; [reflexivity|].
  split; [apply encode_link_chars|]. split; [apply encode_link_chars|reflexivity].
Qed.

Lemma booking_links_are_encoded_witness :
  exists links q r,
    booking_search (Some "A/B?c=d&e#f") (Some "x y") = BookingOk links /\
    googleSearchUrl links = ("https://www.google.com/search?q=" ++ q)%string /\
    sevenroomsUrl links = ("https://www.sevenrooms.com/explore/search/" ++ r)%string /\
    forallb link_char (chars q) = true /\
    forallb link_char (chars r) = true.
Proof.
  eexists.
  match goal with |- exists q r, ?b = BookingOk ?l /\ _ =>
    destruct (booking_links_are_encoded (Some "A/B?c=d&e#f") (Some "x y") l eq_refl)
      as (q & r & Hq & Hr & Hcq & Hcr & _)
  end.
  exists q, r. repeat split; assumption.
Defined.

Lemma bytes_unit (c : ascii) (rest : string) :
  Decode.bytes (Uri.encode_unit c ++ rest)
  = (Decode.bytes (Uri.encode_unit c) ++ Decode.bytes rest)%list.
Proof. destruct c as [[] [] [] [] [] [] [] []]; reflexivity. Qed.

Lemma units_unit (c : ascii) (bs : list nat) :
  Decode.units (Decode.bytes (Uri.encode_unit c) ++ bs) = String c (Decode.units bs).
Proof. destruct c as [[] [] [] [] [] [] [] []]; reflexivity. Qed.

Lemma decode_encode (s : string) : Decode.decode (Uri.encodeURIComponent s) = s.
Proof.
  unfold Decode.decode. induction s as [|c s IH]; [reflexivity|].
  cbn [Uri.encodeURIComponent]. rewrite bytes_unit, units_unit, IH. reflexivity.
Qed.

Lemma append_cancel (p a b : string) : (p ++ a = p ++ b)%string -> a = b.
Proof. induction p as [|c p IH]; simpl; [tauto|]. intros [= H]. exact (IH H). Qed.

(** X28. The reservation link determines the venue name: two
    requests that are answered with the same reservation link have the
    same name, so that different names never share a link. *)
Theorem booking_link_determines_name :
  forall (name name' location location' : option string) (links links' : BookingLinks),
    booking_search name location = BookingOk links ->
    booking_search name' location' = BookingOk links' ->
    sevenroomsUrl links = sevenroomsUrl links' ->
    venue links = venue links' /\ name = name'.
Proof.
  intros name name' location location' links links' H H'.
  unfold booking_search in H, H'.
  destruct (param_truthy name) eqn:Hn; cbn [negb] in H; [|discriminate].
  destruct (param_truthy name') eqn:Hn'; cbn [negb] in H'; [|discriminate].
  injection H as <-. injection H' as <-. cbn [sevenroomsUrl venue].
  intros Heq.
  apply (append_cancel "https://www.sevenrooms.com/explore/search/") in Heq.
  assert (Hs : param_string name = param_string name').
  { rewrite <- (decode_encode (param_string name)), Heq. apply decode_encode. }
  split; [exact Hs|].
  destruct name as [[|c n]|], name' as [[|c' n']|]; try discriminate.
  cbn [param_string] in Hs. rewrite Hs. reflexivity.
Qed.

Lemma booking_link_determines_name_witness :
  exists links links',
    booking_search (Some "Caf& Bar") None = BookingOk links /\
    booking_search (Some "Caf& Bar") (Some "Lyon") = BookingOk links' /\
    venue links = venue links'.
Proof.
  eexists. eexists. split; [reflexivity|]. split; [reflexivity|].
  refine (proj1 (booking_link_determines_name (Some "Caf& Bar") (Some "Caf& Bar")
                   None (Some "Lyon") _ _ eq_refl eq_refl eq_refl)).
Defined.

(** ** Unit formatter on whole numbers

    The handlers pass [formatDuration] and [formatDistance] integers:
    seconds read by [parseInt] and the metres of a leg.  The lemmas
    below carry the two formatters over to integer arithmetic: the
    quotients stay within the rounding bound of [Num.nearest], and
    the shortest decimal of an integer up to 2^53 is made of its
    digits. *)

Lemma Qdiv_integers (n : Z) (d : positive) :
  Qdiv (inject_Z n) (inject_Z (Zpos d)) = (n # d).
Proof.
  unfold Qdiv, Qmult, Qinv, inject_Z. simpl. rewrite Z.mul_1_r. reflexivity.
Qed.

(** Division of a positive integer below 2^53 by a positive integer:
    the quotient is finite and within half a unit in the last place
    of the exact one. *)
Lemma div_integers (n : Z) (d : positive) (E : Z) :
  0 < n < 2 ^ 53 -> Z.max (52 - Z.log2 (Zpos d)) (-1022) <= E <= 52 ->
  Num.div (Finite (inject_Z n)) (Finite (inject_Z (Zpos d)))
  = Finite (Num.nearest (n # d)) /\
  (Qabs (Num.nearest (n # d) - (n # d)) <= Num.Qpow2 (E - 53))%Q /\
  (forall k : Z, ((n # d) * Num.Qpow2 (52 - E) == inject_Z k)%Q ->
                 (Num.nearest (n # d) == (n # d))%Q).
Proof.
  intros Hn HE.
  assert (Hq : (0 < n # d)%Q) by (unfold Qlt; simpl; lia).
  assert (He : Z.max (Num.ilog2 (n # d)) (-1022) <= E).
  { pose proof (ilog2_le (n # d)) as H. cbn [Qnum Qden] in H.
    pose proof (log2_below n 53 Hn). lia. }
  split; [|split].
  - unfold Num.div, Num.is_zero.
    change (Qeq_bool (inject_Z (Z.pos d)) 0) with false.
    rewrite Qdiv_integers. apply (nearest_below _ E Hq He).
    apply Qlt_le_trans with (inject_Z (2 ^ 53) + Num.Qpow2 0)%Q.
    + apply Qplus_lt_le_compat; [|apply Qpow2_le; lia].
      unfold Qlt. simpl. nia.
    + change (inject_Z (2 ^ 53) + Num.Qpow2 0)%Q
        with (inject_Z (2 ^ 53) + 1)%Q.
      apply Qle_trans with (Num.Qpow2 54); [|apply Qpow2_le; lia].
      vm_compute. discriminate.
  - apply (nearest_error _ E Hq He).
  - intros k Hk. apply (nearest_exact _ k E Hq He Hk).
Qed.

Lemma Qltb_integers (a b : Z) : Num.Qltb (inject_Z a) (inject_Z b) = (a <? b).
Proof.
  unfold Num.Qltb. destruct (Z.ltb_spec a b) as [H|H].
  - destruct (Qle_bool _ _) eqn:E; [|reflexivity].
    apply Qle_bool_iff in E. rewrite <- Zle_Qle in E. lia.
  - assert (E : Qle_bool (inject_Z b) (inject_Z a) = true)
      by (apply Qle_bool_iff; rewrite <- Zle_Qle; exact H).
    rewrite E. reflexivity.
Qed.

(** So is 2^53 itself. *)
Lemma of_Z_safe (z : Z) : 0 <= z <= 2 ^ 53 -> Num.of_Z z = Finite (inject_Z z).
Proof.
  intros Hz. destruct (Z.eq_dec z (2 ^ 53)) as [->|Hne];
    [vm_compute; reflexivity|apply of_Z_exact; lia].
Qed.

Lemma Qeq_bool_integers (a b : Z) : Qeq_bool (inject_Z a) (inject_Z b) = (a =? b).
Proof.
  destruct (Z.eqb_spec a b) as [->|Hne].
  - apply Qeq_bool_iff. reflexivity.
  - destruct (Qeq_bool _ _) eqn:E; [|reflexivity].
    apply Qeq_bool_iff in E. rewrite inject_Z_injective in E. congruence.
Qed.

(** An integer that is not [m] does not convert to [m]. *)
Lemma reads_as_integers (v m : Z) :
  0 < v < 2 ^ 54 -> 0 <= m < 2 ^ 53 ->
  Num.reads_as (inject_Z v) (inject_Z m) = (v =? m).
Proof.
  intros Hv Hm. unfold Num.reads_as.
  destruct (Z_le_gt_dec v (2 ^ 53)) as [Hsmall|Hbig].
  - change (Num.of_Q (inject_Z v)) with (Num.of_Z v).
    rewrite (of_Z_safe v) by lia. apply Qeq_bool_integers.
  - assert (Hq : (0 < inject_Z v)%Q).
    { change 0%Q with (inject_Z 0). rewrite <- Zlt_Qlt. lia. }
    assert (He : Z.max (Num.ilog2 (inject_Z v)) (-1022) <= 53).
    { pose proof (ilog2_le (inject_Z v)) as H. cbn [Qnum Qden inject_Z] in H.
      pose proof (log2_below v 54 ltac:(lia)). change (Z.log2 1) with 0 in H. lia. }
    pose proof (nearest_error _ 53 Hq He) as Herr.
    change (Num.Qpow2 (53 - 53)) with 1%Q in Herr.
    apply Qabs_Qle_condition in Herr as [Hlo Hhi].
    assert (Hv1 : (inject_Z (2 ^ 53) + 1 <= inject_Z v)%Q).
    { change 1%Q with (inject_Z 1). rewrite <- inject_Z_plus, <- Zle_Qle. lia. }
    assert (Hv2 : (inject_Z v < inject_Z (2 ^ 54))%Q) by (rewrite <- Zlt_Qlt; lia).
    assert (Hm1 : (inject_Z m < inject_Z (2 ^ 53))%Q) by (rewrite <- Zlt_Qlt; lia).
    rewrite (nearest_below _ 53 Hq He).
    + replace (v =? m) with false by (symmetry; apply Z.eqb_neq; lia).
      destruct (Qeq_bool _ _) eqn:E; [|reflexivity].
      apply Qeq_bool_iff in E. lra.
    + change (Num.Qpow2 (53 - 53)) with 1%Q.
      apply Qlt_le_trans with (inject_Z (2 ^ 54) + 1)%Q; [lra|].
      apply Qle_trans with (Num.Qpow2 55); [vm_compute; discriminate|].
      apply Qpow2_le. lia.
Qed.

Lemma Qpow10_integer (n : Z) : 0 <= n -> Num.Qpow10 n = inject_Z (10 ^ n).
Proof.
  intros Hn. unfold Num.Qpow10. destruct (Z.leb_spec 0 n); [reflexivity|lia].
Qed.

(** The decimal exponent of a positive integer is its number of
    digits. *)
Lemma exponent_from_integer (m D : Z) (fuel : nat) (n : Z) :
  0 <= n <= D -> D <= n + Z.of_nat fuel -> 10 ^ (D - 1) <= m < 10 ^ D ->
  Num.exponent_from fuel (inject_Z m) n = D.
Proof.
  intros Hn Hfuel Hm. revert n Hn Hfuel.
  induction fuel as [|fuel IH]; intros n Hn Hfuel; cbn [Num.exponent_from]; [lia|].
  rewrite (Qpow10_integer n) by lia. rewrite Qltb_integers.
  destruct (Z.ltb_spec m (10 ^ n)) as [Hlt|Hge].
  - assert (H : 10 ^ (D - 1) < 10 ^ n) by lia.
    apply Z.pow_lt_mono_r_iff in H; lia.
  - assert (H : 10 ^ n < 10 ^ D) by lia.
    apply Z.pow_lt_mono_r_iff in H; [|lia|lia].
    apply IH; lia.
Qed.

Lemma decimal_exponent_integer (m D : Z) :
  1 <= D <= 300 -> 10 ^ (D - 1) <= m < 10 ^ D ->
  Num.decimal_exponent (inject_Z m) = D.
Proof.
  intros HD Hm. unfold Num.decimal_exponent.
  assert (Hone : 1 <= m).
  { assert (0 < 10 ^ (D - 1)) by (apply Z.pow_pos_nonneg; lia). lia. }
  change 1%Q with (inject_Z 1). rewrite Qltb_integers.
  destruct (Z.ltb_spec m 1); [lia|].
  apply exponent_from_integer; [lia| |exact Hm]. cbn. lia.
Qed.

Lemma Qmult_integers (a b : Z) : Qmult (inject_Z a) (inject_Z b) = inject_Z (a * b).
Proof. reflexivity. Qed.

Lemma Qfloor_div_integers (m P : Z) :
  0 < P -> Qfloor (Qdiv (inject_Z m) (inject_Z P)) = m / P.
Proof.
  intros HP. destruct P as [|p|p]; try lia.
  rewrite Qdiv_integers. reflexivity.
Qed.

(** With [k] digits an integer has a candidate when its last [D - k]
    digits are zeros, and no other. *)
Lemma candidate_integer (m D k : Z) :
  1 <= k <= D -> D <= 16 -> 10 ^ (D - 1) <= m < 10 ^ D -> m < 2 ^ 53 ->
  Num.candidate (inject_Z m) D k
  = if m mod 10 ^ (D - k) =? 0 then Some (m / 10 ^ (D - k)) else None.
Proof.
  intros Hk HD Hm Hsafe. unfold Num.candidate.
  rewrite (Qpow10_integer (D - k)) by lia.
  set (P := 10 ^ (D - k)).
  assert (HP : 0 < P) by (apply Z.pow_pos_nonneg; lia).
  assert (HP' : P <= 10 ^ 15) by (apply Z.pow_le_mono_r; lia).
  assert (Hone : 1 <= m).
  { assert (0 < 10 ^ (D - 1)) by (apply Z.pow_pos_nonneg; lia). lia. }
  rewrite (Qfloor_div_integers m P HP). rewrite !Qmult_integers.
  pose proof (Z.div_mod m P ltac:(lia)) as Hdm.
  pose proof (Z.mod_pos_bound m P HP) as Hr.
  assert (Hf : 1 <= m / P).
  { apply Z.div_le_lower_bound; [exact HP|].
    rewrite Z.mul_1_r. unfold P.
    apply Z.le_trans with (10 ^ (D - 1)); [apply Z.pow_le_mono_r; lia|lia]. }
  rewrite (reads_as_integers (m / P * P) m) by nia.
  rewrite (reads_as_integers ((m / P + 1) * P) m) by nia.
  replace ((m / P + 1) * P =? m) with false by (symmetry; apply Z.eqb_neq; nia).
  destruct (Z.eqb_spec (m mod P) 0) as [Hz|Hnz].
  - replace (m / P * P =? m) with true by (symmetry; apply Z.eqb_eq; nia).
    reflexivity.
  - replace (m / P * P =? m) with false by (symmetry; apply Z.eqb_neq; nia).
    reflexivity.
Qed.

(** The search stops at the digits of [m] without its final zeros. *)
Lemma shortest_integer (m D : Z) (fuel : nat) (k : Z) :
  1 <= k <= D -> D <= 16 -> D - k < Z.of_nat fuel ->
  10 ^ (D - 1) <= m < 10 ^ D -> m < 2 ^ 53 ->
  exists k', k <= k' <= D /\
             Num.shortest fuel (inject_Z m) D k = (m / 10 ^ (D - k'), k') /\
             m mod 10 ^ (D - k') = 0.
Proof.
  intros Hk HD Hfuel Hm Hsafe. revert k Hk Hfuel.
  induction fuel as [|fuel IH]; intros k Hk Hfuel; [lia|].
  cbn [Num.shortest]. rewrite (candidate_integer m D k) by assumption.
  destruct (Z.eqb_spec (m mod 10 ^ (D - k)) 0) as [Hz|Hnz].
  - exists k. split; [lia|]. split; [reflexivity|exact Hz].
  - assert (Hlt : k < D).
    { destruct (Z.eq_dec k D) as [->|]; [|lia].
      exfalso. apply Hnz. rewrite Z.sub_diag. apply Z.mod_1_r. }
    destruct (IH (k + 1) ltac:(lia) ltac:(lia)) as (k' & Hk' & Heq & Hz).
    exists k'. split; [lia|]. split; assumption.
Qed.

Lemma append_empty (s : string) : (s ++ "")%string = s.
Proof. induction s as [|c s IH]; simpl; [|rewrite IH]; reflexivity. Qed.

Lemma string_of_revapp (l acc : Decimal.uint) :
  NilEmpty.string_of_uint (Decimal.revapp l acc)
  = (NilEmpty.string_of_uint (Decimal.rev l) ++ NilEmpty.string_of_uint acc)%string.
Proof.
  unfold Decimal.rev. revert acc.
  induction l as [|l IH|l IH|l IH|l IH|l IH|l IH|l IH|l IH|l IH|l IH]; intros acc;
    cbn [Decimal.revapp];
    [cbn; reflexivity| ..];
    rewrite IH; symmetry; rewrite IH, append_assoc; reflexivity.
Qed.

(** Ten times a positive integer is written with one more zero. *)
Lemma of_Z_tenfold (s : Z) : 0 < s -> Str.of_Z (10 * s) = (Str.of_Z s ++ "0")%string.
Proof.
  intros Hs. destruct s as [|p|p]; try lia.
  change (10 * Z.pos p) with (Z.pos (10 * p)).
  unfold Str.of_Z. cbn [Z.to_int NilEmpty.string_of_int]. unfold Pos.to_uint.
  pose proof (Unsigned.to_ldec_tenfold p) as H.
  change (Pos.to_little_uint (10 * p) = Decimal.D0 (Pos.to_little_uint p)) in H.
  rewrite H. unfold Decimal.rev at 1. cbn [Decimal.revapp].
  rewrite string_of_revapp. reflexivity.
Qed.

Lemma of_Z_zeros (s : Z) (j : nat) :
  0 < s -> Str.of_Z (s * 10 ^ Z.of_nat j) = (Str.of_Z s ++ Num.zeros j)%string.
Proof.
  intros Hs. revert s Hs. induction j as [|j IH]; intros s Hs.
  - rewrite Z.mul_1_r. cbn [Num.zeros]. rewrite append_empty. reflexivity.
  - rewrite Nat2Z.inj_succ, Z.pow_succ_r by lia.
    replace (s * (10 * 10 ^ Z.of_nat j)) with (10 * s * 10 ^ Z.of_nat j) by ring.
    rewrite IH by lia. rewrite of_Z_tenfold by lia.
    cbn [Num.zeros]. rewrite append_assoc. reflexivity.
Qed.

Lemma digits_count (m : Z) :
  1 <= m < 2 ^ 53 -> exists D, 1 <= D <= 16 /\ 10 ^ (D - 1) <= m < 10 ^ D.
Proof.
  intros Hm.
  assert (H : forall n : nat,
            m < 10 ^ Z.of_nat n -> (1 <= n)%nat ->
            exists D, 1 <= D <= Z.of_nat n /\ 10 ^ (D - 1) <= m < 10 ^ D).
  { induction n as [|n IH]; intros Hlt Hn; [lia|].
    destruct (Z_lt_le_dec m (10 ^ Z.of_nat n)) as [Hless|Hmore].
    - destruct n as [|n]; [cbn in Hless; lia|].
      destruct (IH Hless ltac:(lia)) as (D & HD & Hb). exists D. split; [lia|exact Hb].
    - exists (Z.of_nat (S n)). split; [lia|].
      replace (Z.of_nat (S n) - 1) with (Z.of_nat n) by lia. lia. }
  destruct (H 16%nat ltac:(cbn; lia) ltac:(lia)) as (D & HD & Hb).
  exists D. split; [lia|exact Hb].
Qed.

(** The shortest decimal of an integer up to 2^53 is made of its
    digits. *)
Lemma shortest_decimal_integer (m : Z) :
  1 <= m <= 2 ^ 53 -> Num.shortest_decimal (inject_Z m) = Str.of_Z m.
Proof.
  intros Hm. destruct (Z.eq_dec m (2 ^ 53)) as [->|Hne]; [vm_compute; reflexivity|].
  destruct (digits_count m ltac:(lia)) as (D & HD & Hb).
  unfold Num.shortest_decimal.
  rewrite (decimal_exponent_integer m D) by (try lia; exact Hb).
  destruct (shortest_integer m D 17 1 ltac:(lia) ltac:(lia) ltac:(cbn; lia) Hb ltac:(lia))
    as (k & Hk & -> & Hz).
  set (P := 10 ^ (D - k)) in *.
  assert (HP : 0 < P) by (apply Z.pow_pos_nonneg; lia).
  pose proof (Z.div_mod m P ltac:(lia)) as Hdm. rewrite Hz, Z.add_0_r in Hdm.
  assert (Hpow : 10 ^ D = 10 ^ k * P).
  { unfold P. rewrite <- Z.pow_add_r by lia. f_equal. lia. }
  assert (Hs : 0 < m / P < 10 ^ k) by nia.
  replace (m / P =? 10 ^ k) with false by (symmetry; apply Z.eqb_neq; lia).
  unfold Num.render.
  replace ((k <=? D) && (D <=? 21)) with true
    by (symmetry; apply andb_true_intro; split; apply Z.leb_le; lia).
  replace (Z.to_nat D - Z.to_nat k)%nat with (Z.to_nat (D - k)) by lia.
  rewrite <- of_Z_zeros by lia. rewrite Z2Nat.id by lia.
  f_equal. fold P. lia.
Qed.

(** A non-negative integer up to 2^53 prints as its decimal digits. *)
Lemma toString_integer (k : Z) :
  0 <= k <= 2 ^ 53 -> Num.toString (Finite (inject_Z k)) = Str.of_Z k.
Proof.
  intros Hk. unfold Num.toString, Num.is_zero.
  destruct (Z.eq_dec k 0) as [->|Hnz]; [reflexivity|].
  change 0%Q with (inject_Z 0). rewrite Qeq_bool_integers, Qltb_integers.
  replace (k =? 0) with false by (symmetry; apply Z.eqb_neq; exact Hnz).
  replace (k <? 0) with false by (symmetry; apply Z.ltb_ge; lia).
  assert (Hq : (0 < inject_Z k)%Q).
  { change 0%Q with (inject_Z 0). rewrite <- Zlt_Qlt. lia. }
  rewrite (Qabs_positive _ Hq). apply shortest_decimal_integer. lia.
Qed.

(** Euclidean division, in the rationals. *)
Lemma Q_div_mod (n : Z) (d : positive) :
  ((n # d) * inject_Z (Zpos d)
   == inject_Z (Zpos d) * inject_Z (n / Zpos d) + inject_Z (n mod Zpos d))%Q /\
  (0 <= inject_Z (n mod Zpos d) <= inject_Z (Zpos d) - 1)%Q /\
  (n mod Zpos d <> 0 -> (1 <= inject_Z (n mod Zpos d))%Q).
Proof.
  pose proof (Z.div_mod n (Zpos d) ltac:(lia)) as H.
  pose proof (Z.mod_pos_bound n (Zpos d) ltac:(lia)) as Hb.
  split; [|split].
  - rewrite <- inject_Z_mult, <- inject_Z_plus, <- H.
    unfold Qeq. simpl. lia.
  - split.
    + change 0%Q with (inject_Z 0). rewrite <- Zle_Qle. lia.
    + change 1%Q with (inject_Z 1). unfold Qminus.
      rewrite <- inject_Z_opp, <- inject_Z_plus, <- Zle_Qle. lia.
  - intros Hr. change 1%Q with (inject_Z 1). rewrite <- Zle_Qle. lia.
Qed.

(** [Math.round(seconds / 60)] on an integer number of seconds. *)
Lemma round_minutes (s : Z) :
  0 <= s < 2 ^ 53 ->
  Num.round (Num.div (Finite (inject_Z s)) (Finite (inject_Z 60)))
  = Finite (inject_Z ((s + 30) / 60)).
Proof.
  intros Hs. destruct (Z.eq_dec s 0) as [->|Hnz]; [reflexivity|].
  destruct (div_integers s 60 47 ltac:(lia) ltac:(cbn; lia))
    as (-> & Herr & Hexact).
  change (Num.Qpow2 (47 - 53)) with (1 # 64)%Q in Herr.
  change (Num.Qpow2 (52 - 47)) with 32%Q in Hexact.
  apply Qabs_Qle_condition in Herr as [Hlo Hhi].
  unfold Num.round. do 2 f_equal.
  destruct (Q_div_mod (s + 30) 60) as (Hdm & [Hr0 Hr1] & Hr2).
  assert (Hshift : ((s + 30 # 60) == (s # 60) + (1 # 2))%Q)
    by (unfold Qeq; simpl; lia).
  rewrite Hshift in Hdm.
  change (inject_Z 60) with 60%Q in *.
  set (k := (s + 30) / 60) in *.
  destruct (Z.eq_dec ((s + 30) mod 60) 0) as [Hz|Hz].
  - rewrite Hz in Hdm. change (inject_Z 0) with 0%Q in Hdm.
    assert (Hx : (Num.nearest (s # 60) == (s # 60))%Q).
    { apply (Hexact (32 * k + -16)). rewrite inject_Z_plus, inject_Z_mult.
      change (inject_Z (-16)) with (-16 # 1)%Q.
      change (inject_Z 32) with 32%Q. lra. }
    apply Qfloor_unique; rewrite ?inject_Z_plus;
      change (inject_Z 1) with 1%Q; lra.
  - specialize (Hr2 Hz).
    apply Qfloor_unique; rewrite ?inject_Z_plus;
      change (inject_Z 1) with 1%Q; lra.
Qed.

(** [Math.floor(mins / 60)] on an integer number of minutes. *)
Lemma floor_hours (m : Z) :
  0 <= m < 2 ^ 53 ->
  Num.floor (Num.div (Finite (inject_Z m)) (Finite (inject_Z 60)))
  = Finite (inject_Z (m / 60)).
Proof.
  intros Hm. destruct (Z.eq_dec m 0) as [->|Hnz]; [reflexivity|].
  destruct (div_integers m 60 47 ltac:(lia) ltac:(cbn; lia))
    as (-> & Herr & Hexact).
  change (Num.Qpow2 (47 - 53)) with (1 # 64)%Q in Herr.
  change (Num.Qpow2 (52 - 47)) with 32%Q in Hexact.
  apply Qabs_Qle_condition in Herr as [Hlo Hhi].
  unfold Num.floor. do 2 f_equal.
  destruct (Q_div_mod m 60) as (Hdm & [Hr0 Hr1] & Hr2).
  change (inject_Z 60) with 60%Q in *.
  set (k := m / 60) in *.
  destruct (Z.eq_dec (m mod 60) 0) as [Hz|Hz].
  - rewrite Hz in Hdm. change (inject_Z 0) with 0%Q in Hdm.
    assert (Hx : (Num.nearest (m # 60) == (m # 60))%Q).
    { apply (Hexact (32 * k)). rewrite inject_Z_mult.
      change (inject_Z 32) with 32%Q. lra. }
    apply Qfloor_unique; rewrite ?inject_Z_plus;
      change (inject_Z 1) with 1%Q; lra.
  - specialize (Hr2 Hz).
    apply Qfloor_unique; rewrite ?inject_Z_plus;
      change (inject_Z 1) with 1%Q; lra.
Qed.

(** [mins % 60] on an integer number of minutes. *)
Lemma rem_minutes (m : Z) :
  0 <= m ->
  Num.toString (Num.rem (Finite (inject_Z m)) (Finite (inject_Z 60)))
  = Str.of_Z (m mod 60).
Proof.
  intros Hm. unfold Num.rem, Num.is_zero.
  change (Qeq_bool (inject_Z 60) 0) with false. cbv iota.
  rewrite Qdiv_integers.
  assert (Hneg : Num.Qltb (m # 60) 0 = false).
  { unfold Num.Qltb.
    assert (E : Qle_bool 0 (m # 60) = true)
      by (apply Qle_bool_iff; unfold Qle; simpl; lia).
    rewrite E. reflexivity. }
  rewrite Hneg.
  assert (Hrem : (inject_Z m - inject_Z 60 * inject_Z (Qfloor (m # 60))
                  == inject_Z (m mod 60))%Q).
  { destruct (Q_div_mod m 60) as (Hdm & _).
    change (Qfloor (m # 60)) with (m / 60).
    assert (Hm60 : ((m # 60) * inject_Z 60 == inject_Z m)%Q)
      by (unfold Qeq; simpl; lia).
    rewrite Hm60 in Hdm. rewrite Hdm. ring. }
  rewrite (Qred_complete _ _ Hrem), Qred_inject_Z.
  apply toString_integer. pose proof (Z.mod_pos_bound m 60 ltac:(lia)). lia.
Qed.

(** X29. A duration given as a whole number of seconds, as the
    directions handler passes it, is rendered from its minutes rounded
    half up, [(s + 30) / 60]: below 60 minutes as [<minutes> mins],
    from 60 minutes on as [<hours> hr <minutes> mins] with the minutes
    left over, zero included.  The binary64 division by 60 never moves
    the result to another minute, for every [s] below 2^53. *)
Theorem formatDuration_whole_seconds (s : Z) :
  0 <= s < 2 ^ 53 ->
  formatDuration (Num.of_Z s)
  = let mins := (s + 30) / 60 in
    let hours := mins / 60 in
    let rest := mins mod 60 in
    if mins <? 60 then (Str.of_Z mins ++ " mins")%string
    else (Str.of_Z hours ++ " hr " ++ Str.of_Z rest ++ " mins")%string.
Proof.
  intros Hs. unfold formatDuration.
  rewrite (of_Z_exact s Hs), (of_Z_exact 60) by lia.
  rewrite (round_minutes s Hs). cbv zeta.
  set (mins := (s + 30) / 60).
  assert (Hmins : 0 <= mins < 2 ^ 53).
  { unfold mins. split; [apply Z.div_pos; lia|].
    apply Z.div_lt_upper_bound; lia. }
  unfold Num.lt. rewrite Qltb_integers.
  destruct (mins <? 60).
  - rewrite (toString_integer mins) by lia. reflexivity.
  - rewrite (floor_hours mins Hmins), (rem_minutes mins) by lia.
    assert (Hhours : 0 <= mins / 60 <= 2 ^ 53).
    { split; [apply Z.div_pos; lia|].
      apply Z.lt_le_incl, Z.div_lt_upper_bound; lia. }
    rewrite (toString_integer (mins / 60) Hhours). reflexivity.
Qed.

Lemma formatDuration_whole_seconds_witness :
  0 <= 5430 < 2 ^ 53 /\
  formatDuration (Num.of_Z 5430) = "1 hr 31 mins" /\
  formatDuration (Num.of_Z 3570) = "1 hr 0 mins" /\
  formatDuration (Num.of_Z 3569) = "59 mins".
Proof.
  split; [lia|]. split; [|split].
  - exact (formatDuration_whole_seconds 5430 ltac:(lia)).
  - exact (formatDuration_whole_seconds 3570 ltac:(lia)).
  - exact (formatDuration_whole_seconds 3569 ltac:(lia)).
Defined.

(** [(meters / 1000).toFixed(1)] on a whole number of metres that is
    not half-way between two tenths of a kilometre. *)
Lemma toFixed1_kilometres (m : Z) :
  1000 <= m < 2 ^ 53 -> m mod 100 <> 50 ->
  Num.toFixed1 (Num.div (Finite (inject_Z m)) (Finite (inject_Z 1000)))
  = let tenths := (m + 50) / 100 in
    let km := tenths / 10 in
    let tenth := tenths mod 10 in
    (Str.of_Z km ++ "." ++ Str.of_Z tenth)%string.
Proof.
  intros Hm Htie.
  destruct (div_integers m 1000 43 ltac:(lia) ltac:(cbn; lia))
    as (-> & Herr & _).
  change (Num.Qpow2 (43 - 53)) with (1 # 1024)%Q in Herr.
  apply Qabs_Qle_condition in Herr as [Hlo Hhi].
  destruct (Q_div_mod (m + 50) 100) as (Hdm & [Hr0 Hr1] & Hr2).
  assert (Hnz : (m + 50) mod 100 <> 0).
  { intros H. apply Htie.
    pose proof (Z.div_mod (m + 50) 100 ltac:(lia)).
    pose proof (Z.div_mod m 100 ltac:(lia)).
    pose proof (Z.mod_pos_bound m 100 ltac:(lia)). lia. }
  specialize (Hr2 Hnz).
  assert (Hshift : ((m + 50 # 100) == (m # 1000) * 10 + (1 # 2))%Q)
    by (unfold Qeq; simpl; lia).
  rewrite Hshift in Hdm.
  change (inject_Z 100) with 100%Q in *.
  assert (Hbig : (1 <= (m # 1000))%Q) by (unfold Qle; simpl; lia).
  set (x := Num.nearest (m # 1000)) in *.
  assert (Hpos : (0 <= x)%Q) by lra.
  unfold Num.toFixed1.
  assert (Hn : Qfloor (Qabs x * 10 + (1 # 2)) = (m + 50) / 100).
  { apply Qfloor_unique; rewrite (Qabs_pos x Hpos), ?inject_Z_plus;
      change (inject_Z 1) with 1%Q; lra. }
  rewrite Hn. unfold Num.Qltb.
  assert (Hle : Qle_bool 0 x = true) by (apply Qle_bool_iff; exact Hpos).
  assert (Hup : (m # 1000 <= 9007199254740992)%Q) by (unfold Qle; simpl; lia).
  assert (Hplain : Qle_bool (Num.Qpow10 21) (Qabs x) = false).
  { destruct (Qle_bool (Num.Qpow10 21) (Qabs x)) eqn:E; [|reflexivity].
    apply Qle_bool_iff in E. rewrite (Qabs_pos x Hpos) in E.
    change (Num.Qpow10 21) with 1000000000000000000000%Q in E. lra. }
  rewrite Hle, Hplain. reflexivity.
Qed.

(** X30. A distance given as a whole number of metres is rendered
    [<metres> m] below 1000 and otherwise in kilometres with one
    decimal, rounded to the nearest tenth: [(m + 50) / 100] tenths.
    Excluded are the distances half-way between two tenths, where the
    binary64 quotient decides (1150 gives 1.1, 1250 gives 1.3). *)
Theorem formatDistance_whole_metres (m : Z) :
  0 <= m < 2 ^ 53 -> (1000 <= m -> m mod 100 <> 50) ->
  formatDistance (Num.of_Z m)
  = let tenths := (m + 50) / 100 in
    let km := tenths / 10 in
    let tenth := tenths mod 10 in
    if m <? 1000 then (Str.of_Z m ++ " m")%string
    else (Str.of_Z km ++ "." ++ Str.of_Z tenth ++ " km")%string.
Proof.
  intros Hm Htie. unfold formatDistance.
  rewrite (of_Z_exact m Hm), (of_Z_exact 1000) by lia.
  unfold Num.lt. rewrite Qltb_integers.
  destruct (Z.ltb_spec m 1000) as [H|H].
  - rewrite (toString_integer m) by lia. reflexivity.
  - rewrite (toFixed1_kilometres m ltac:(lia) (Htie H)).
    cbv zeta. rewrite !append_assoc. reflexivity.
Qed.

Lemma formatDistance_whole_metres_witness :
  0 <= 12345 < 2 ^ 53 /\ 12345 mod 100 <> 50 /\
  formatDistance (Num.of_Z 12345) = "12.3 km" /\
  formatDistance (Num.of_Z 999) = "999 m" /\
  formatDistance (Num.of_Z 1949) = "1.9 km" /\
  formatDistance (Num.of_Z 1951) = "2.0 km".
Proof.
  split; [lia|]. split; [discriminate|]. split; [|split; [|split]].
  - exact (formatDistance_whole_metres 12345 ltac:(lia) ltac:(intros _; discriminate)).
  - exact (formatDistance_whole_metres 999 ltac:(lia) ltac:(intros _; discriminate)).
  - exact (formatDistance_whole_metres 1949 ltac:(lia) ltac:(intros _; discriminate)).
  - exact (formatDistance_whole_metres 1951 ltac:(lia) ltac:(intros _; discriminate)).
Defined.
